(** * Track metadata enrichment: a shallow embedding of
      [track_metadata_enrichment.py] and the properties of its pipeline.

    The Python program is dynamically typed: JSON payloads, tag values and
    the accumulator of found metadata are all plain Python values.  The
    embedding keeps that: one type [pyval] of Python values, the partial
    operations on it returning a [result] (a value or a raised exception),
    and the methods of [MetadataEnricher] written in a state-and-exception
    monad whose state is the tag store of the audio files and the trace of
    externally visible events (HTTP requests, log records, file accesses).

    Modelling conventions, fixed here once:
    - a Python [str] is a [string] of 8-bit characters; [lower] and [strip]
      act on the ASCII range;
    - a JSON number with a fraction is [PFloat m e] (the value m * 2^e);
    - [time.sleep] in [rate_limit] takes time but has no other effect; the
      call is recorded as the event [EvRateLimit];
    - the thread pool of [process_directory] is run under the schedule that
      completes the files in the order they were found. *)

From stdpp Require Import gmap strings list fin_maps pretty.
From Stdlib Require Import ZArith Ascii.

Open Scope string_scope.
Open Scope Z_scope.
Open Scope list_scope.

(** ** Python values *)

#[warnings="-register-all"]
Inductive pyval : Type :=
| PNone
| PBool (b : bool)
| PInt (n : Z)
| PFloat (m e : Z)
| PStr (s : string)
| PList (l : list pyval)
| PDict (d : gmap string pyval).

(** Exceptions, by class. *)
Inductive exn : Type :=
| TypeError | KeyError | IndexError | AttributeError
| ConnectionError | HTTPError | JSONDecodeError | MutagenError.

Inductive result (A : Type) : Type :=
| Ok (a : A)
| Raise (e : exn).
Arguments Ok {A} a.
Arguments Raise {A} e.

Definition rbind {A B} (r : result A) (k : A → result B) : result B :=
  match r with
  | Ok a => k a
  | Raise e => Raise e
  end.

Notation "'let?' x ':=' r 'in' k" := (rbind r (fun x => k))
  (at level 10, x name, r at level 100, k at level 200).

(** Truth value of an object ([bool(v)]). *)
Definition truthy (v : pyval) : bool :=
  match v with
  | PNone => false
  | PBool b => b
  | PInt n => negb (n =? 0)
  | PFloat m _ => negb (m =? 0)
  | PStr s => negb (String.eqb s "")
  | PList l => negb (Nat.eqb (length l) 0)
  | PDict d => negb (Nat.eqb (size d) 0)
  end.

(** [v == s] for a string literal [s]. *)
Definition py_eq_str (v : pyval) (s : string) : bool :=
  match v with
  | PStr s' => String.eqb s' s
  | _ => false
  end.

(** [v.get(k, default)]: only dictionaries have the method. *)
Definition py_get (v : pyval) (k : string) (dflt : pyval) : result pyval :=
  match v with
  | PDict d => Ok (default dflt (d !! k))
  | _ => Raise AttributeError
  end.

(** [v[k]] for a string key [k]. *)
Definition py_getitem (v : pyval) (k : string) : result pyval :=
  match v with
  | PDict d => match d !! k with Some x => Ok x | None => Raise KeyError end
  | _ => Raise TypeError
  end.

(** The characters of a string, each a one-character string. *)
Fixpoint chars (s : string) : list string :=
  match s with
  | EmptyString => []
  | String c s' => String c EmptyString :: chars s'
  end.

Fixpoint string_take (n : nat) (s : string) : string :=
  match n, s with
  | S n', String c s' => String c (string_take n' s')
  | _, _ => EmptyString
  end.

(** [v[0]].  A dictionary decoded from JSON has string keys only, so the
    key [0] is never found. *)
Definition py_getitem0 (v : pyval) : result pyval :=
  match v with
  | PList (x :: _) => Ok x
  | PList [] => Raise IndexError
  | PStr (String c _) => Ok (PStr (String c EmptyString))
  | PStr EmptyString => Raise IndexError
  | PDict _ => Raise KeyError
  | _ => Raise TypeError
  end.

(** [v[:n]].  Slicing a dictionary raises (a TypeError up to Python 3.11,
    a KeyError from 3.12 on; the class plays no role below). *)
Definition py_slice (n : nat) (v : pyval) : result pyval :=
  match v with
  | PList l => Ok (PList (take n l))
  | PStr s => Ok (PStr (string_take n s))
  | _ => Raise TypeError
  end.

Fixpoint starts_with (k s : string) : bool :=
  match k, s with
  | EmptyString, _ => true
  | String a k', String b s' => if Ascii.eqb a b then starts_with k' s' else false
  | String _ _, EmptyString => false
  end.

(** [k in s] on strings: [k] occurs in [s] as a substring. *)
Fixpoint is_substring (k s : string) : bool :=
  starts_with k s ||
  match s with
  | EmptyString => false
  | String _ s' => is_substring k s'
  end.

(** [k in v] for a string literal [k]. *)
Definition py_contains (k : string) (v : pyval) : result bool :=
  match v with
  | PDict d => Ok (bool_decide (is_Some (d !! k)))
  | PList l => Ok (existsb (λ x, py_eq_str x k) l)
  | PStr s => Ok (is_substring k s)
  | _ => Raise TypeError
  end.

(** The elements [for x in v] runs over.  A dictionary yields its keys; the
    order of the keys (insertion order in Python) is that of [map_to_list]. *)
Definition py_iter (v : pyval) : result (list pyval) :=
  match v with
  | PList l => Ok l
  | PStr s => Ok (PStr <$> chars s)
  | PDict d => Ok ((λ kv, PStr kv.1) <$> map_to_list d)
  | _ => Raise TypeError
  end.

(** [[f(x) for x in l]], stopping at the first exception. *)
Fixpoint rmap {A B} (f : A → result B) (l : list A) : result (list B) :=
  match l with
  | [] => Ok []
  | x :: l' => let? y := f x in let? ys := rmap f l' in Ok (y :: ys)
  end.

Definition py_is_list (v : pyval) : bool :=
  match v with PList _ => true | _ => false end.

(** ** Strings *)

Definition lower_char (c : ascii) : ascii :=
  let n := nat_of_ascii c in
  if (65 <=? n)%nat && (n <=? 90)%nat then ascii_of_nat (n + 32) else c.

Fixpoint lower (s : string) : string :=
  match s with
  | EmptyString => EmptyString
  | String c s' => String (lower_char c) (lower s')
  end.

(** [sep.join(l)]. *)
Fixpoint join (sep : string) (l : list string) : string :=
  match l with
  | [] => EmptyString
  | [x] => x
  | x :: l' => x +:+ sep +:+ join sep l'
  end.

(** Characters [str.strip()] removes: tab to carriage return, the four
    separators 0x1c-0x1f, and the space. *)
Definition is_space (c : ascii) : bool :=
  let n := nat_of_ascii c in
  ((9 <=? n)%nat && (n <=? 13)%nat) || ((28 <=? n)%nat && (n <=? 32)%nat).

Fixpoint lstrip (s : string) : string :=
  match s with
  | String c s' => if is_space c then lstrip s' else s
  | EmptyString => EmptyString
  end.

Fixpoint rstrip (s : string) : string :=
  match s with
  | String c s' =>
      match rstrip s' with
      | EmptyString => if is_space c then EmptyString else String c EmptyString
      | r => String c r
      end
  | EmptyString => EmptyString
  end.

Definition strip (s : string) : string := rstrip (lstrip s).

(** The double-quote character. *)
Definition dquote : ascii := ascii_of_nat 34.

(** [s.replace(q, '')] for the one-character string [q] holding [dquote]. *)
Fixpoint remove_quotes (s : string) : string :=
  match s with
  | String c s' =>
      if Ascii.eqb c dquote then remove_quotes s' else String c (remove_quotes s')
  | EmptyString => EmptyString
  end.

(** The cleaning of a search term, [v.replace(q, '').strip()]: methods of
    strings only. *)
Definition py_clean (v : pyval) : result string :=
  match v with
  | PStr s => Ok (strip (remove_quotes s))
  | _ => Raise AttributeError
  end.

(** The strings of a list all of whose elements are strings. *)
Fixpoint all_str (l : list pyval) : option (list string) :=
  match l with
  | [] => Some []
  | PStr s :: l' => cons s <$> all_str l'
  | _ :: _ => None
  end.

(** ** The mood classifier *)

(** [mood_keywords], in the order the dictionary literal lists its items
    (the order [items()] yields them). *)
Definition mood_keywords : list (string * list string) :=
  [ ("energetic", ["energetic"; "upbeat"; "fast"; "dance"; "electronic";
                   "house"; "techno"; "trance"; "edm"]);
    ("chill", ["chill"; "ambient"; "relaxed"; "downtempo"; "lounge"; "jazz";
               "smooth"; "calm"]);
    ("emotional", ["emotional"; "melancholic"; "sad"; "romantic"; "ballad";
                   "deep"; "atmospheric"]);
    ("aggressive", ["aggressive"; "heavy"; "metal"; "rock"; "hardcore";
                    "intense"; "powerful"]);
    ("groovy", ["groovy"; "funk"; "soul"; "disco"; "rhythm"; "swing"; "bass"]) ].

(** [any(keyword in text for keyword in keywords)]. *)
Definition any_in (keywords : list string) (text : string) : bool :=
  existsb (λ keyword, is_substring keyword text) keywords.

(** The loop over the table: the first mood one of whose keywords occurs. *)
Fixpoint first_mood (table : list (string * list string)) (text : string)
  : option string :=
  match table with
  | [] => None
  | (mood, keywords) :: table' =>
      if any_in keywords text then Some mood else first_mood table' text
  end.

Definition classify_mood (tags : list string) (genre : string) : string :=
  let text_to_analyze := lower (join " " (tags ++ [genre])) in
  match first_mood mood_keywords text_to_analyze with
  | Some mood => mood
  | None =>
      let genre_lower := lower genre in
      if any_in ["house"; "techno"; "trance"; "edm"; "dance"] genre_lower
      then "energetic"
      else if any_in ["ambient"; "lounge"; "jazz"; "chillout"] genre_lower
      then "chill"
      else if any_in ["metal"; "rock"; "hardcore"] genre_lower
      then "aggressive"
      else if any_in ["funk"; "soul"; "disco"] genre_lower
      then "groovy"
      else "neutral"
  end.

(** The call on Python values: [tags + [genre]] needs a list, [join] needs
    strings. *)
Definition py_classify_mood (tags genre : pyval) : result pyval :=
  match tags, genre with
  | PList l, PStr g =>
      match all_str l with
      | Some ts => Ok (PStr (classify_mood ts g))
      | None => Raise TypeError
      end
  | _, _ => Raise TypeError
  end.

(** ** The outside world: requests, log records, files *)

(** The five requests the clients send, with the values each is built
    from. *)
Inductive request : Type :=
| MusicBrainzRecordingSearch (artist_clean title_clean : string)
| MusicBrainzArtist (artist_id : pyval)
| LastfmTrackGetInfo (artist title api_key : pyval)
| DiscogsSearch (artist title token : pyval)
| DiscogsRelease (release_id token : pyval).

Record response : Type := { status_code : Z; json_body : option pyval }.

(** What [session.get] does: raise, or return a response whose body decodes
    as JSON ([Some]) or does not ([None]). *)
Inductive http_outcome : Type :=
| ConnectionFailed
| Responded (r : response).

Inductive level : Type := INFO | WARNING | ERROR.

(** The log records, by message template and arguments. *)
Inductive message : Type :=
| MsgProcessing (name : string)
| MsgAllPresent (name : string)
| MsgMissingArtistTitle (name : string)
| MsgUpdated (name : string) (new_metadata : gmap string pyval)
| MsgCouldNotFind (name : string)
| MsgExtractError (path : string) (e : exn)
| MsgUpdateError (path : string) (e : exn)
| MsgMusicBrainzFailed (artist title : pyval) (e : exn)
| MsgGenresFailed (artist_id : pyval) (e : exn)
| MsgLastfmFailed (artist title : pyval) (e : exn)
| MsgDiscogsFailed (artist title : pyval) (e : exn)
| MsgDiscogsReleaseFailed (release_id : pyval) (e : exn)
| MsgLastfmNotConfigured
| MsgDiscogsNotConfigured
| MsgAvailableApis (available_apis : list string)
| MsgDirectoryMissing (directory : string)
| MsgFound (n : nat)
| MsgNoFiles
| MsgProcessError (path : string) (e : exn)
| MsgRuleAfterNewline
| MsgRule
| MsgSummaryTitle
| MsgTotal (n : nat)
| MsgUpdatedCount (n : nat)
| MsgCompleteCount (n : nat)
| MsgMissingInfoCount (n : nat)
| MsgNotFoundCount (n : nat)
| MsgErrorCount (n : nat).

Inductive event : Type :=
| EvRateLimit
| EvGet (r : request)
| EvLog (l : level) (m : message)
| EvFile (path : string)
| EvSave (path : string).

(** An audio file as [mutagen.File] sees it: not an audio file ([File]
    returns [None]), or an object with its tags ([None] when the file has no
    tag block) and whether [save] fails.  A tag maps to a list of values. *)
Inductive audio : Type :=
| Unsupported
| Audio (tags : option (gmap string (list pyval))) (save_fails : bool).

Record state : Type := {
  files : gmap string audio;
  trace : list event
}.

Definition is_get (ev : event) : bool :=
  match ev with EvGet _ => true | _ => false end.

(** The outcome record of [process_file]: a dictionary with the keys
    [file] and [status] and, by status, [updated], [metadata] or [error]. *)
Record outcome : Type := {
  file : string;
  status : string;
  updated : option bool;
  metadata : option (gmap string pyval);
  error : option exn
}.

(** The API keys as [__init__] stores them. *)
Record MetadataEnricher : Type := {
  lastfm_api_key : pyval;
  discogs_token : pyval;
  spotify_client_id : pyval;
  spotify_client_secret : pyval
}.

(** [self.api_keys = api_keys or {}] and the four [get]s with default ['']. *)
Definition new_enricher (api_keys : option (gmap string pyval)) : MetadataEnricher :=
  let keys := match api_keys with
              | Some d => if truthy (PDict d) then d else ∅
              | None => ∅
              end in
  {| lastfm_api_key := default (PStr "") (keys !! "lastfm_api_key");
     discogs_token := default (PStr "") (keys !! "discogs_token");
     spotify_client_id := default (PStr "") (keys !! "spotify_client_id");
     spotify_client_secret := default (PStr "") (keys !! "spotify_client_secret") |}.

(** [d.get(k)] on a dictionary built by the program itself. *)
Definition dict_get (d : gmap string pyval) (k : string) : pyval :=
  default PNone (d !! k).

(** [file_path.name]: the last component of the path. *)
Fixpoint path_name (p : string) : string :=
  match p with
  | EmptyString => EmptyString
  | String c p' =>
      if is_substring "/" p' then path_name p'
      else if Ascii.eqb c "/" then p' else p
  end.

(** ** The monad of the methods *)

(** Computations: from a state to a value or an exception, and a state. *)
Definition M (A : Type) : Type := state → result A * state.

Definition ret {A} (a : A) : M A := λ st, (Ok a, st).

Definition raise {A} (e : exn) : M A := λ st, (Raise e, st).

Definition bind {A B} (m : M A) (k : A → M B) : M B :=
  λ st, match m st with
        | (Ok a, st') => k a st'
        | (Raise e, st') => (Raise e, st')
        end.

Definition lift {A} (r : result A) : M A := λ st, (r, st).

(** [try: body  except Exception as e: handler(e)]. *)
Definition try_except {A} (body : M A) (handler : exn → M A) : M A :=
  λ st, match body st with
        | (Ok a, st') => (Ok a, st')
        | (Raise e, st') => handler e st'
        end.

Notation "'let*' x ':=' m 'in' k" := (bind m (fun x => k))
  (at level 10, x name, m at level 100, k at level 200).
Notation "m ';;;' k" := (bind m (fun _ => k))
  (at level 100, k at level 200, right associativity).

Definition emit (ev : event) : M unit :=
  λ st, (Ok (), {| files := files st; trace := trace st ++ [ev] |}).

Definition log (l : level) (m : message) : M unit := emit (EvLog l m).

Definition rate_limit : M unit := emit EvRateLimit.

(** ** The methods of [MetadataEnricher] *)

Section Enricher.

(** The upstream services: what a request gets, given everything that
    happened before it. *)
Variable world : list event → request → http_outcome.

(** The builtin [str], total on the values above. *)
Variable py_str : pyval → string.

Variable self : MetadataEnricher.

(** [check_api_keys], which [__init__] calls last. *)
Definition check_api_keys : M unit :=
  let* lastfm :=
    if truthy (lastfm_api_key self)
       && negb (py_eq_str (lastfm_api_key self) "YOUR_LASTFM_API_KEY_HERE")
    then ret ["Last.fm"]
    else log WARNING MsgLastfmNotConfigured ;;; ret [] in
  let* discogs :=
    if truthy (discogs_token self)
       && negb (py_eq_str (discogs_token self) "YOUR_DISCOGS_TOKEN_HERE")
    then ret ["Discogs"]
    else log WARNING MsgDiscogsNotConfigured ;;; ret [] in
  let spotify :=
    if truthy (spotify_client_id self) && truthy (spotify_client_secret self)
    then ["Spotify"] else [] in
  log INFO (MsgAvailableApis (lastfm ++ discogs ++ spotify ++ ["MusicBrainz"])).

(** [self.session.get(...)]. *)
Definition session_get (r : request) : M response :=
  λ st, match world (trace st) r with
        | ConnectionFailed => (emit (EvGet r) ;;; raise ConnectionError) st
        | Responded resp => (emit (EvGet r) ;;; ret resp) st
        end.

(** [response.raise_for_status()]: raises on a 4xx or 5xx status. *)
Definition raise_for_status (resp : response) : M unit :=
  if (400 <=? status_code resp) && (status_code resp <? 600)
  then raise HTTPError else ret ().

(** [response.json()]. *)
Definition response_json (resp : response) : M pyval :=
  match json_body resp with
  | Some v => ret v
  | None => raise JSONDecodeError
  end.

Definition get_musicbrainz_genres (artist_id : pyval) : M pyval :=
  try_except
    (rate_limit ;;;
     let* response := session_get (MusicBrainzArtist artist_id) in
     raise_for_status response ;;;
     let* data := response_json response in
     let* names := lift (let? genres := py_get data "genres" (PList []) in
                         let? items := py_iter genres in
                         rmap (λ genre, py_getitem genre "name") items) in
     ret (PList names))
    (λ e, log WARNING (MsgGenresFailed artist_id e) ;;; ret (PList [])).

(** In the three [search_*] methods the [return {}] after the [try]
    statement is reached from the [except] clause and when the payload has
    no hit; both are written where they occur. *)
Definition search_musicbrainz (artist title : pyval) : M (gmap string pyval) :=
  try_except
    (rate_limit ;;;
     let* artist_clean := lift (py_clean artist) in
     let* title_clean := lift (py_clean title) in
     let* response :=
       session_get (MusicBrainzRecordingSearch artist_clean title_clean) in
     raise_for_status response ;;;
     let* data := response_json response in
     let* recordings := lift (py_get data "recordings" PNone) in
     if truthy recordings then
       let* recording := lift (let? rs := py_getitem data "recordings" in
                               py_getitem0 rs) in
       let* r_title := lift (py_get recording "title" (PStr "")) in
       let* r_artist :=
         lift (let? credit := py_get recording "artist-credit" (PList [PDict ∅]) in
               let? first := py_getitem0 credit in
               py_get first "name" (PStr "")) in
       let* r_date := lift (py_get recording "date" (PStr "")) in
       let result : gmap string pyval :=
         <["genre" := PList []]> (<["date" := r_date]>
           (<["artist" := r_artist]> (<["title" := r_title]> ∅))) in
       let* credit := lift (py_get recording "artist-credit" PNone) in
       if truthy credit then
         let* artist_id :=
           lift (let? credit := py_getitem recording "artist-credit" in
                 let? first := py_getitem0 credit in
                 let? art := py_get first "artist" (PDict ∅) in
                 py_get art "id" PNone) in
         if truthy artist_id then
           let* genres := get_musicbrainz_genres artist_id in
           ret (<["genre" := genres]> result)
         else ret result
       else ret result
     else ret ∅)
    (λ e, log WARNING (MsgMusicBrainzFailed artist title e) ;;; ret ∅).

Definition search_lastfm (artist title : pyval) : M (gmap string pyval) :=
  if negb (truthy (lastfm_api_key self))
     || py_eq_str (lastfm_api_key self) "YOUR_LASTFM_API_KEY_HERE"
  then ret ∅
  else
  try_except
    (rate_limit ;;;
     let* response :=
       session_get (LastfmTrackGetInfo artist title (lastfm_api_key self)) in
     raise_for_status response ;;;
     let* data := response_json response in
     let* has_track := lift (py_contains "track" data) in
     if has_track then
       let* track := lift (py_getitem data "track") in
       let* has_toptags := lift (py_contains "toptags" track) in
       let* has_tag :=
         if has_toptags
         then lift (let? toptags := py_getitem track "toptags" in
                    py_contains "tag" toptags)
         else ret false in
       let* mood_tags :=
         if has_tag
         then lift (let? toptags := py_getitem track "toptags" in
                    let? tag := py_getitem toptags "tag" in
                    let? top := py_slice 5 tag in
                    let? items := py_iter top in
                    rmap (λ tag, py_getitem tag "name") items)
         else ret [] in
       let* genre := lift (let? wiki := py_get track "wiki" (PDict ∅) in
                           py_get wiki "genre" (PStr "")) in
       let* published := lift (let? wiki := py_get track "wiki" (PDict ∅) in
                               py_get wiki "published" PNone) in
       let* year :=
         if truthy published
         then lift (let? wiki := py_get track "wiki" (PDict ∅) in
                    let? p := py_get wiki "published" (PStr "") in
                    py_slice 4 p)
         else ret (PStr "") in
       ret (<["year" := year]> (<["mood" := PList mood_tags]>
             (<["genre" := genre]> ∅)))
     else ret ∅)
    (λ e, log WARNING (MsgLastfmFailed artist title e) ;;; ret ∅).

Definition get_discogs_release (release_id : pyval) : M pyval :=
  try_except
    (rate_limit ;;;
     let* response :=
       session_get (DiscogsRelease release_id (discogs_token self)) in
     raise_for_status response ;;;
     response_json response)
    (λ e, log WARNING (MsgDiscogsReleaseFailed release_id e) ;;; ret (PDict ∅)).

Definition search_discogs (artist title : pyval) : M (gmap string pyval) :=
  if negb (truthy (discogs_token self))
     || py_eq_str (discogs_token self) "YOUR_DISCOGS_TOKEN_HERE"
  then ret ∅
  else
  try_except
    (rate_limit ;;;
     let* response :=
       session_get (DiscogsSearch artist title (discogs_token self)) in
     raise_for_status response ;;;
     let* data := response_json response in
     let* results := lift (py_get data "results" PNone) in
     if truthy results then
       let* result := lift (let? rs := py_getitem data "results" in
                            py_getitem0 rs) in
       let* release_id := lift (py_getitem result "id") in
       let* release_info := get_discogs_release release_id in
       let* year := lift (py_get release_info "year" (PStr "")) in
       let* genres := lift (py_get release_info "genres" (PList [])) in
       let* styles := lift (py_get release_info "styles" (PList [])) in
       ret (<["style" := styles]> (<["genre" := genres]>
             (<["year" := year]> ∅)))
     else ret ∅)
    (λ e, log WARNING (MsgDiscogsFailed artist title e) ;;; ret ∅).


(** [File(str(file_path))]: raises when there is no readable file;
    [Unsupported] stands for the [None] it returns on a file of no known
    format. *)
Definition File (file_path : string) : M audio :=
  emit (EvFile file_path) ;;;
  λ st, match files st !! file_path with
        | Some a => (Ok a, st)
        | None => (Raise MutagenError, st)
        end.

(** [tags.get(k, [''])[0] if tags.get(k) else '']. *)
Definition first_value (tags : gmap string (list pyval)) (k : string) : pyval :=
  match tags !! k with
  | Some (x :: _) => x
  | _ => PStr ""
  end.

(** The dictionary [extract_metadata] builds from the object [File]
    returned: empty for [None] and for an object without tags. *)
Definition tag_metadata (a : audio) : gmap string pyval :=
  match a with
  | Unsupported => ∅
  | Audio None _ => ∅
  | Audio (Some tags) _ =>
      <["mood" := first_value tags "mood"]>
        (<["date" := first_value tags "date"]>
          (<["genre" := first_value tags "genre"]>
            (<["album" := first_value tags "album"]>
              (<["artist" := first_value tags "artist"]>
                (<["title" := first_value tags "title"]> ∅)))))
  end.

Definition extract_metadata (file_path : string) : M (gmap string pyval) :=
  try_except
    (let* audio := File file_path in
     ret (tag_metadata audio))
    (λ e, log ERROR (MsgExtractError file_path e) ;;; ret ∅).

(** [tags[k] = [v]]; without a tag block [tags] is [None] and the
    assignment raises. *)
Definition set_tag (tags : option (gmap string (list pyval))) (k : string)
    (v : pyval) : result (option (gmap string (list pyval))) :=
  match tags with
  | Some t => Ok (Some (<[k := [v]]> t))
  | None => Raise TypeError
  end.

(** [audio.save()]. *)
Definition save (file_path : string) (tags : option (gmap string (list pyval)))
    (save_fails : bool) : M unit :=
  emit (EvSave file_path) ;;;
  if save_fails then raise MutagenError
  else λ st, (Ok (), {| files := <[file_path := Audio tags save_fails]> (files st);
                         trace := trace st |}).

Definition update_metadata (file_path : string)
    (new_metadata : gmap string pyval) : M bool :=
  try_except
    (let* audio := File file_path in
     match audio with
     | Unsupported => ret false
     | Audio tags save_fails =>
         let* tags :=
           if truthy (dict_get new_metadata "genre")
           then lift (set_tag tags "genre" (dict_get new_metadata "genre"))
           else ret tags in
         let* tags :=
           if truthy (dict_get new_metadata "year")
           then lift (set_tag tags "date" (dict_get new_metadata "year"))
           else ret tags in
         let* tags :=
           if truthy (dict_get new_metadata "mood")
           then lift (set_tag tags "mood" (dict_get new_metadata "mood"))
           else ret tags in
         save file_path tags save_fails ;;;
         ret true
     end)
    (λ e, log ERROR (MsgUpdateError file_path e) ;;; ret false).

(** The list [missing_fields]. *)
Definition missing_fields_of (existing_metadata : gmap string pyval) : list string :=
  (if truthy (dict_get existing_metadata "genre") then [] else ["genre"]) ++
  (if truthy (dict_get existing_metadata "date") then [] else ["year"]) ++
  (if truthy (dict_get existing_metadata "mood") then [] else ["mood"]).

(** [k in missing_fields]. *)
Definition is_missing (k : string) (missing_fields : list string) : bool :=
  bool_decide (k ∈ missing_fields).

(** The accumulator of [process_file]: [new_metadata] and [found_genre]. *)
Definition acc : Type := gmap string pyval * pyval.

(** [d[k]] on a dictionary built by the program itself. *)
Definition dict_item (d : gmap string pyval) (k : string) : result pyval :=
  match d !! k with Some x => Ok x | None => Raise KeyError end.

(** [if d:] on such a dictionary. *)
Definition dict_truthy (d : gmap string pyval) : bool := truthy (PDict d).

(** The statements of the search, each a step on the accumulator.  [and]
    evaluates left to right and stops at the first false operand. *)

(** [if 'genre' in missing_fields and mb_data.get('genre'): ...] *)
Definition musicbrainz_genre (missing_fields : list string)
    (mb_data : gmap string pyval) (a : acc) : result acc :=
  if is_missing "genre" missing_fields && truthy (dict_get mb_data "genre")
  then
    let? g := dict_item mb_data "genre" in
    let? found_genre := if py_is_list g then py_getitem0 g else Ok g in
    Ok (<["genre" := found_genre]> a.1, found_genre)
  else Ok a.

(** [if 'year' in missing_fields and mb_data.get('date'): ...] *)
Definition musicbrainz_year (missing_fields : list string)
    (mb_data : gmap string pyval) (a : acc) : result acc :=
  if is_missing "year" missing_fields && truthy (dict_get mb_data "date")
  then
    let? d := dict_item mb_data "date" in
    let? y := py_slice 4 d in
    Ok (<["year" := y]> a.1, a.2)
  else Ok a.

(** The body of [if mb_data:]. *)
Definition merge_musicbrainz (missing_fields : list string)
    (mb_data : gmap string pyval) (a : acc) : result acc :=
  if dict_truthy mb_data then
    let? a := musicbrainz_genre missing_fields mb_data a in
    musicbrainz_year missing_fields mb_data a
  else Ok a.

(** [if 'genre' in missing_fields and not new_metadata.get('genre')
        and lfm_data.get('genre'): ...] *)
Definition lastfm_genre (missing_fields : list string)
    (lfm_data : gmap string pyval) (a : acc) : result acc :=
  if is_missing "genre" missing_fields
     && negb (truthy (dict_get a.1 "genre"))
     && truthy (dict_get lfm_data "genre")
  then
    let? found_genre := dict_item lfm_data "genre" in
    Ok (<["genre" := found_genre]> a.1, found_genre)
  else Ok a.

Definition lastfm_year (missing_fields : list string)
    (lfm_data : gmap string pyval) (a : acc) : result acc :=
  if is_missing "year" missing_fields
     && negb (truthy (dict_get a.1 "year"))
     && truthy (dict_get lfm_data "year")
  then
    let? y := dict_item lfm_data "year" in
    Ok (<["year" := y]> a.1, a.2)
  else Ok a.

(** [if 'mood' in missing_fields and lfm_data.get('mood'): ...] *)
Definition lastfm_mood (missing_fields : list string)
    (lfm_data : gmap string pyval) (a : acc) : result acc :=
  if is_missing "mood" missing_fields && truthy (dict_get lfm_data "mood")
  then
    let? tags := dict_item lfm_data "mood" in
    let? mood := py_classify_mood tags a.2 in
    Ok (<["mood" := mood]> a.1, a.2)
  else Ok a.

(** The body of [if lfm_data:]. *)
Definition merge_lastfm (missing_fields : list string)
    (lfm_data : gmap string pyval) (a : acc) : result acc :=
  if dict_truthy lfm_data then
    let? a := lastfm_genre missing_fields lfm_data a in
    let? a := lastfm_year missing_fields lfm_data a in
    lastfm_mood missing_fields lfm_data a
  else Ok a.

Definition discogs_year (missing_fields : list string)
    (discogs_data : gmap string pyval) (a : acc) : result acc :=
  if is_missing "year" missing_fields
     && negb (truthy (dict_get a.1 "year"))
     && truthy (dict_get discogs_data "year")
  then
    let? y := dict_item discogs_data "year" in
    Ok (<["year" := PStr (py_str y)]> a.1, a.2)
  else Ok a.

Definition discogs_genre (missing_fields : list string)
    (discogs_data : gmap string pyval) (a : acc) : result acc :=
  if is_missing "genre" missing_fields
     && negb (truthy (dict_get a.1 "genre"))
     && truthy (dict_get discogs_data "genre")
  then
    let? g := dict_item discogs_data "genre" in
    let? found_genre := if truthy g then py_getitem0 g else Ok (PStr "") in
    Ok (<["genre" := found_genre]> a.1, found_genre)
  else Ok a.

(** The body of [if discogs_data:]. *)
Definition merge_discogs (missing_fields : list string)
    (discogs_data : gmap string pyval) (a : acc) : result acc :=
  if dict_truthy discogs_data then
    let? a := discogs_year missing_fields discogs_data a in
    discogs_genre missing_fields discogs_data a
  else Ok a.

(** The statement after the three lookups: mood from the genre alone. *)
Definition mood_from_genre (missing_fields : list string) (a : acc) : result acc :=
  if is_missing "mood" missing_fields
     && negb (truthy (dict_get a.1 "mood"))
     && truthy a.2
  then
    let? mood := py_classify_mood (PList []) a.2 in
    Ok (<["mood" := mood]> a.1, a.2)
  else Ok a.

(** The search of [process_file], from [new_metadata = {}] to the
    statement before the update: each lookup is followed by its merge. *)
Definition search_sources (missing_fields : list string) (artist title : pyval)
  : M acc :=
  let a : acc := (∅, PStr "") in
  let* mb_data := search_musicbrainz artist title in
  let* a := lift (merge_musicbrainz missing_fields mb_data a) in
  let* lfm_data := search_lastfm artist title in
  let* a := lift (merge_lastfm missing_fields lfm_data a) in
  let* discogs_data := search_discogs artist title in
  let* a := lift (merge_discogs missing_fields discogs_data a) in
  lift (mood_from_genre missing_fields a).

(** The records [process_file] returns. *)
Definition outcome_flag (name status : string) : outcome :=
  {| file := name; status := status; updated := Some false;
     metadata := None; error := None |}.

Definition outcome_updated (name : string) (new_metadata : gmap string pyval)
  : outcome :=
  {| file := name; status := "updated"; updated := None;
     metadata := Some new_metadata; error := None |}.

(** The end of [process_file], from [if new_metadata:] on: the update, and
    the two statements every path without a successful update reaches. *)
Definition apply_update (file_path : string) (new_metadata : gmap string pyval)
  : M outcome :=
  let not_found : M outcome :=
    log WARNING (MsgCouldNotFind (path_name file_path)) ;;;
    ret (outcome_flag (path_name file_path) "not_found") in
  if dict_truthy new_metadata then
    let* success := update_metadata file_path new_metadata in
    if success then
      log INFO (MsgUpdated (path_name file_path) new_metadata) ;;;
      ret (outcome_updated (path_name file_path) new_metadata)
    else not_found
  else not_found.

Definition process_file (file_path : string) : M outcome :=
  log INFO (MsgProcessing (path_name file_path)) ;;;
  let* existing_metadata := extract_metadata file_path in
  let missing_fields := missing_fields_of existing_metadata in
  match missing_fields with
  | [] =>
      log INFO (MsgAllPresent (path_name file_path)) ;;;
      ret (outcome_flag (path_name file_path) "complete")
  | _ :: _ =>
      let artist := default (PStr "") (existing_metadata !! "artist") in
      let title := default (PStr "") (existing_metadata !! "title") in
      if negb (truthy artist) || negb (truthy title) then
        log WARNING (MsgMissingArtistTitle (path_name file_path)) ;;;
        ret (outcome_flag (path_name file_path) "missing_info")
      else
        let* a := search_sources missing_fields artist title in
        apply_update file_path a.1
  end.

(** [sum(1 for r in results if r['status'] == s)]. *)
Definition count_status (s : string) (results : list outcome) : nat :=
  length (filter (λ r, status r = s) results).

Definition print_summary (results : list outcome) : M unit :=
  let total := length results in
  let n_updated := count_status "updated" results in
  let n_complete := count_status "complete" results in
  let n_errors := count_status "error" results in
  let n_not_found := count_status "not_found" results in
  let n_missing_info := count_status "missing_info" results in
  log INFO MsgRuleAfterNewline ;;;
  log INFO MsgSummaryTitle ;;;
  log INFO MsgRule ;;;
  log INFO (MsgTotal total) ;;;
  log INFO (MsgUpdatedCount n_updated) ;;;
  log INFO (MsgCompleteCount n_complete) ;;;
  log INFO (MsgMissingInfoCount n_missing_info) ;;;
  log INFO (MsgNotFoundCount n_not_found) ;;;
  log INFO (MsgErrorCount n_errors) ;;;
  log INFO MsgRule.

(** The pool, under the schedule that completes the files in the order
    given: each file is processed, an exception of [process_file] becomes
    an [error] record. *)
Fixpoint run_pool (audio_files : list string) : M (list outcome) :=
  match audio_files with
  | [] => ret []
  | file_path :: rest =>
      let* result :=
        try_except (process_file file_path)
          (λ e, log ERROR (MsgProcessError file_path e) ;;;
                ret {| file := path_name file_path; status := "error";
                       updated := None; metadata := None; error := Some e |}) in
      let* results := run_pool rest in
      ret (result :: results)
  end.

Definition FILE_FORMAT : string := "mp3".

Fixpoint ends_with (suffix s : string) : bool :=
  String.eqb suffix s ||
  match s with
  | EmptyString => false
  | String _ s' => ends_with suffix s'
  end.

(** [directory.glob("**/*.mp3")] over the paths below the directory. *)
Definition glob (entries : list string) : list string :=
  filter (λ p, ends_with ("." +:+ FILE_FORMAT) (path_name p) = true) entries.

(** [process_directory]; [listing] is [None] when the directory does not
    exist, else the paths below it. *)
Definition process_directory (directory : string)
    (listing : option (list string)) : M unit :=
  match listing with
  | None => log ERROR (MsgDirectoryMissing directory)
  | Some entries =>
      let audio_files := glob entries in
      log INFO (MsgFound (length audio_files)) ;;;
      match audio_files with
      | [] => log INFO MsgNoFiles
      | _ :: _ =>
          let* results := run_pool audio_files in
          print_summary results
      end
  end.

End Enricher.

(** The three merges and the mood fallback in sequence, on the results the
    three clients returned. *)
Definition merge_sources (py_str : pyval → string) (missing_fields : list string)
    (mb_data lfm_data discogs_data : gmap string pyval) : result acc :=
  let? a := merge_musicbrainz missing_fields mb_data (∅, PStr "") in
  let? a := merge_lastfm missing_fields lfm_data a in
  let? a := merge_discogs py_str missing_fields discogs_data a in
  mood_from_genre missing_fields a.

(** What a source offers for a field, as [process_file] reads it from the
    source's result: the value, when it is non-empty. *)
Definition nonempty (r : result pyval) : option pyval :=
  match r with
  | Ok v => if truthy v then Some v else None
  | Raise _ => None
  end.

Definition offer_musicbrainz (mb_data : gmap string pyval) (field : string)
  : option pyval :=
  if decide (field = "genre") then
    let g := dict_get mb_data "genre" in
    nonempty (if py_is_list g then py_getitem0 g else Ok g)
  else if decide (field = "year") then
    nonempty (py_slice 4 (dict_get mb_data "date"))
  else None.

Definition offer_lastfm (lfm_data : gmap string pyval) (field : string)
  : option pyval :=
  if decide (field = "genre") then nonempty (Ok (dict_get lfm_data "genre"))
  else if decide (field = "year") then nonempty (Ok (dict_get lfm_data "year"))
  else None.

Definition offer_discogs (py_str : pyval → string)
    (discogs_data : gmap string pyval) (field : string) : option pyval :=
  if decide (field = "genre") then
    let g := dict_get discogs_data "genre" in
    if truthy g then nonempty (py_getitem0 g) else None
  else if decide (field = "year") then
    let y := dict_get discogs_data "year" in
    if truthy y then Some (PStr (py_str y)) else None
  else None.

(** The offer of the earliest source, in the order MusicBrainz, Last.fm,
    Discogs, that offers anything. *)
Definition first_offer (py_str : pyval → string)
    (mb_data lfm_data discogs_data : gmap string pyval) (field : string)
  : option pyval :=
  match offer_musicbrainz mb_data field with
  | Some v => Some v
  | None =>
      match offer_lastfm lfm_data field with
      | Some v => Some v
      | None => offer_discogs py_str discogs_data field
      end
  end.

(** A keyword without a space. *)
Fixpoint spaceless (k : string) : bool :=
  match k with
  | EmptyString => true
  | String c k' => negb (Ascii.eqb c " ") && spaceless k'
  end.

(** The labels [classify_mood] chooses from. *)
Definition labels : list string :=
  ["energetic"; "chill"; "emotional"; "aggressive"; "groovy"; "neutral"].

(** A field of the accumulator holds a non-empty value. *)
Definition filled (new_metadata : gmap string pyval) (k : string) (v : pyval)
  : Prop :=
  new_metadata !! k = Some v ∧ truthy v = true.

(** A field of the accumulator holds nothing, or an empty value. *)
Definition unfilled (new_metadata : gmap string pyval) (k : string) : Prop :=
  truthy (dict_get new_metadata k) = false.

(** Every key of the accumulator is a missing field. *)
Definition keys_in (missing_fields : list string)
    (new_metadata : gmap string pyval) : Prop :=
  ∀ k, is_Some (new_metadata !! k) → is_missing k missing_fields = true.

(** The mood of the accumulator, when there is one, is a label. *)
Definition mood_label (new_metadata : gmap string pyval) : Prop :=
  ∀ v, new_metadata !! "mood" = Some v → ∃ s, v = PStr s ∧ s ∈ labels.

(** The events of a trace that are requests. *)
Definition requests (evs : list event) : list event :=
  filter (λ ev, is_get ev = true) evs.

(** What makes a request fail: no response, an error status, or a body
    that is not JSON. *)
Definition failed (o : http_outcome) : bool :=
  match o with
  | ConnectionFailed => true
  | Responded r =>
      ((400 <=? status_code r) && (status_code r <? 600))
      || negb (bool_decide (is_Some (json_body r)))
  end.

(** The exception a failed request ends in. *)
Definition failure (o : http_outcome) : exn :=
  match o with
  | ConnectionFailed => ConnectionError
  | Responded r =>
      if (400 <=? status_code r) && (status_code r <? 600)
      then HTTPError else JSONDecodeError
  end.

(** The value of a result that is not an exception. *)
Definition value {A} (r : result A) : option A :=
  match r with
  | Ok a => Some a
  | Raise _ => None
  end.

(** The state after further events, the files untouched. *)
Definition after (st : state) (evs : list event) : state :=
  {| files := files st; trace := trace st ++ evs |}.

(** A computation that leaves the files alone and only adds events. *)
Definition quiet {A} (m : M A) : Prop :=
  ∀ st, ∃ evs, (m st).2 = after st evs.

(** A computation that never ends in an exception. *)
Definition total {A} (m : M A) : Prop :=
  ∀ st, ∃ a, (m st).1 = Ok a.

(** The metadata [extract_metadata] returns for a path. *)
Definition existing (fs : gmap string audio) (file_path : string)
  : gmap string pyval :=
  match fs !! file_path with
  | Some a => tag_metadata a
  | None => ∅
  end.

(** The credential stored under a key of the API-keys file, if any. *)
Definition credential (api_keys : option (gmap string pyval)) (k : string)
  : option pyval :=
  api_keys ≫= (λ d, d !! k).

(** The genre found so far, when there is one, is the genre of the
    accumulator. *)
Definition genre_found (a : acc) : Prop :=
  truthy a.2 = true → a.1 !! "genre" = Some a.2.

(** What every statement preserves. *)
Definition frame (field : string) (missing : list string) (a a' : acc) : Prop :=
  (keys_in missing a.1 → keys_in missing a'.1)
  ∧ (mood_label a.1 → mood_label a'.1)
  ∧ (genre_found a → genre_found a')
  ∧ (∀ k, k ≠ field → a'.1 !! k = a.1 !! k).

(** The tags [update_metadata] assigns before it saves. *)
Definition assigned (new_metadata : gmap string pyval)
    (tags : gmap string (list pyval)) : gmap string (list pyval) :=
  let tags := if truthy (dict_get new_metadata "genre")
              then <["genre" := [dict_get new_metadata "genre"]]> tags else tags in
  let tags := if truthy (dict_get new_metadata "year")
              then <["date" := [dict_get new_metadata "year"]]> tags else tags in
  if truthy (dict_get new_metadata "mood")
  then <["mood" := [dict_get new_metadata "mood"]]> tags else tags.

(** The state in which [process_file] starts its search: after the first
    log record and the reading of the tags. *)
Definition after_extract (file_path : string) (st : state) : state :=
  after st (EvLog INFO (MsgProcessing (path_name file_path)) ::
            EvFile file_path ::
            match files st !! file_path with
            | Some _ => []
            | None => [EvLog ERROR (MsgExtractError file_path MutagenError)]
            end).

(** Artist and title as [process_file] reads them. *)
Definition artist_of (existing_metadata : gmap string pyval) : pyval :=
  default (PStr "") (existing_metadata !! "artist").

Definition title_of (existing_metadata : gmap string pyval) : pyval :=
  default (PStr "") (existing_metadata !! "title").

(** ** Notions for the properties of the batch, the requests and the results *)



(** The five kinds of request, in the order [process_file] can send them. *)
Definition rank (r : request) : nat :=
  match r with
  | MusicBrainzRecordingSearch _ _ => 0
  | MusicBrainzArtist _ => 1
  | LastfmTrackGetInfo _ _ _ => 2
  | DiscogsSearch _ _ _ => 3
  | DiscogsRelease _ _ => 4
  end.

(** The kinds of the requests among some events, in order. *)
Definition request_ranks (evs : list event) : list nat :=
  omap (λ ev, match ev with EvGet r => Some (rank r) | _ => None end) evs.

(** Every request comes directly after a call of [rate_limit]. *)
Fixpoint paced (evs : list event) : bool :=
  match evs with
  | [] => true
  | EvRateLimit :: evs' =>
      match evs' with
      | EvGet _ :: rest => paced rest
      | _ => paced evs'
      end
  | EvGet _ :: _ => false
  | _ :: evs' => paced evs'
  end.

(** Strictly increasing numbers from [lo] on and below [hi]. *)
Fixpoint within (lo hi : nat) (l : list nat) : Prop :=
  match l with
  | [] => True
  | x :: l' => (lo ≤ x)%nat ∧ (x < hi)%nat ∧ within (S x) hi l'
  end.

(** A computation whose requests are paced and of increasing kinds between
    [lo] and [hi]. *)
Definition disciplined {A} (lo hi : nat) (m : M A) : Prop :=
  ∀ st, ∃ evs, trace (m st).2 = trace st ++ evs
               ∧ paced evs = true ∧ within lo hi (request_ranks evs).

(** The same for a computation that runs right after [rate_limit]. *)
Definition armed {A} (lo hi : nat) (m : M A) : Prop :=
  ∀ st, ∃ evs, trace (m st).2 = trace st ++ evs
               ∧ paced (EvRateLimit :: evs) = true
               ∧ within lo hi (request_ranks evs).

(** A computation that sends no request. *)
Definition silent {A} (m : M A) : Prop :=
  ∀ st, ∃ evs, trace (m st).2 = trace st ++ evs
               ∧ paced evs = true ∧ request_ranks evs = [].

(** A credential with which the client sends nothing. *)
Definition unconfigured (key : pyval) (placeholder : string) : bool :=
  negb (truthy key) || py_eq_str key placeholder.

(** The list [check_api_keys] reports. *)
Definition available_apis (self : MetadataEnricher) : list string :=
  (if unconfigured (lastfm_api_key self) "YOUR_LASTFM_API_KEY_HERE"
   then [] else ["Last.fm"])
  ++ (if unconfigured (discogs_token self) "YOUR_DISCOGS_TOKEN_HERE"
      then [] else ["Discogs"])
  ++ (if truthy (spotify_client_id self) && truthy (spotify_client_secret self)
      then ["Spotify"] else [])
  ++ ["MusicBrainz"].

(** The warnings that come before the report. *)
Definition key_warnings (self : MetadataEnricher) : list event :=
  (if unconfigured (lastfm_api_key self) "YOUR_LASTFM_API_KEY_HERE"
   then [EvLog WARNING MsgLastfmNotConfigured] else [])
  ++ (if unconfigured (discogs_token self) "YOUR_DISCOGS_TOKEN_HERE"
      then [EvLog WARNING MsgDiscogsNotConfigured] else []).

(** Strings, and lists of strings. *)
Definition is_str (v : pyval) : bool :=
  match v with PStr _ => true | _ => false end.

Definition is_str_list (v : pyval) : bool :=
  match v with PList l => forallb is_str l | _ => false end.

(** A field of a client's result passes a check when it is there. *)
Definition field_ok (d : gmap string pyval) (k : string) (check : pyval → bool)
  : bool :=
  match d !! k with Some v => check v | None => true end.

(** Results of the three clients with the types the search relies on:
    lists of names for the genres of MusicBrainz and Discogs and the tags
    of Last.fm, strings for the date of MusicBrainz and the genre of
    Last.fm. *)
Definition typed_musicbrainz (mb_data : gmap string pyval) : bool :=
  field_ok mb_data "genre" is_str_list && field_ok mb_data "date" is_str.

Definition typed_lastfm (lfm_data : gmap string pyval) : bool :=
  field_ok lfm_data "genre" is_str && field_ok lfm_data "mood" is_str_list.

Definition typed_discogs (discogs_data : gmap string pyval) : bool :=
  field_ok discogs_data "genre" is_str_list.

Definition well_formed (mb_data lfm_data discogs_data : gmap string pyval) : bool :=
  typed_musicbrainz mb_data && typed_lastfm lfm_data && typed_discogs discogs_data.

(** A computation all of whose results satisfy a property. *)
Definition returns {A} (P : A → Prop) (m : M A) : Prop :=
  ∀ st a st', m st = (Ok a, st') → P a.

(** The result of a slice [v[:n]]: a string or a list of at most [n]
    elements. *)
Definition at_most (n : nat) (v : pyval) : Prop :=
  match v with
  | PStr s => (String.length s ≤ n)%nat
  | PList l => (length l ≤ n)%nat
  | _ => False
  end.

(** The dictionaries the three clients build. *)
Definition musicbrainz_result (d : gmap string pyval) : Prop :=
  d = ∅
  ∨ ∃ title artist date genres,
      d = <["genre" := PList genres]> (<["date" := date]>
            (<["artist" := artist]> (<["title" := title]> ∅))).

Definition lastfm_result (d : gmap string pyval) : Prop :=
  d = ∅
  ∨ ∃ genre mood_tags year,
      d = <["year" := year]> (<["mood" := PList mood_tags]>
            (<["genre" := genre]> ∅))
      ∧ (length mood_tags ≤ 5)%nat ∧ at_most 4 year.

Definition discogs_result (d : gmap string pyval) : Prop :=
  d = ∅
  ∨ ∃ year genres styles,
      d = <["style" := styles]> (<["genre" := genres]> (<["year" := year]> ∅)).

(** ** Concrete files, credentials and services for the examples *)

Module Examples.

(** [str] on the values the examples pass to it. *)
Definition str (v : pyval) : string :=
  match v with
  | PStr s => s
  | PInt n => pretty n
  | PNone => "None"
  | PBool true => "True"
  | PBool false => "False"
  | _ => "<object>"
  end.

Definition obj (l : list (string * pyval)) : pyval := PDict (list_to_map l).

Definition keys : MetadataEnricher :=
  new_enricher (Some (list_to_map [("lastfm_api_key", PStr "k1");
                                   ("discogs_token", PStr "t1")])).

Definition ok (v : pyval) : http_outcome :=
  Responded {| status_code := 200; json_body := Some v |}.

(** A file with artist and title and nothing else. *)
Definition daft : audio :=
  Audio (Some (list_to_map [("artist", [PStr "Daft Punk"]);
                            ("title", [PStr "Get Lucky"])])) false.

(** The same file, on which [save] fails. *)
Definition read_only : audio :=
  Audio (Some (list_to_map [("artist", [PStr "Daft Punk"]);
                            ("title", [PStr "Get Lucky"])])) true.

(** A file with artist, title and genre. *)
Definition with_genre : audio :=
  Audio (Some (list_to_map [("artist", [PStr "Daft Punk"]);
                            ("title", [PStr "Get Lucky"]);
                            ("genre", [PStr "Disco"])])) false.

(** A file with every enrichable field, and no artist. *)
Definition tagged : audio :=
  Audio (Some (list_to_map [("title", [PStr "Untitled"]);
                            ("genre", [PStr "House"]);
                            ("date", [PStr "2020"]);
                            ("mood", [PStr "chill"])])) false.

(** A file with a title only. *)
Definition anonymous : audio :=
  Audio (Some (list_to_map [("title", [PStr "Untitled"])])) false.

Definition disk (a : audio) : state :=
  {| files := {[ "music/a.mp3" := a ]}; trace := [] |}.

Definition recording (date : pyval) : pyval :=
  obj [("recordings",
        PList [obj [("title", PStr "Get Lucky"); ("date", date);
                    ("artist-credit",
                     PList [obj [("name", PStr "Daft Punk");
                                 ("artist", obj [("id", PStr "056e4f3e")])]])]])].

Definition genres (names : list string) : pyval :=
  obj [("genres", PList ((λ n, obj [("name", PStr n)]) <$> names))].

Definition toptags (names : list string) (wiki : list (string * pyval)) : pyval :=
  obj [("track",
        obj [("toptags", obj [("tag", PList ((λ n, obj [("name", PStr n)]) <$> names))]);
             ("wiki", obj wiki)])].

(** MusicBrainz knows the recording, its year and the artist's genre;
    Last.fm has two tags; Discogs cannot be reached. *)
Definition scenario (_ : list event) (r : request) : http_outcome :=
  match r with
  | MusicBrainzRecordingSearch _ _ => ok (recording (PStr "2013"))
  | MusicBrainzArtist _ => ok (genres ["Funk"])
  | LastfmTrackGetInfo _ _ _ => ok (toptags ["dance"; "fun"] [])
  | _ => ConnectionFailed
  end.

(** MusicBrainz says House, Last.fm says Techno. *)
Definition two_genres (_ : list event) (r : request) : http_outcome :=
  match r with
  | MusicBrainzRecordingSearch _ _ => ok (recording (PStr ""))
  | MusicBrainzArtist _ => ok (genres ["House"])
  | LastfmTrackGetInfo _ _ _ => ok (toptags [] [("genre", PStr "Techno")])
  | _ => ConnectionFailed
  end.

(** The recording is found, the request for the artist's genres fails. *)
Definition genres_unreachable (_ : list event) (r : request) : http_outcome :=
  match r with
  | MusicBrainzRecordingSearch _ _ => ok (recording (PStr "2013"))
  | _ => ConnectionFailed
  end.

(** Every request fails. *)
Definition offline (_ : list event) (_ : request) : http_outcome :=
  ConnectionFailed.

(** MusicBrainz lists one genre, with an empty name; Last.fm says Techno. *)
Definition blank_genre (_ : list event) (r : request) : http_outcome :=
  match r with
  | MusicBrainzRecordingSearch _ _ => ok (recording (PStr ""))
  | MusicBrainzArtist _ => ok (genres [""])
  | LastfmTrackGetInfo _ _ _ => ok (toptags [] [("genre", PStr "Techno")])
  | _ => ConnectionFailed
  end.

(** MusicBrainz answers the search with status 302 and a payload. *)
Definition redirected (_ : list event) (r : request) : http_outcome :=
  match r with
  | MusicBrainzRecordingSearch _ _ =>
      Responded {| status_code := 302; json_body := Some (recording (PStr "2013")) |}
  | _ => ConnectionFailed
  end.

(** MusicBrainz gives the date of the recording as a number. *)
Definition numeric_date (_ : list event) (r : request) : http_outcome :=
  match r with
  | MusicBrainzRecordingSearch _ _ => ok (recording (PInt 2013))
  | MusicBrainzArtist _ => ok (genres ["Funk"])
  | _ => ConnectionFailed
  end.

(** A directory with no audio file. *)
Definition notes : list string := ["music/notes.txt"; "music/cover.jpg"].

End Examples.

(** * Properties *)

(** ** The mood classifier *)

Lemma first_mood_first (table : list (string * list string)) (text : string) :
  ∀ (i : nat) mood keywords,
    table !! i = Some (mood, keywords) →
    any_in keywords text = true →
    (∀ (j : nat) mood' keywords', (j < i)%nat →
       table !! j = Some (mood', keywords') → any_in keywords' text = false) →
    first_mood table text = Some mood.
Proof.
  induction table as [|[m kws] table IH]; intros i mood keywords Hi Hany Hbefore.
  - discriminate.
  - destruct i as [|i]; simpl in *.
    + injection Hi as -> ->. by rewrite Hany.
    + rewrite (Hbefore 0%nat m kws); [|lia|done].
      apply (IH i mood keywords); [done..|].
      intros j m' k' Hj Hlook. apply (Hbefore (S j) m' k'); [lia|done].
Qed.

Lemma first_mood_in_table (table : list (string * list string)) (text mood : string) :
  first_mood table text = Some mood → mood ∈ table.*1.
Proof.
  induction table as [|[m kws] table IH]; simpl; [done|].
  destruct (any_in kws text).
  - intros [= ->]. apply list_elem_of_here.
  - intros H. apply list_elem_of_further. auto.
Qed.

Lemma classify_mood_label (tags : list string) (genre : string) :
  classify_mood tags genre ∈ labels.
Proof.
  unfold classify_mood.
  destruct (first_mood _ _) as [mood|] eqn:E.
  - apply first_mood_in_table in E.
    revert E. unfold labels. simpl. rewrite !elem_of_cons. tauto.
  - unfold labels.
    repeat match goal with
           | |- context [if ?b then _ else _] => destruct b
           end; rewrite !elem_of_cons; tauto.
Qed.

Lemma labels_nonempty (s : string) : s ∈ labels → s ≠ "".
Proof.
  intros H ->. revert H. unfold labels.
  rewrite !elem_of_cons, elem_of_nil. intuition discriminate.
Qed.

Lemma lower_app s t : lower (s +:+ t) = lower s +:+ lower t.
Proof. induction s as [|c s IH]; simpl; [done|]. by rewrite IH. Qed.

Lemma lower_join l : lower (join " " l) = join " " (lower <$> l).
Proof.
  induction l as [|x l IH]; [done|].
  destruct l as [|y l]; [done|].
  change (join " " (x :: y :: l)) with (x +:+ " " +:+ join " " (y :: l)).
  rewrite !lower_app, IH. reflexivity.
Qed.

Lemma starts_with_sep k x r :
  spaceless k = true → k ≠ "" →
  starts_with k (x +:+ " " +:+ r) = starts_with k x.
Proof.
  revert x. induction k as [|a k IH]; intros x Hk Hne; [done|].
  simpl in Hk. apply andb_true_iff in Hk as [Ha Hk].
  destruct x as [|b x]; simpl.
  - apply negb_true_iff in Ha. by rewrite Ha.
  - destruct (Ascii.eqb a b); [|done].
    destruct k as [|a' k]; [done|]. by apply IH.
Qed.

Lemma is_substring_sep k x r :
  spaceless k = true → k ≠ "" →
  is_substring k (x +:+ " " +:+ r) = is_substring k x || is_substring k r.
Proof.
  intros Hk Hne. induction x as [|b x IH].
  - destruct k as [|a k]; [done|]. simpl in Hk.
    apply andb_true_iff in Hk as [Ha _]. apply negb_true_iff in Ha.
    change ("" +:+ " " +:+ r) with (String " " r).
    simpl. rewrite Ha. by destruct r.
  - change (String b x +:+ " " +:+ r) with (String b (x +:+ " " +:+ r)).
    change (is_substring k (String b (x +:+ " " +:+ r)))
      with (starts_with k (String b (x +:+ " " +:+ r))
            || is_substring k (x +:+ " " +:+ r)).
    change (is_substring k (String b x))
      with (starts_with k (String b x) || is_substring k x).
    rewrite IH.
    change (String b (x +:+ " " +:+ r)) with (String b x +:+ " " +:+ r).
    rewrite starts_with_sep by done. by rewrite orb_assoc.
Qed.

Lemma is_substring_join k l :
  spaceless k = true → k ≠ "" →
  is_substring k (join " " l) = existsb (is_substring k) l.
Proof.
  intros Hk Hne. induction l as [|x l IH].
  - by destruct k.
  - destruct l as [|y l].
    + simpl. by rewrite orb_false_r.
    + change (join " " (x :: y :: l)) with (x +:+ " " +:+ join " " (y :: l)).
      rewrite is_substring_sep by done. by rewrite IH.
Qed.

Lemma any_in_join keywords l :
  forallb (λ k, spaceless k && negb (String.eqb k "")) keywords = true →
  any_in keywords (lower (join " " l))
  = existsb (λ x, any_in keywords (lower x)) l.
Proof.
  intros Hk. unfold any_in. rewrite lower_join.
  induction keywords as [|k ks IH].
  - simpl. by induction l.
  - simpl in Hk. apply andb_true_iff in Hk as [Hk Hks].
    apply andb_true_iff in Hk as [Hs Hne].
    apply negb_true_iff, String.eqb_neq in Hne.
    simpl. rewrite IH by done. rewrite is_substring_join by done.
    clear. induction l as [|x l IHl]; [done|].
    simpl. rewrite <- IHl.
    destruct (is_substring k (lower x)), (existsb (λ keyword, is_substring keyword (lower x)) ks);
      simpl; rewrite ?orb_true_r; try done.
Qed.

Lemma mood_keywords_join mood keywords tags genre :
  (mood, keywords) ∈ mood_keywords →
  any_in keywords (lower (join " " (tags ++ [genre])))
  = existsb (λ x, any_in keywords (lower x)) (tags ++ [genre]).
Proof.
  unfold mood_keywords. rewrite !elem_of_cons, elem_of_nil.
  intros [H|[H|[H|[H|[H|[]]]]]]; injection H as -> ->;
    by apply any_in_join.
Qed.

(** C7: [classify_mood] is a function of its two arguments; the table
    lists energetic, chill, emotional, aggressive, groovy in that order;
    for every mood of the table one of whose keywords occurs in the
    lower-cased text joined from the tags and the genre, while no keyword
    of an earlier mood does, that mood is the result; a keyword of the
    table occurs in that text exactly when it occurs in one of the
    lower-cased tags or in the lower-cased genre (the spaces that join them
    neither make nor break an occurrence); and the tags metal, energetic
    with an empty genre give energetic. *)
Theorem classify_mood_first_match :
  mood_keywords.*1 = ["energetic"; "chill"; "emotional"; "aggressive"; "groovy"]
  ∧ (∀ mood keywords tags genre,
       (mood, keywords) ∈ mood_keywords →
       any_in keywords (lower (join " " (tags ++ [genre])))
       = existsb (λ x, any_in keywords (lower x)) (tags ++ [genre]))
  ∧ (∀ tags genre (i : nat) mood keywords,
       mood_keywords !! i = Some (mood, keywords) →
       any_in keywords (lower (join " " (tags ++ [genre]))) = true →
       (∀ (j : nat) mood' keywords', (j < i)%nat →
          mood_keywords !! j = Some (mood', keywords') →
          any_in keywords' (lower (join " " (tags ++ [genre]))) = false) →
       classify_mood tags genre = mood)
  ∧ classify_mood ["metal"; "energetic"] "" = "energetic".
Proof.
  split; [reflexivity|]. split; [apply mood_keywords_join|].
  split; [|reflexivity].
  intros tags genre i mood keywords Hi Hany Hbefore.
  unfold classify_mood.
  by rewrite (first_mood_first _ _ i mood keywords Hi Hany Hbefore).
Qed.

Lemma classify_mood_first_match_witness :
  any_in ["energetic"; "upbeat"; "fast"; "dance"; "electronic"; "house";
          "techno"; "trance"; "edm"]
    (lower (join " " (["Dance"; "fun"] ++ ["Funk"])))
  = existsb (λ x, any_in ["energetic"; "upbeat"; "fast"; "dance"; "electronic";
                          "house"; "techno"; "trance"; "edm"] (lower x))
      (["Dance"; "fun"] ++ ["Funk"])
  ∧ classify_mood ["metal"; "energetic"] "" = "energetic"
  ∧ classify_mood ["smooth"; "metal"] "Rock" = "chill".
Proof.
  split; [|split].
  - apply (proj1 (proj2 classify_mood_first_match) "energetic").
    apply list_elem_of_here.
  - apply (proj1 (proj2 (proj2 classify_mood_first_match))
             ["metal"; "energetic"] ""
             0%nat "energetic"
             ["energetic"; "upbeat"; "fast"; "dance"; "electronic"; "house";
              "techno"; "trance"; "edm"]).
    + reflexivity.
    + reflexivity.
    + intros j mood' keywords' Hj. lia.
  - apply (proj1 (proj2 (proj2 classify_mood_first_match))
             ["smooth"; "metal"] "Rock"
             1%nat "chill"
             ["chill"; "ambient"; "relaxed"; "downtempo"; "lounge"; "jazz";
              "smooth"; "calm"]).
    + reflexivity.
    + reflexivity.
    + intros j mood' keywords' Hj Hlook.
      destruct j as [|j]; [|lia].
      injection Hlook as <- <-. reflexivity.
Defined.

(** ** The monad *)

Lemma after_nil st : after st [] = st.
Proof. destruct st. unfold after. simpl. by rewrite app_nil_r. Qed.

Lemma after_after st evs evs' : after (after st evs) evs' = after st (evs ++ evs').
Proof. unfold after. simpl. by rewrite app_assoc. Qed.

Lemma emit_run ev st : emit ev st = (Ok (), after st [ev]).
Proof. reflexivity. Qed.

Lemma bind_ok {A B} (m : M A) (k : A → M B) st a st' :
  m st = (Ok a, st') → bind m k st = k a st'.
Proof. unfold bind. by intros ->. Qed.

Lemma bind_emit {B} ev (k : unit → M B) st :
  bind (emit ev) k st = k () (after st [ev]).
Proof. reflexivity. Qed.

Lemma bind_lift_ok {A B} (a : A) (k : A → M B) st :
  bind (lift (Ok a)) k st = k a st.
Proof. reflexivity. Qed.

Lemma bind_ok_inv {A B} (m : M A) (k : A → M B) st b st' :
  bind m k st = (Ok b, st') →
  ∃ a st1, m st = (Ok a, st1) ∧ k a st1 = (Ok b, st').
Proof.
  unfold bind. destruct (m st) as [[a|e] st1]; [eauto|discriminate].
Qed.

Lemma lift_ok_inv {A} (r : result A) st a st' :
  lift r st = (Ok a, st') → r = Ok a ∧ st' = st.
Proof. unfold lift. by intros [= -> ->]. Qed.

Lemma quiet_ret {A} (a : A) : quiet (ret a).
Proof. intros st. exists []. simpl. by rewrite after_nil. Qed.

Lemma quiet_raise {A} e : quiet (@raise A e).
Proof. intros st. exists []. simpl. by rewrite after_nil. Qed.

Lemma quiet_lift {A} (r : result A) : quiet (lift r).
Proof. intros st. exists []. simpl. by rewrite after_nil. Qed.

Lemma quiet_emit ev : quiet (emit ev).
Proof. intros st. by exists [ev]. Qed.

Lemma quiet_bind {A B} (m : M A) (k : A → M B) :
  quiet m → (∀ a, quiet (k a)) → quiet (bind m k).
Proof.
  intros Hm Hk st. unfold bind.
  destruct (Hm st) as [evs Hevs].
  destruct (m st) as [[a|e] st1]; simpl in Hevs; subst st1.
  - destruct (Hk a (after st evs)) as [evs' Hevs'].
    exists (evs ++ evs'). by rewrite Hevs', after_after.
  - by exists evs.
Qed.

Lemma quiet_try {A} (body : M A) (handler : exn → M A) :
  quiet body → (∀ e, quiet (handler e)) → quiet (try_except body handler).
Proof.
  intros Hm Hk st. unfold try_except.
  destruct (Hm st) as [evs Hevs].
  destruct (body st) as [[a|e] st1]; simpl in Hevs; subst st1.
  - by exists evs.
  - destruct (Hk e (after st evs)) as [evs' Hevs'].
    exists (evs ++ evs'). by rewrite Hevs', after_after.
Qed.

Lemma quiet_session_get world r : quiet (session_get world r).
Proof.
  intros st. unfold session_get.
  destruct (world (trace st) r); by exists [EvGet r].
Qed.

Lemma quiet_raise_for_status resp : quiet (raise_for_status resp).
Proof.
  unfold raise_for_status.
  destruct (_ && _); [apply quiet_raise|apply quiet_ret].
Qed.

Lemma quiet_response_json resp : quiet (response_json resp).
Proof.
  unfold response_json.
  destruct (json_body resp); [apply quiet_ret|apply quiet_raise].
Qed.

Ltac quiet_step :=
  first
    [ apply quiet_ret | apply quiet_raise | apply quiet_lift | apply quiet_emit
    | apply quiet_session_get | apply quiet_raise_for_status
    | apply quiet_response_json
    | apply quiet_bind; [|intros ?] | apply quiet_try; [|intros ?]
    | match goal with
      | |- quiet (if ?b then _ else _) => destruct b
      end ].

Lemma total_ret {A} (a : A) : total (ret a).
Proof. intros st. by exists a. Qed.

Lemma total_bind {A B} (m : M A) (k : A → M B) :
  total m → (∀ a, total (k a)) → total (bind m k).
Proof.
  intros Hm Hk st. unfold bind.
  destruct (Hm st) as [a Ha].
  destruct (m st) as [[a'|e] st1]; simpl in Ha; [|discriminate].
  apply Hk.
Qed.

Lemma total_emit ev : total (emit ev).
Proof. intros st. by exists (). Qed.

(** A [try] whose handler returns never raises, whatever its body does. *)
Lemma total_try {A} (body : M A) (handler : exn → M A) :
  (∀ e, total (handler e)) → total (try_except body handler).
Proof.
  intros Hk st. unfold try_except.
  destruct (body st) as [[a|e] st1]; [by exists a|apply Hk].
Qed.

Ltac total_handler :=
  intros ?; apply total_bind; [apply total_emit|intros ?; apply total_ret].

(** ** The source clients *)

Lemma get_musicbrainz_genres_quiet world artist_id :
  quiet (get_musicbrainz_genres world artist_id).
Proof. unfold get_musicbrainz_genres, rate_limit, log. repeat quiet_step. Qed.

Lemma search_musicbrainz_quiet world artist title :
  quiet (search_musicbrainz world artist title).
Proof.
  unfold search_musicbrainz, rate_limit, log.
  repeat first [apply get_musicbrainz_genres_quiet | quiet_step].
Qed.

Lemma search_lastfm_quiet world self artist title :
  quiet (search_lastfm world self artist title).
Proof. unfold search_lastfm, rate_limit, log. repeat quiet_step. Qed.

Lemma get_discogs_release_quiet world self release_id :
  quiet (get_discogs_release world self release_id).
Proof. unfold get_discogs_release, rate_limit, log. repeat quiet_step. Qed.

Lemma search_discogs_quiet world self artist title :
  quiet (search_discogs world self artist title).
Proof.
  unfold search_discogs, rate_limit, log.
  repeat first [apply get_discogs_release_quiet | quiet_step].
Qed.

Lemma search_musicbrainz_total world artist title :
  total (search_musicbrainz world artist title).
Proof. apply total_try. unfold log. total_handler. Qed.

Lemma search_lastfm_total world self artist title :
  total (search_lastfm world self artist title).
Proof.
  unfold search_lastfm. destruct (_ || _); [apply total_ret|].
  apply total_try. unfold log. total_handler.
Qed.

Lemma search_discogs_total world self artist title :
  total (search_discogs world self artist title).
Proof.
  unfold search_discogs. destruct (_ || _); [apply total_ret|].
  apply total_try. unfold log. total_handler.
Qed.

Lemma new_enricher_lastfm api_keys :
  lastfm_api_key (new_enricher api_keys)
  = default (PStr "") (credential api_keys "lastfm_api_key").
Proof.
  destruct api_keys as [d|]; simpl; [|done].
  destruct (Nat.eqb (size d) 0) eqn:E; simpl; [|done].
  apply Nat.eqb_eq, map_size_empty_inv in E. by subst d.
Qed.

Lemma new_enricher_discogs api_keys :
  discogs_token (new_enricher api_keys)
  = default (PStr "") (credential api_keys "discogs_token").
Proof.
  destruct api_keys as [d|]; simpl; [|done].
  destruct (Nat.eqb (size d) 0) eqn:E; simpl; [|done].
  apply Nat.eqb_eq, map_size_empty_inv in E. by subst d.
Qed.

(** C8: with the Last.fm key absent from the API keys, or equal to the
    placeholder, [search_lastfm] returns the empty dictionary and leaves
    the state as it was: no request, no event at all.  The same for
    [search_discogs] and the Discogs token. *)
Theorem search_without_credential world api_keys artist title st :
  (credential api_keys "lastfm_api_key" = None
   ∨ credential api_keys "lastfm_api_key" = Some (PStr "YOUR_LASTFM_API_KEY_HERE") →
   search_lastfm world (new_enricher api_keys) artist title st = (Ok ∅, st))
  ∧ (credential api_keys "discogs_token" = None
     ∨ credential api_keys "discogs_token" = Some (PStr "YOUR_DISCOGS_TOKEN_HERE") →
     search_discogs world (new_enricher api_keys) artist title st = (Ok ∅, st)).
Proof.
  split; intros H.
  - unfold search_lastfm. rewrite new_enricher_lastfm.
    destruct H as [-> | ->]; reflexivity.
  - unfold search_discogs. rewrite new_enricher_discogs.
    destruct H as [-> | ->]; reflexivity.
Qed.

Lemma search_without_credential_witness :
  search_lastfm Examples.scenario (new_enricher None)
    (PStr "Daft Punk") (PStr "Get Lucky") (Examples.disk Examples.daft)
  = (Ok ∅, Examples.disk Examples.daft)
  ∧ search_discogs Examples.scenario
      (new_enricher (Some {[ "discogs_token" := PStr "YOUR_DISCOGS_TOKEN_HERE" ]}))
      (PStr "Daft Punk") (PStr "Get Lucky") (Examples.disk Examples.daft)
    = (Ok ∅, Examples.disk Examples.daft).
Proof.
  split.
  - apply (proj1 (search_without_credential Examples.scenario None
                    (PStr "Daft Punk") (PStr "Get Lucky")
                    (Examples.disk Examples.daft))).
    left. reflexivity.
  - apply (proj2 (search_without_credential Examples.scenario
                    (Some {[ "discogs_token" := PStr "YOUR_DISCOGS_TOKEN_HERE" ]})
                    (PStr "Daft Punk") (PStr "Get Lucky")
                    (Examples.disk Examples.daft))).
    right. reflexivity.
Defined.

(** A failed request ends the statements that send it, check the status
    and decode the body in the exception of the failure. *)
Lemma fetch_fails {A} world r (k : pyval → M A) st :
  failed (world (trace st) r) = true →
  (let* response := session_get world r in
   raise_for_status response ;;;
   let* data := response_json response in
   k data) st
  = (Raise (failure (world (trace st) r)), after st [EvGet r]).
Proof.
  unfold bind at 1. unfold session_get.
  destruct (world (trace st) r) as [|[code body]] eqn:E; simpl; [done|].
  unfold bind, raise_for_status, response_json, emit; simpl.
  destruct (_ && _); simpl; [done|].
  destruct body; simpl; [discriminate|done].
Qed.

Lemma search_musicbrainz_fails world artist title st :
  let r := MusicBrainzRecordingSearch (strip (remove_quotes artist))
             (strip (remove_quotes title)) in
  let o := world (trace st ++ [EvRateLimit]) r in
  failed o = true →
  search_musicbrainz world (PStr artist) (PStr title) st
  = (Ok ∅, after st [EvRateLimit; EvGet r;
                     EvLog WARNING
                       (MsgMusicBrainzFailed (PStr artist) (PStr title) (failure o))]).
Proof.
  intros r o Hfail. unfold search_musicbrainz, try_except, rate_limit.
  rewrite bind_emit. simpl py_clean. rewrite !bind_lift_ok.
  rewrite fetch_fails by done.
  unfold log. rewrite bind_emit. simpl. by rewrite !after_after.
Qed.

Lemma search_lastfm_fails world self artist title st :
  let r := LastfmTrackGetInfo artist title (lastfm_api_key self) in
  let o := world (trace st ++ [EvRateLimit]) r in
  negb (truthy (lastfm_api_key self))
    || py_eq_str (lastfm_api_key self) "YOUR_LASTFM_API_KEY_HERE" = false →
  failed o = true →
  search_lastfm world self artist title st
  = (Ok ∅, after st [EvRateLimit; EvGet r;
                     EvLog WARNING (MsgLastfmFailed artist title (failure o))]).
Proof.
  intros r o Hkey Hfail. unfold search_lastfm, try_except. rewrite Hkey.
  unfold rate_limit. rewrite bind_emit.
  rewrite fetch_fails by done.
  unfold log. rewrite bind_emit. simpl. by rewrite !after_after.
Qed.

Lemma search_discogs_fails world self artist title st :
  let r := DiscogsSearch artist title (discogs_token self) in
  let o := world (trace st ++ [EvRateLimit]) r in
  negb (truthy (discogs_token self))
    || py_eq_str (discogs_token self) "YOUR_DISCOGS_TOKEN_HERE" = false →
  failed o = true →
  search_discogs world self artist title st
  = (Ok ∅, after st [EvRateLimit; EvGet r;
                     EvLog WARNING (MsgDiscogsFailed artist title (failure o))]).
Proof.
  intros r o Hkey Hfail. unfold search_discogs, try_except. rewrite Hkey.
  unfold rate_limit. rewrite bind_emit.
  rewrite fetch_fails by done.
  unfold log. rewrite bind_emit. simpl. by rewrite !after_after.
Qed.

Lemma get_musicbrainz_genres_fails world artist_id st :
  let r := MusicBrainzArtist artist_id in
  let o := world (trace st ++ [EvRateLimit]) r in
  failed o = true →
  get_musicbrainz_genres world artist_id st
  = (Ok (PList []), after st [EvRateLimit; EvGet r;
                              EvLog WARNING (MsgGenresFailed artist_id (failure o))]).
Proof.
  intros r o Hfail. unfold get_musicbrainz_genres, try_except.
  unfold rate_limit. rewrite bind_emit.
  rewrite fetch_fails by done.
  unfold log. rewrite bind_emit. simpl. by rewrite !after_after.
Qed.

Lemma get_discogs_release_fails world self release_id st :
  let r := DiscogsRelease release_id (discogs_token self) in
  let o := world (trace st ++ [EvRateLimit]) r in
  failed o = true →
  get_discogs_release world self release_id st
  = (Ok (PDict ∅),
     after st [EvRateLimit; EvGet r;
               EvLog WARNING (MsgDiscogsReleaseFailed release_id (failure o))]).
Proof.
  intros r o Hfail. unfold get_discogs_release, try_except, rate_limit.
  rewrite bind_emit. unfold bind at 1, session_get.
  change (trace (after st [EvRateLimit])) with (trace st ++ [EvRateLimit]).
  fold r. fold o. unfold failure.
  destruct o as [|[code body]]; simpl in *.
  - unfold bind, log, emit, ret, after; simpl. by rewrite <- !app_assoc.
  - unfold bind, raise_for_status, response_json, emit, log, ret, after; simpl.
    destruct (_ && _); simpl; [by rewrite <- !app_assoc|].
    destruct body; simpl; [discriminate|by rewrite <- !app_assoc].
Qed.

Lemma total_run {A} (m : M A) st : total m → ∃ a st', m st = (Ok a, st').
Proof.
  intros H. destruct (H st) as [a Ha].
  exists a, (m st).2. destruct (m st). simpl in Ha. by subst.
Qed.

(** C6 (amended): the three clients never raise, whatever the services
    answer.  When the search request of a client fails (no response, a 4xx
    or 5xx status, or a body that is not JSON) the client returns the
    empty dictionary after logging one warning.  When the second request
    of a client fails (the genres of the artist at MusicBrainz, the
    release at Discogs) it is caught where it is sent, logged as a warning,
    and replaced by an empty list of genres, or an empty release.  An
    empty result changes nothing in the accumulator of [process_file] and
    raises nothing there. *)
Theorem clients_catch_failures world self artist title st :
  (∃ d st', search_musicbrainz world artist title st = (Ok d, st'))
  ∧ (∃ d st', search_lastfm world self artist title st = (Ok d, st'))
  ∧ (∃ d st', search_discogs world self artist title st = (Ok d, st'))
  ∧ (∀ a t, artist = PStr a → title = PStr t →
       let r := MusicBrainzRecordingSearch (strip (remove_quotes a))
                  (strip (remove_quotes t)) in
       let o := world (trace st ++ [EvRateLimit]) r in
       failed o = true →
       search_musicbrainz world artist title st
       = (Ok ∅, after st [EvRateLimit; EvGet r;
                          EvLog WARNING (MsgMusicBrainzFailed artist title (failure o))]))
  ∧ (let r := LastfmTrackGetInfo artist title (lastfm_api_key self) in
     let o := world (trace st ++ [EvRateLimit]) r in
     negb (truthy (lastfm_api_key self))
       || py_eq_str (lastfm_api_key self) "YOUR_LASTFM_API_KEY_HERE" = false →
     failed o = true →
     search_lastfm world self artist title st
     = (Ok ∅, after st [EvRateLimit; EvGet r;
                        EvLog WARNING (MsgLastfmFailed artist title (failure o))]))
  ∧ (let r := DiscogsSearch artist title (discogs_token self) in
     let o := world (trace st ++ [EvRateLimit]) r in
     negb (truthy (discogs_token self))
       || py_eq_str (discogs_token self) "YOUR_DISCOGS_TOKEN_HERE" = false →
     failed o = true →
     search_discogs world self artist title st
     = (Ok ∅, after st [EvRateLimit; EvGet r;
                        EvLog WARNING (MsgDiscogsFailed artist title (failure o))]))
  ∧ (∀ artist_id,
       let r := MusicBrainzArtist artist_id in
       let o := world (trace st ++ [EvRateLimit]) r in
       failed o = true →
       get_musicbrainz_genres world artist_id st
       = (Ok (PList []),
          after st [EvRateLimit; EvGet r;
                    EvLog WARNING (MsgGenresFailed artist_id (failure o))]))
  ∧ (∀ release_id,
       let r := DiscogsRelease release_id (discogs_token self) in
       let o := world (trace st ++ [EvRateLimit]) r in
       failed o = true →
       get_discogs_release world self release_id st
       = (Ok (PDict ∅),
          after st [EvRateLimit; EvGet r;
                    EvLog WARNING (MsgDiscogsReleaseFailed release_id (failure o))]))
  ∧ (∀ py_str missing a,
       merge_musicbrainz missing ∅ a = Ok a
       ∧ merge_lastfm missing ∅ a = Ok a
       ∧ merge_discogs py_str missing ∅ a = Ok a).
Proof.
  repeat split.
  - apply total_run, search_musicbrainz_total.
  - apply total_run, search_lastfm_total.
  - apply total_run, search_discogs_total.
  - intros a t -> ->. apply search_musicbrainz_fails.
  - apply search_lastfm_fails.
  - apply search_discogs_fails.
  - intros artist_id. apply get_musicbrainz_genres_fails.
  - intros release_id. apply get_discogs_release_fails.
Qed.

Lemma clients_catch_failures_witness :
  let st := Examples.disk Examples.daft in
  let artist := PStr "Daft Punk" in
  let title := PStr "Get Lucky" in
  search_musicbrainz Examples.offline artist title st
  = (Ok ∅, after st [EvRateLimit;
                     EvGet (MusicBrainzRecordingSearch "Daft Punk" "Get Lucky");
                     EvLog WARNING (MsgMusicBrainzFailed artist title ConnectionError)])
  ∧ search_lastfm Examples.offline Examples.keys artist title st
    = (Ok ∅, after st [EvRateLimit;
                       EvGet (LastfmTrackGetInfo artist title (PStr "k1"));
                       EvLog WARNING (MsgLastfmFailed artist title ConnectionError)])
  ∧ search_discogs Examples.offline Examples.keys artist title st
    = (Ok ∅, after st [EvRateLimit;
                       EvGet (DiscogsSearch artist title (PStr "t1"));
                       EvLog WARNING (MsgDiscogsFailed artist title ConnectionError)])
  ∧ get_musicbrainz_genres Examples.offline (PStr "056e4f3e") st
    = (Ok (PList []),
       after st [EvRateLimit; EvGet (MusicBrainzArtist (PStr "056e4f3e"));
                 EvLog WARNING (MsgGenresFailed (PStr "056e4f3e") ConnectionError)])
  ∧ get_discogs_release Examples.offline Examples.keys (PInt 42) st
    = (Ok (PDict ∅),
       after st [EvRateLimit; EvGet (DiscogsRelease (PInt 42) (PStr "t1"));
                 EvLog WARNING (MsgDiscogsReleaseFailed (PInt 42) ConnectionError)]).
Proof.
  intros st artist title.
  pose proof (clients_catch_failures Examples.offline Examples.keys
                artist title st)
    as (_ & _ & _ & Hmb & Hlfm & Hdg & Hgenres & Hrelease & _).
  split; [|split; [|split; [|split]]].
  - apply (Hmb "Daft Punk" "Get Lucky"); reflexivity.
  - apply Hlfm; reflexivity.
  - apply Hdg; reflexivity.
  - apply (Hgenres (PStr "056e4f3e")); reflexivity.
  - apply (Hrelease (PInt 42)); reflexivity.
Defined.

(** C6, as stated, fails: the recording is found and the request for the
    artist's genres ends in a transport error; the error is caught, and
    the client returns the recording's title, artist and date with an empty
    list of genres, not an empty result. *)
Lemma transport_error_partial_result :
  let run := search_musicbrainz Examples.genres_unreachable
               (PStr "Daft Punk") (PStr "Get Lucky")
               (Examples.disk Examples.daft) in
  run.1 = Ok (list_to_map [("title", PStr "Get Lucky");
                           ("artist", PStr "Daft Punk");
                           ("date", PStr "2013"); ("genre", PList [])])
  ∧ trace run.2
    = [EvRateLimit; EvGet (MusicBrainzRecordingSearch "Daft Punk" "Get Lucky");
       EvRateLimit; EvGet (MusicBrainzArtist (PStr "056e4f3e"));
       EvLog WARNING (MsgGenresFailed (PStr "056e4f3e") ConnectionError)]
  ∧ Examples.genres_unreachable
      [EvRateLimit; EvGet (MusicBrainzRecordingSearch "Daft Punk" "Get Lucky");
       EvRateLimit]
      (MusicBrainzArtist (PStr "056e4f3e")) = ConnectionFailed
  ∧ dict_truthy <$> value run.1 = Some true.
Proof.
  split; [vm_compute; reflexivity|].
  split; [vm_compute; reflexivity|].
  split; [reflexivity|].
  vm_compute. reflexivity.
Qed.

(** ** Reading the tags *)

Lemma extract_metadata_eq file_path st :
  extract_metadata file_path st
  = (Ok (existing (files st) file_path),
     after st (EvFile file_path ::
               match files st !! file_path with
               | Some _ => []
               | None => [EvLog ERROR (MsgExtractError file_path MutagenError)]
               end)).
Proof.
  unfold extract_metadata, try_except, File, existing, bind, log, emit, ret, after.
  simpl. destruct (files st !! file_path); simpl; [done|].
  by rewrite <- app_assoc.
Qed.

Lemma requests_app evs evs' : requests (evs ++ evs') = requests evs ++ requests evs'.
Proof. unfold requests. apply filter_app. Qed.

Lemma extract_metadata_requests file_path (o : option audio) :
  requests (EvFile file_path ::
            match o with
            | Some _ => []
            | None => [EvLog ERROR (MsgExtractError file_path MutagenError)]
            end) = [].
Proof. by destruct o. Qed.

(** ** Files without artist or title *)

(** C1 (amended): for every file whose extracted artist or title is
    empty, [process_file] sends no request and returns a record whose
    status is missing_info when at least one of genre, date and mood is
    empty, and complete when none is. *)
Theorem process_file_without_artist_or_title
    world py_str self file_path st existing_metadata :
  (extract_metadata file_path st).1 = Ok existing_metadata →
  truthy (default (PStr "") (existing_metadata !! "artist")) = false
  ∨ truthy (default (PStr "") (existing_metadata !! "title")) = false →
  ∃ o evs,
    process_file world py_str self file_path st = (Ok o, after st evs)
    ∧ requests evs = []
    ∧ status o = (if decide (missing_fields_of existing_metadata = [])
                  then "complete" else "missing_info").
Proof.
  rewrite extract_metadata_eq. simpl. intros [= <-] Hempty.
  unfold process_file, log. rewrite bind_emit.
  rewrite (bind_ok _ _ _ _ _ (extract_metadata_eq _ _)).
  change (files (after st _)) with (files st).
  destruct (missing_fields_of (existing (files st) file_path)) as [|f fs] eqn:E.
  - rewrite bind_emit. simpl. rewrite !after_after.
    eexists _, _. split; [reflexivity|]. split; [|done].
    rewrite !requests_app, extract_metadata_requests. reflexivity.
  - assert (Hcond : negb (truthy (default (PStr "") (existing (files st) file_path !! "artist")))
                    || negb (truthy (default (PStr "") (existing (files st) file_path !! "title")))
                    = true).
    { destruct Hempty as [-> | ->]; [done|apply orb_true_r]. }
    rewrite Hcond. rewrite bind_emit. simpl. rewrite !after_after.
    eexists _, _. split; [reflexivity|]. split; [|done].
    rewrite !requests_app, extract_metadata_requests. reflexivity.
Qed.

Lemma process_file_without_artist_or_title_witness :
  ∃ o evs,
    process_file Examples.scenario Examples.str Examples.keys "music/a.mp3"
      (Examples.disk Examples.anonymous)
    = (Ok o, after (Examples.disk Examples.anonymous) evs)
    ∧ requests evs = []
    ∧ status o = "missing_info".
Proof.
  apply (process_file_without_artist_or_title Examples.scenario Examples.str
           Examples.keys "music/a.mp3" (Examples.disk Examples.anonymous)
           (tag_metadata Examples.anonymous)).
  - reflexivity.
  - left. reflexivity.
Defined.

(** C1, as stated, fails: a file with genre, date and mood but no artist
    is reported complete, not missing_info. *)
Lemma empty_artist_complete :
  let st := Examples.disk Examples.tagged in
  (extract_metadata "music/a.mp3" st).1 = Ok (tag_metadata Examples.tagged)
  ∧ tag_metadata Examples.tagged !! "artist" = Some (PStr "")
  ∧ status <$> value (process_file Examples.scenario Examples.str Examples.keys
                        "music/a.mp3" st).1
    = Some "complete".
Proof.
  split; [vm_compute; reflexivity|].
  split; vm_compute; reflexivity.
Qed.

(** ** The statements of the search *)

Lemma dict_falsy (d : gmap string pyval) : dict_truthy d = false → d = ∅.
Proof.
  unfold dict_truthy. simpl. intros H. apply negb_false_iff, Nat.eqb_eq in H.
  by apply map_size_empty_inv.
Qed.

Lemma dict_item_ok (d : gmap string pyval) k x :
  dict_item d k = Ok x → d !! k = Some x ∧ dict_get d k = x.
Proof.
  unfold dict_item, dict_get. destruct (d !! k); [|discriminate].
  by intros [= ->].
Qed.

Lemma py_slice_truthy n v y :
  truthy v = true → py_slice (S n) v = Ok y → truthy y = true.
Proof.
  destruct v as [| | | |s|l|]; simpl; try discriminate.
  - intros H [= <-]. by destruct s.
  - intros H [= <-]. by destruct l.
Qed.

Lemma py_classify_mood_label tags genre v :
  py_classify_mood tags genre = Ok v → ∃ s, v = PStr s ∧ s ∈ labels.
Proof.
  unfold py_classify_mood.
  destruct tags; try discriminate. destruct genre; try discriminate.
  destruct (all_str l); [|discriminate].
  intros [= <-]. eexists. split; [done|]. apply classify_mood_label.
Qed.

Lemma keys_in_insert missing nm k v :
  is_missing k missing = true → keys_in missing nm →
  keys_in missing (<[k := v]> nm).
Proof.
  intros Hk Hnm k'. destruct (decide (k = k')) as [<-|Hne]; [done|].
  rewrite lookup_insert_ne by done. apply Hnm.
Qed.

Lemma unfilled_insert nm k v : truthy v = false → unfilled (<[k := v]> nm) k.
Proof. intros Hv. unfold unfilled, dict_get. by rewrite lookup_insert_eq. Qed.

Lemma filled_insert nm k v : truthy v = true → filled (<[k := v]> nm) k v.
Proof. intros Hv. split; [apply lookup_insert_eq|done]. Qed.

Lemma filled_truthy nm k v : filled nm k v → truthy (dict_get nm k) = true.
Proof. unfold dict_get. by intros [-> Hv]. Qed.

(** Opening one statement: its condition held and it assigned, or it did
    nothing. *)
Ltac stmt H :=
  unfold musicbrainz_genre, musicbrainz_year, lastfm_genre, lastfm_year,
    lastfm_mood, discogs_year, discogs_genre, mood_from_genre in H;
  let Hcond := fresh "Hcond" in
  match type of H with
  | (if ?b then _ else _) = _ => destruct b eqn:Hcond
  end;
  [ rewrite ?andb_true_iff, ?negb_true_iff in Hcond;
    repeat match type of H with
           | rbind ?r _ = _ =>
               let E := fresh "E" in
               destruct r eqn:E; cbn [rbind] in H; [|discriminate H]
           end;
    injection H as <-
  | rewrite ?andb_false_iff, ?negb_false_iff in Hcond;
    injection H as <- ].

Lemma frame_same field missing a : frame field missing a a.
Proof. by repeat split. Qed.

Lemma frame_insert field missing (a : acc) v fg :
  is_missing field missing = true →
  (field = "mood" → ∃ s, v = PStr s ∧ s ∈ labels) →
  (if decide (field = "genre") then fg = v else fg = a.2) →
  frame field missing a (<[field := v]> a.1, fg).
Proof.
  intros Hmiss Hmood Hfg. repeat split; simpl.
  - by apply keys_in_insert.
  - intros Ha w. destruct (decide (field = "mood")) as [->|Hne].
    + rewrite lookup_insert_eq. intros [= <-]. by apply Hmood.
    + rewrite lookup_insert_ne by done. apply Ha.
  - unfold genre_found. simpl. destruct (decide (field = "genre")) as [->|Hne].
    + subst fg. intros _. by rewrite lookup_insert_eq.
    + subst fg. rewrite lookup_insert_ne by done. auto.
  - intros k Hk. by rewrite lookup_insert_ne.
Qed.

Ltac frame_stmt H :=
  stmt H; [|apply frame_same];
  apply frame_insert;
  [ tauto
  | first [discriminate | intros _; eapply py_classify_mood_label; eassumption]
  | reflexivity ].

Lemma musicbrainz_genre_frame missing mb a a' :
  musicbrainz_genre missing mb a = Ok a' → frame "genre" missing a a'.
Proof. intros H. frame_stmt H. Qed.

Lemma musicbrainz_year_frame missing mb a a' :
  musicbrainz_year missing mb a = Ok a' → frame "year" missing a a'.
Proof. intros H. frame_stmt H. Qed.

Lemma lastfm_genre_frame missing lfm a a' :
  lastfm_genre missing lfm a = Ok a' → frame "genre" missing a a'.
Proof. intros H. frame_stmt H. Qed.

Lemma lastfm_year_frame missing lfm a a' :
  lastfm_year missing lfm a = Ok a' → frame "year" missing a a'.
Proof. intros H. frame_stmt H. Qed.

Lemma lastfm_mood_frame missing lfm a a' :
  lastfm_mood missing lfm a = Ok a' → frame "mood" missing a a'.
Proof. intros H. frame_stmt H. Qed.

Lemma discogs_year_frame py_str missing dg a a' :
  discogs_year py_str missing dg a = Ok a' → frame "year" missing a a'.
Proof. intros H. frame_stmt H. Qed.

Lemma discogs_genre_frame missing dg a a' :
  discogs_genre missing dg a = Ok a' → frame "genre" missing a a'.
Proof. intros H. frame_stmt H. Qed.

Lemma mood_from_genre_frame missing a a' :
  mood_from_genre missing a = Ok a' → frame "mood" missing a a'.
Proof. intros H. frame_stmt H. Qed.

(** Opening a merge: the statements it ran, in order. *)
Ltac merge H :=
  unfold merge_musicbrainz, merge_lastfm, merge_discogs in H;
  let Hdata := fresh "Hdata" in
  match type of H with
  | (if ?b then _ else _) = _ => destruct b eqn:Hdata
  end;
  [ repeat match type of H with
           | rbind ?r _ = _ =>
               let a := fresh "a" in
               let E := fresh "E" in
               destruct r as [a|] eqn:E; cbn [rbind] in H; [|discriminate H]
           end
  | apply dict_falsy in Hdata; injection H as <- ].

(** Keys, mood and found genre after the three merges. *)
Lemma merge_steps_keys py_str missing mb lfm dg a1 a2 a3 :
  merge_musicbrainz missing mb (∅, PStr "") = Ok a1 →
  merge_lastfm missing lfm a1 = Ok a2 →
  merge_discogs py_str missing dg a2 = Ok a3 →
  keys_in missing a3.1 ∧ mood_label a3.1 ∧ genre_found a3.
Proof.
  intros H1 H2 H3.
  assert (I0 : keys_in missing (∅ : gmap string pyval)
               ∧ mood_label (∅ : gmap string pyval)
               ∧ genre_found (∅, PStr "")).
  { split; [|split]; [intros k [x Hx]|intros v Hv|intros Hfg];
      [by rewrite lookup_empty in *..|discriminate]. }
  assert (I1 : keys_in missing a1.1 ∧ mood_label a1.1 ∧ genre_found a1).
  { merge H1; [|done].
    apply musicbrainz_genre_frame in E as (? & ? & ? & _).
    apply musicbrainz_year_frame in H1 as (? & ? & ? & _). simpl in *. tauto. }
  assert (I2 : keys_in missing a2.1 ∧ mood_label a2.1 ∧ genre_found a2).
  { merge H2; [|done].
    apply lastfm_genre_frame in E as (? & ? & ? & _).
    apply lastfm_year_frame in E0 as (? & ? & ? & _).
    apply lastfm_mood_frame in H2 as (? & ? & ? & _). tauto. }
  merge H3; [|done].
  apply discogs_year_frame in E as (? & ? & ? & _).
  apply discogs_genre_frame in H3 as (? & ? & ? & _). tauto.
Qed.

(** ** What each source contributes to a field *)

Lemma offer_musicbrainz_empty field : offer_musicbrainz ∅ field = None.
Proof.
  unfold offer_musicbrainz, dict_get. rewrite !lookup_empty.
  repeat case_decide; reflexivity.
Qed.

Lemma offer_lastfm_empty field : offer_lastfm ∅ field = None.
Proof.
  unfold offer_lastfm, dict_get. rewrite !lookup_empty.
  repeat case_decide; reflexivity.
Qed.

Lemma offer_discogs_empty py_str field : offer_discogs py_str ∅ field = None.
Proof.
  unfold offer_discogs, dict_get. rewrite !lookup_empty.
  repeat case_decide; reflexivity.
Qed.

Lemma nonempty_some r v : nonempty r = Some v → r = Ok v ∧ truthy v = true.
Proof.
  unfold nonempty. destruct r as [x|]; [|discriminate].
  destruct (truthy x) eqn:E; [|discriminate]. by intros [= <-].
Qed.

Lemma nonempty_none v : nonempty (Ok v) = None → truthy v = false.
Proof. unfold nonempty. by destruct (truthy v). Qed.

Ltac open_offer Ho :=
  unfold offer_musicbrainz, offer_lastfm, offer_discogs in Ho;
  repeat first [ rewrite decide_True in Ho by done
               | rewrite decide_False in Ho by done ];
  cbv zeta in Ho.

Lemma musicbrainz_genre_take missing mb a a' v :
  musicbrainz_genre missing mb a = Ok a' →
  is_missing "genre" missing = true →
  offer_musicbrainz mb "genre" = Some v →
  filled a'.1 "genre" v.
Proof.
  intros H Hmiss Ho. open_offer Ho.
  apply nonempty_some in Ho as [Ho Hv].
  stmt H.
  - apply dict_item_ok in E as [_ E]. rewrite E in Ho.
    rewrite Ho in E0. injection E0 as <-. by apply filled_insert.
  - exfalso. destruct Hcond as [Hc|Hc]; [congruence|].
    destruct (dict_get mb "genre") as [| | | | |l|]; simpl in *;
      try (injection Ho as <-; simpl in *; congruence).
    destruct l; simpl in *; discriminate.
Qed.

Lemma musicbrainz_genre_skip missing mb a a' :
  musicbrainz_genre missing mb a = Ok a' →
  offer_musicbrainz mb "genre" = None →
  unfilled a.1 "genre" → unfilled a'.1 "genre".
Proof.
  intros H Ho Ha. open_offer Ho.
  stmt H; [|done].
  apply dict_item_ok in E as [_ E]. rewrite E in Ho. rewrite E0 in Ho.
  apply nonempty_none in Ho. by apply unfilled_insert.
Qed.

Lemma musicbrainz_year_take missing mb a a' v :
  musicbrainz_year missing mb a = Ok a' →
  is_missing "year" missing = true →
  offer_musicbrainz mb "year" = Some v →
  filled a'.1 "year" v.
Proof.
  intros H Hmiss Ho. open_offer Ho.
  apply nonempty_some in Ho as [Ho Hv].
  stmt H.
  - apply dict_item_ok in E as [_ E]. rewrite E in Ho.
    rewrite Ho in E0. injection E0 as <-. by apply filled_insert.
  - exfalso. destruct Hcond as [Hc|Hc]; [congruence|].
    destruct (dict_get mb "date") as [| | | |s|l|]; simpl in *; try discriminate.
    + injection Ho as <-. destruct s; simpl in *; discriminate.
    + injection Ho as <-. destruct l; simpl in *; discriminate.
Qed.

Lemma musicbrainz_year_skip missing mb a a' :
  musicbrainz_year missing mb a = Ok a' →
  offer_musicbrainz mb "year" = None →
  unfilled a.1 "year" → unfilled a'.1 "year".
Proof.
  intros H Ho Ha. open_offer Ho.
  stmt H; [|done].
  apply dict_item_ok in E as [_ E]. rewrite E in Ho. rewrite E0 in Ho.
  apply nonempty_none in Ho. by apply unfilled_insert.
Qed.

(** A guarded statement does nothing on a field that is filled. *)
Ltac stmt_keep H Hfilled :=
  stmt H; [|done];
  exfalso; apply filled_truthy in Hfilled; intuition congruence.

Lemma lastfm_genre_keep missing lfm a a' v :
  lastfm_genre missing lfm a = Ok a' → filled a.1 "genre" v → a' = a.
Proof. intros H Hf. stmt_keep H Hf. Qed.

Lemma lastfm_year_keep missing lfm a a' v :
  lastfm_year missing lfm a = Ok a' → filled a.1 "year" v → a' = a.
Proof. intros H Hf. stmt_keep H Hf. Qed.

Lemma discogs_year_keep py_str missing dg a a' v :
  discogs_year py_str missing dg a = Ok a' → filled a.1 "year" v → a' = a.
Proof. intros H Hf. stmt_keep H Hf. Qed.

Lemma discogs_genre_keep missing dg a a' v :
  discogs_genre missing dg a = Ok a' → filled a.1 "genre" v → a' = a.
Proof. intros H Hf. stmt_keep H Hf. Qed.

Lemma mood_from_genre_keep missing a a' v :
  mood_from_genre missing a = Ok a' → filled a.1 "mood" v → a' = a.
Proof. intros H Hf. stmt_keep H Hf. Qed.

Lemma lastfm_genre_take missing lfm a a' v :
  lastfm_genre missing lfm a = Ok a' →
  is_missing "genre" missing = true → unfilled a.1 "genre" →
  offer_lastfm lfm "genre" = Some v →
  filled a'.1 "genre" v.
Proof.
  intros H Hmiss Ha Ho. open_offer Ho.
  apply nonempty_some in Ho as [[= Ho] Hv].
  stmt H.
  - apply dict_item_ok in E as [_ E]. rewrite E in Ho. subst. by apply filled_insert.
  - exfalso. unfold unfilled in Ha. rewrite Ho in Hcond. intuition congruence.
Qed.

Lemma lastfm_genre_skip missing lfm a a' :
  lastfm_genre missing lfm a = Ok a' →
  offer_lastfm lfm "genre" = None →
  unfilled a.1 "genre" → unfilled a'.1 "genre".
Proof.
  intros H Ho Ha. open_offer Ho.
  apply nonempty_none in Ho.
  stmt H; [|done]. exfalso. intuition congruence.
Qed.

Lemma lastfm_year_take missing lfm a a' v :
  lastfm_year missing lfm a = Ok a' →
  is_missing "year" missing = true → unfilled a.1 "year" →
  offer_lastfm lfm "year" = Some v →
  filled a'.1 "year" v.
Proof.
  intros H Hmiss Ha Ho. open_offer Ho.
  apply nonempty_some in Ho as [[= Ho] Hv].
  stmt H.
  - apply dict_item_ok in E as [_ E]. rewrite E in Ho. subst. by apply filled_insert.
  - exfalso. unfold unfilled in Ha. rewrite Ho in Hcond. intuition congruence.
Qed.

Lemma lastfm_year_skip missing lfm a a' :
  lastfm_year missing lfm a = Ok a' →
  offer_lastfm lfm "year" = None →
  unfilled a.1 "year" → unfilled a'.1 "year".
Proof.
  intros H Ho Ha. open_offer Ho.
  apply nonempty_none in Ho.
  stmt H; [|done]. exfalso. intuition congruence.
Qed.

Lemma discogs_year_take py_str missing dg a a' v :
  discogs_year py_str missing dg a = Ok a' →
  is_missing "year" missing = true → unfilled a.1 "year" →
  offer_discogs py_str dg "year" = Some v →
  a'.1 !! "year" = Some v.
Proof.
  intros H Hmiss Ha Ho. open_offer Ho.
  destruct (truthy (dict_get dg "year")) eqn:Hy; [|discriminate].
  injection Ho as <-.
  stmt H.
  - apply dict_item_ok in E as [_ ->]. simpl. apply lookup_insert_eq.
  - exfalso. unfold unfilled in Ha. intuition congruence.
Qed.

Lemma discogs_genre_take py_str missing dg a a' v :
  discogs_genre missing dg a = Ok a' →
  is_missing "genre" missing = true → unfilled a.1 "genre" →
  offer_discogs py_str dg "genre" = Some v →
  a'.1 !! "genre" = Some v.
Proof.
  intros H Hmiss Ha Ho. open_offer Ho.
  destruct (truthy (dict_get dg "genre")) eqn:Hg; [|discriminate].
  apply nonempty_some in Ho as [Ho Hv].
  stmt H.
  - apply dict_item_ok in E as [_ E]. rewrite E in Hg, Ho. rewrite Hg in E0.
    rewrite Ho in E0. injection E0 as <-. simpl. apply lookup_insert_eq.
  - exfalso. unfold unfilled in Ha. intuition congruence.
Qed.

(** ** What each merge contributes to genre and year *)

Lemma filled_same nm nm' k v : nm' !! k = nm !! k → filled nm k v → filled nm' k v.
Proof. unfold filled. by intros ->. Qed.

Lemma unfilled_same nm nm' k : nm' !! k = nm !! k → unfilled nm k → unfilled nm' k.
Proof. unfold unfilled, dict_get. by intros ->. Qed.

Lemma unfilled_empty k : unfilled ∅ k.
Proof. unfold unfilled, dict_get. by rewrite lookup_empty. Qed.

Lemma merge_musicbrainz_take missing mb a a' field v :
  merge_musicbrainz missing mb a = Ok a' →
  is_missing field missing = true →
  offer_musicbrainz mb field = Some v →
  filled a'.1 field v.
Proof.
  intros H Hmiss Ho. merge H.
  - destruct (decide (field = "genre")) as [->|Hg].
    + eapply filled_same.
      * by apply (proj2 (proj2 (proj2 (musicbrainz_year_frame _ _ _ _ H)))).
      * by eapply musicbrainz_genre_take.
    + destruct (decide (field = "year")) as [->|Hy].
      * by eapply musicbrainz_year_take.
      * unfold offer_musicbrainz in Ho.
        by rewrite !decide_False in Ho by done.
  - by rewrite Hdata, offer_musicbrainz_empty in Ho.
Qed.

Lemma merge_musicbrainz_skip missing mb a a' field :
  merge_musicbrainz missing mb a = Ok a' →
  offer_musicbrainz mb field = None →
  unfilled a.1 field → unfilled a'.1 field.
Proof.
  intros H Ho Ha. merge H; [|done].
  pose proof (musicbrainz_genre_frame _ _ _ _ E) as (_ & _ & _ & Hg).
  pose proof (musicbrainz_year_frame _ _ _ _ H) as (_ & _ & _ & Hy).
  destruct (decide (field = "genre")) as [->|Hng].
  - eapply unfilled_same; [by apply Hy|]. by eapply musicbrainz_genre_skip.
  - destruct (decide (field = "year")) as [->|Hny].
    + eapply musicbrainz_year_skip; [done..|].
      eapply unfilled_same; [by apply Hg|done].
    + eapply unfilled_same; [|done]. rewrite Hy, Hg; done.
Qed.

Lemma merge_lastfm_keep missing lfm a a' field v :
  merge_lastfm missing lfm a = Ok a' → field ≠ "mood" →
  filled a.1 field v → filled a'.1 field v.
Proof.
  intros H Hmood Ha. merge H; [|done].
  pose proof (lastfm_genre_frame _ _ _ _ E) as (_ & _ & _ & Hg).
  pose proof (lastfm_year_frame _ _ _ _ E0) as (_ & _ & _ & Hy).
  pose proof (lastfm_mood_frame _ _ _ _ H) as (_ & _ & _ & Hm).
  eapply filled_same; [by apply Hm|].
  destruct (decide (field = "genre")) as [->|Hng].
  - eapply filled_same; [by apply Hy|].
    by rewrite (lastfm_genre_keep _ _ _ _ _ E Ha).
  - assert (Ha0 : filled a0.1 field v) by (eapply filled_same; [by apply Hg|done]).
    destruct (decide (field = "year")) as [->|Hny].
    + by rewrite (lastfm_year_keep _ _ _ _ _ E0 Ha0).
    + eapply filled_same; [by apply Hy|done].
Qed.

Lemma merge_lastfm_take missing lfm a a' field v :
  merge_lastfm missing lfm a = Ok a' →
  is_missing field missing = true → unfilled a.1 field →
  offer_lastfm lfm field = Some v →
  filled a'.1 field v.
Proof.
  intros H Hmiss Ha Ho. merge H; [|by rewrite Hdata, offer_lastfm_empty in Ho].
  pose proof (lastfm_genre_frame _ _ _ _ E) as (_ & _ & _ & Hg).
  pose proof (lastfm_year_frame _ _ _ _ E0) as (_ & _ & _ & Hy).
  pose proof (lastfm_mood_frame _ _ _ _ H) as (_ & _ & _ & Hm).
  destruct (decide (field = "genre")) as [->|Hng].
  - eapply filled_same; [by apply Hm|].
    eapply filled_same; [by apply Hy|].
    by eapply lastfm_genre_take.
  - destruct (decide (field = "year")) as [->|Hny].
    + eapply filled_same; [by apply Hm|].
      eapply lastfm_year_take; [done..| |done].
      eapply unfilled_same; [by apply Hg|done].
    + unfold offer_lastfm in Ho. by rewrite !decide_False in Ho by done.
Qed.

Lemma merge_lastfm_skip missing lfm a a' field :
  merge_lastfm missing lfm a = Ok a' → field ≠ "mood" →
  offer_lastfm lfm field = None →
  unfilled a.1 field → unfilled a'.1 field.
Proof.
  intros H Hmood Ho Ha. merge H; [|done].
  pose proof (lastfm_genre_frame _ _ _ _ E) as (_ & _ & _ & Hg).
  pose proof (lastfm_year_frame _ _ _ _ E0) as (_ & _ & _ & Hy).
  pose proof (lastfm_mood_frame _ _ _ _ H) as (_ & _ & _ & Hm).
  eapply unfilled_same; [by apply Hm|].
  destruct (decide (field = "genre")) as [->|Hng].
  - eapply unfilled_same; [by apply Hy|]. by eapply lastfm_genre_skip.
  - assert (Ha0 : unfilled a0.1 field) by (eapply unfilled_same; [by apply Hg|done]).
    destruct (decide (field = "year")) as [->|Hny].
    + by eapply lastfm_year_skip.
    + eapply unfilled_same; [by apply Hy|done].
Qed.

Lemma merge_discogs_keep py_str missing dg a a' field v :
  merge_discogs py_str missing dg a = Ok a' →
  filled a.1 field v → filled a'.1 field v.
Proof.
  intros H Ha. merge H; [|done].
  pose proof (discogs_year_frame _ _ _ _ _ E) as (_ & _ & _ & Hy).
  pose proof (discogs_genre_frame _ _ _ _ H) as (_ & _ & _ & Hg).
  destruct (decide (field = "year")) as [->|Hny].
  - eapply filled_same; [by apply Hg|].
    by rewrite (discogs_year_keep _ _ _ _ _ _ E Ha).
  - assert (Ha0 : filled a0.1 field v) by (eapply filled_same; [by apply Hy|done]).
    destruct (decide (field = "genre")) as [->|Hng].
    + by rewrite (discogs_genre_keep _ _ _ _ _ H Ha0).
    + eapply filled_same; [by apply Hg|done].
Qed.

Lemma merge_discogs_take py_str missing dg a a' field v :
  merge_discogs py_str missing dg a = Ok a' →
  is_missing field missing = true → unfilled a.1 field →
  offer_discogs py_str dg field = Some v →
  a'.1 !! field = Some v.
Proof.
  intros H Hmiss Ha Ho. merge H; [|by rewrite Hdata, offer_discogs_empty in Ho].
  pose proof (discogs_year_frame _ _ _ _ _ E) as (_ & _ & _ & Hy).
  pose proof (discogs_genre_frame _ _ _ _ H) as (_ & _ & _ & Hg).
  destruct (decide (field = "year")) as [->|Hny].
  - rewrite Hg by done. by eapply discogs_year_take.
  - destruct (decide (field = "genre")) as [->|Hng].
    + eapply discogs_genre_take; [done..| |done].
      eapply unfilled_same; [by apply Hy|done].
    + unfold offer_discogs in Ho. by rewrite !decide_False in Ho by done.
Qed.

Lemma mood_from_genre_filled missing a a' field v :
  mood_from_genre missing a = Ok a' →
  filled a.1 field v → filled a'.1 field v.
Proof.
  intros H Ha.
  destruct (decide (field = "mood")) as [->|Hne].
  - by rewrite (mood_from_genre_keep _ _ _ _ H Ha).
  - pose proof (mood_from_genre_frame _ _ _ H) as (_ & _ & _ & Hm).
    eapply filled_same; [by apply Hm|done].
Qed.

(** The runs of the four steps of [merge_sources]. *)
Lemma merge_sources_inv py_str missing mb lfm dg a :
  merge_sources py_str missing mb lfm dg = Ok a →
  ∃ a1 a2 a3,
    merge_musicbrainz missing mb (∅, PStr "") = Ok a1
    ∧ merge_lastfm missing lfm a1 = Ok a2
    ∧ merge_discogs py_str missing dg a2 = Ok a3
    ∧ mood_from_genre missing a3 = Ok a.
Proof.
  unfold merge_sources. intros H.
  destruct (merge_musicbrainz _ _ _) as [a1|] eqn:H1; cbn [rbind] in H; [|discriminate].
  destruct (merge_lastfm _ _ _) as [a2|] eqn:H2; cbn [rbind] in H; [|discriminate].
  destruct (merge_discogs _ _ _ _) as [a3|] eqn:H3; cbn [rbind] in H; [|discriminate].
  by exists a1, a2, a3.
Qed.

(** Keys and mood at the end of the search. *)
Lemma merge_sources_keys py_str missing mb lfm dg a :
  merge_sources py_str missing mb lfm dg = Ok a →
  keys_in missing a.1 ∧ mood_label a.1 ∧ genre_found a.
Proof.
  intros H. apply merge_sources_inv in H as (a1 & a2 & a3 & H1 & H2 & H3 & H4).
  pose proof (merge_steps_keys _ _ _ _ _ _ _ _ H1 H2 H3) as (? & ? & ?).
  apply mood_from_genre_frame in H4 as (? & ? & ? & _). tauto.
Qed.

(** The mood taken from the genre alone does not make an empty
    accumulator non-empty: a genre found is a genre in the accumulator. *)
Lemma mood_from_genre_nonempty missing a3 a :
  genre_found a3 → mood_from_genre missing a3 = Ok a →
  dict_truthy a.1 = dict_truthy a3.1.
Proof.
  intros Hfound H. stmt H; [|done].
  destruct Hcond as [_ Hfg]. specialize (Hfound Hfg). simpl.
  assert (N : ∀ (m : gmap string pyval) k, is_Some (m !! k) → dict_truthy m = true).
  { intros m k Hk. unfold dict_truthy. simpl.
    apply negb_true_iff, Nat.eqb_neq. by apply (map_size_ne_0_lookup_2 _ k). }
  rewrite (N _ "mood"), (N _ "genre");
    [done|rewrite Hfound; eauto|rewrite lookup_insert_eq; eauto].
Qed.

Lemma offer_field py_str mb lfm dg field v :
  first_offer py_str mb lfm dg field = Some v → field ≠ "mood".
Proof.
  intros H ->. unfold first_offer, offer_musicbrainz, offer_lastfm, offer_discogs in H.
  by rewrite !decide_False in H by done.
Qed.

Lemma first_offer_applied py_str missing mb lfm dg a field v :
  merge_sources py_str missing mb lfm dg = Ok a →
  is_missing field missing = true →
  first_offer py_str mb lfm dg field = Some v →
  a.1 !! field = Some v.
Proof.
  intros H Hmiss Ho.
  pose proof (offer_field _ _ _ _ _ _ Ho) as Hmood.
  apply merge_sources_inv in H as (a1 & a2 & a3 & H1 & H2 & H3 & H4).
  pose proof (mood_from_genre_frame _ _ _ H4) as (_ & _ & _ & Hlast).
  rewrite Hlast by done.
  unfold first_offer in Ho.
  destruct (offer_musicbrainz mb field) as [v1|] eqn:O1.
  - injection Ho as ->.
    eapply merge_discogs_keep; [done|].
    eapply merge_lastfm_keep; [done..|].
    by eapply merge_musicbrainz_take.
  - assert (U1 : unfilled a1.1 field).
    { eapply merge_musicbrainz_skip; [done..|]. apply unfilled_empty. }
    destruct (offer_lastfm lfm field) as [v2|] eqn:O2.
    + injection Ho as ->.
      eapply merge_discogs_keep; [done|].
      by eapply merge_lastfm_take.
    + eapply merge_discogs_take; [done..| |done].
      by eapply merge_lastfm_skip.
Qed.

(** Along the search a field that holds a non-empty value keeps it. *)
Lemma filled_stays py_str missing mb lfm dg a1 a2 a3 a4 k v :
  merge_musicbrainz missing mb (∅, PStr "") = Ok a1 →
  merge_lastfm missing lfm a1 = Ok a2 →
  merge_discogs py_str missing dg a2 = Ok a3 →
  mood_from_genre missing a3 = Ok a4 →
  (filled a1.1 k v → filled a2.1 k v)
  ∧ (filled a2.1 k v → filled a3.1 k v)
  ∧ (filled a3.1 k v → filled a4.1 k v).
Proof.
  intros H1 H2 H3 H4. split; [|split].
  - intros Ha. eapply merge_lastfm_keep; [done| |done].
    intros ->. destruct Ha as [Ha _]. revert Ha.
    merge H1.
    + pose proof (musicbrainz_genre_frame _ _ _ _ E) as (_ & _ & _ & Hg).
      pose proof (musicbrainz_year_frame _ _ _ _ H1) as (_ & _ & _ & Hy).
      rewrite Hy, Hg by done. simpl. by rewrite lookup_empty.
    + simpl. by rewrite lookup_empty.
  - by eapply merge_discogs_keep.
  - by eapply mood_from_genre_filled.
Qed.

(** ** Writing the tags *)

Lemma update_metadata_tagged file_path nm st tags sf :
  files st !! file_path = Some (Audio (Some tags) sf) →
  update_metadata file_path nm st
  = if sf
    then (Ok false, after st [EvFile file_path; EvSave file_path;
                              EvLog ERROR (MsgUpdateError file_path MutagenError)])
    else (Ok true,
          {| files := <[file_path := Audio (Some (assigned nm tags)) false]> (files st);
             trace := trace st ++ [EvFile file_path; EvSave file_path] |}).
Proof.
  intros Hfile.
  unfold update_metadata, try_except, File, save, bind, emit, log, lift, ret,
    raise, set_tag, assigned, after.
  simpl. rewrite Hfile.
  destruct (truthy (dict_get nm "genre")), (truthy (dict_get nm "year")),
    (truthy (dict_get nm "mood")), sf; simpl; by rewrite <- ?app_assoc.
Qed.

(** Whatever the file, [update_metadata] opens it first, sends no request,
    returns a Boolean, and leaves the other files alone. *)
Lemma update_metadata_run file_path nm st :
  ∃ b evs fs,
    update_metadata file_path nm st
    = (Ok b, {| files := fs; trace := trace st ++ EvFile file_path :: evs |})
    ∧ requests evs = []
    ∧ (∀ p, p ≠ file_path → fs !! p = files st !! p)
    ∧ (∀ tags sf, files st !! file_path = Some (Audio (Some tags) sf) →
         fs !! file_path
         = Some (Audio (Some (if b then assigned nm tags else tags)) sf)
         ∧ b = negb sf).
Proof.
  destruct (files st !! file_path) as [[|[tags|] sf]|] eqn:Hfile.
  - exists false, [], (files st). split; [|by repeat split].
    unfold update_metadata, try_except, File, bind, emit, ret. simpl.
    by rewrite Hfile.
  - rewrite (update_metadata_tagged _ _ _ _ _ Hfile).
    destruct sf.
    + eexists false, _, (files st). split; [reflexivity|].
      split; [reflexivity|]. split; [done|].
      intros tags' sf' [= <- <-]. by rewrite Hfile.
    + eexists true, _, _. split; [reflexivity|].
      split; [reflexivity|]. split.
      * intros p Hp. by rewrite lookup_insert_ne.
      * intros tags' sf' [= <- <-]. by rewrite lookup_insert_eq.
  - unfold update_metadata, try_except, File, save, bind, emit, log, lift, ret,
      raise, set_tag, after. simpl. rewrite Hfile.
    destruct (truthy (dict_get nm "genre")), (truthy (dict_get nm "year")),
      (truthy (dict_get nm "mood")), sf; simpl; rewrite <- ?app_assoc; simpl.
    all: eexists _, _, _; (split; [reflexivity|]);
      (split; [reflexivity|]); split; [|done].
    all: intros p Hp; simpl; rewrite ?lookup_insert_ne by done; done.
  - exists false, [EvLog ERROR (MsgUpdateError file_path MutagenError)], (files st).
    split; [|by repeat split].
    unfold update_metadata, try_except, File, bind, emit, log, ret, after. simpl.
    rewrite Hfile. simpl. by rewrite <- app_assoc.
Qed.

(** ** The search as a whole *)

Lemma search_sources_inv world py_str self missing artist title st a st' :
  search_sources world py_str self missing artist title st = (Ok a, st') →
  ∃ mb lfm dg st1 st2,
    search_musicbrainz world artist title st = (Ok mb, st1)
    ∧ search_lastfm world self artist title st1 = (Ok lfm, st2)
    ∧ search_discogs world self artist title st2 = (Ok dg, st')
    ∧ merge_sources py_str missing mb lfm dg = Ok a.
Proof.
  unfold search_sources. intros H.
  apply bind_ok_inv in H as (mb & st1 & Hmb & H).
  apply bind_ok_inv in H as (a1 & s1 & H1 & H).
  apply lift_ok_inv in H1 as [H1 ->].
  apply bind_ok_inv in H as (lfm & st2 & Hlfm & H).
  apply bind_ok_inv in H as (a2 & s2 & H2 & H).
  apply lift_ok_inv in H2 as [H2 ->].
  apply bind_ok_inv in H as (dg & st3 & Hdg & H).
  apply bind_ok_inv in H as (a3 & s3 & H3 & H).
  apply lift_ok_inv in H3 as [H3 ->].
  apply lift_ok_inv in H as [H ->].
  exists mb, lfm, dg, st1, st2. repeat split; [done..|].
  unfold merge_sources. rewrite H1. cbn [rbind]. rewrite H2. cbn [rbind].
  rewrite H3. cbn [rbind]. done.
Qed.

Lemma search_sources_quiet world py_str self missing artist title :
  quiet (search_sources world py_str self missing artist title).
Proof.
  unfold search_sources.
  repeat first [ apply search_musicbrainz_quiet | apply search_lastfm_quiet
               | apply search_discogs_quiet | quiet_step ].
Qed.

Lemma process_file_eq world py_str self file_path st :
  let m := existing (files st) file_path in
  process_file world py_str self file_path st
  = match missing_fields_of m with
    | [] =>
        (Ok (outcome_flag (path_name file_path) "complete"),
         after (after_extract file_path st)
           [EvLog INFO (MsgAllPresent (path_name file_path))])
    | _ :: _ =>
        if negb (truthy (artist_of m)) || negb (truthy (title_of m))
        then (Ok (outcome_flag (path_name file_path) "missing_info"),
              after (after_extract file_path st)
                [EvLog WARNING (MsgMissingArtistTitle (path_name file_path))])
        else bind (search_sources world py_str self (missing_fields_of m)
                     (artist_of m) (title_of m))
               (λ a, apply_update file_path a.1) (after_extract file_path st)
    end.
Proof.
  intros m. unfold process_file, log. rewrite bind_emit.
  rewrite (bind_ok _ _ _ _ _ (extract_metadata_eq _ _)).
  change (files (after st _)) with (files st). rewrite after_after.
  fold m. fold (after_extract file_path st).
  destruct (missing_fields_of m); [by rewrite bind_emit|].
  fold (artist_of m). fold (title_of m).
  destruct (_ || _); [by rewrite bind_emit|done].
Qed.

Lemma is_missing_tags m :
  is_missing "genre" (missing_fields_of m) = negb (truthy (dict_get m "genre"))
  ∧ is_missing "year" (missing_fields_of m) = negb (truthy (dict_get m "date"))
  ∧ is_missing "mood" (missing_fields_of m) = negb (truthy (dict_get m "mood")).
Proof.
  unfold missing_fields_of.
  destruct (truthy (dict_get m "genre")), (truthy (dict_get m "date")),
    (truthy (dict_get m "mood")); repeat split; reflexivity.
Qed.

Lemma tag_metadata_get tags sf :
  let m := tag_metadata (Audio (Some tags) sf) in
  dict_get m "genre" = first_value tags "genre"
  ∧ dict_get m "date" = first_value tags "date"
  ∧ dict_get m "mood" = first_value tags "mood".
Proof. repeat split; reflexivity. Qed.

Lemma search_sources_merge world py_str self missing artist title st a :
  (search_sources world py_str self missing artist title st).1 = Ok a →
  ∃ mb lfm dg st1 st2,
    search_musicbrainz world artist title st = (Ok mb, st1)
    ∧ search_lastfm world self artist title st1 = (Ok lfm, st2)
    ∧ (search_discogs world self artist title st2).1 = Ok dg
    ∧ merge_sources py_str missing mb lfm dg = Ok a.
Proof.
  destruct (search_sources _ _ _ _ _ _ _) as [r st'] eqn:H. simpl. intros ->.
  apply search_sources_inv in H as (mb & lfm & dg & st1 & st2 & ? & ? & Hdg & ?).
  exists mb, lfm, dg, st1, st2. by rewrite Hdg.
Qed.

(** ** First found wins *)

(** C3: the accumulator the search ends with holds, for every missing
    field for which some source offers a non-empty value, the offer of the
    earliest such source in the order MusicBrainz, Last.fm, Discogs; the
    search is the three lookups in that order, each on the state the one
    before left, merged in that order; and when MusicBrainz says House and
    Last.fm says Techno for a file without genre, the genre returned and
    written to the file is House. *)
Theorem first_found_wins :
  (∀ py_str missing mb lfm dg a field v,
     merge_sources py_str missing mb lfm dg = Ok a →
     is_missing field missing = true →
     first_offer py_str mb lfm dg field = Some v →
     a.1 !! field = Some v)
  ∧ (∀ world py_str self missing artist title st a,
       (search_sources world py_str self missing artist title st).1 = Ok a →
       ∃ mb lfm dg st1 st2,
         search_musicbrainz world artist title st = (Ok mb, st1)
         ∧ search_lastfm world self artist title st1 = (Ok lfm, st2)
         ∧ (search_discogs world self artist title st2).1 = Ok dg
         ∧ merge_sources py_str missing mb lfm dg = Ok a)
  ∧ (let st := Examples.disk Examples.daft in
     let artist := PStr "Daft Punk" in
     let title := PStr "Get Lucky" in
     let run := process_file Examples.two_genres Examples.str Examples.keys
                  "music/a.mp3" st in
     (λ mb, mb !! "genre")
       <$> value (search_musicbrainz Examples.two_genres artist title st).1
     = Some (Some (PList [PStr "House"]))
     ∧ (λ lfm, lfm !! "genre")
         <$> value (search_lastfm Examples.two_genres Examples.keys artist title st).1
       = Some (Some (PStr "Techno"))
     ∧ (λ o, (status o, metadata o ≫= (λ nm, nm !! "genre"))) <$> value run.1
       = Some ("updated", Some (PStr "House"))
     ∧ (λ f, match f with
             | Audio (Some tags) _ => tags !! "genre"
             | _ => None
             end) <$> (files run.2 !! "music/a.mp3")
       = Some (Some [PStr "House"])).
Proof.
  split; [apply first_offer_applied|].
  split; [apply search_sources_merge|].
  repeat split; vm_compute; reflexivity.
Qed.

Lemma first_found_wins_witness :
  let mb : gmap string pyval := {[ "genre" := PList [PStr "House"; PStr "Deep House"] ]} in
  let lfm : gmap string pyval := {[ "genre" := PStr "Techno" ]} in
  let dg : gmap string pyval := {[ "genre" := PList [PStr "Electronic"] ]} in
  first_offer Examples.str mb lfm dg "genre" = Some (PStr "House")
  ∧ (default (∅, PNone)
       (value (merge_sources Examples.str ["genre"; "year"; "mood"] mb lfm dg))).1
    !! "genre" = Some (PStr "House").
Proof.
  intros mb lfm dg. split; [reflexivity|].
  apply (proj1 first_found_wins Examples.str ["genre"; "year"; "mood"]
           mb lfm dg _ "genre" (PStr "House")).
  - vm_compute. reflexivity.
  - reflexivity.
  - reflexivity.
Defined.

(** ** The mood, when filled, is a label *)

Lemma search_sources_mood world py_str self missing artist title st a v :
  (search_sources world py_str self missing artist title st).1 = Ok a →
  a.1 !! "mood" = Some v →
  ∃ s, v = PStr s ∧ s ∈ labels ∧ s ≠ "".
Proof.
  intros H Hv.
  apply search_sources_merge in H as (mb & lfm & dg & st1 & st2 & _ & _ & _ & H).
  apply merge_sources_keys in H as (_ & Hmood & _).
  destruct (Hmood v Hv) as (s & -> & Hs).
  exists s. split; [done|]. split; [done|]. by apply labels_nonempty.
Qed.

(** C9: for all tags and every genre [classify_mood] returns one of
    energetic, chill, emotional, aggressive, groovy, neutral, never the
    empty string; and whenever the search of [process_file] ends with a
    mood in the accumulator, that mood is one of these six strings. *)
Theorem classify_mood_total :
  (∀ tags genre,
     classify_mood tags genre ∈ labels ∧ classify_mood tags genre ≠ "")
  ∧ (∀ world py_str self missing artist title st a v,
       (search_sources world py_str self missing artist title st).1 = Ok a →
       a.1 !! "mood" = Some v →
       ∃ s, v = PStr s ∧ s ∈ labels ∧ s ≠ "").
Proof.
  split.
  - intros tags genre. split; [apply classify_mood_label|].
    apply labels_nonempty, classify_mood_label.
  - apply search_sources_mood.
Qed.

Lemma classify_mood_total_witness :
  ∃ s, PStr "energetic" = PStr s ∧ s ∈ labels ∧ s ≠ "".
Proof.
  apply (proj2 classify_mood_total Examples.scenario Examples.str Examples.keys
           ["genre"; "year"; "mood"] (PStr "Daft Punk") (PStr "Get Lucky")
           (Examples.disk Examples.daft)
           (list_to_map [("genre", PStr "Funk"); ("year", PStr "2013");
                         ("mood", PStr "energetic")], PStr "Funk")
           (PStr "energetic")).
  - vm_compute. reflexivity.
  - vm_compute. reflexivity.
Defined.

(** ** Genres that come as a list *)

Lemma musicbrainz_genre_first missing mb a g rest :
  is_missing "genre" missing = true →
  mb !! "genre" = Some (PList (g :: rest)) →
  musicbrainz_genre missing mb a = Ok (<["genre" := g]> a.1, g).
Proof.
  intros Hmiss Hg. unfold musicbrainz_genre, dict_get, dict_item.
  by rewrite Hmiss, Hg.
Qed.

Lemma discogs_genre_first missing dg a g rest :
  is_missing "genre" missing = true →
  unfilled a.1 "genre" →
  dg !! "genre" = Some (PList (g :: rest)) →
  discogs_genre missing dg a = Ok (<["genre" := g]> a.1, g).
Proof.
  intros Hmiss Ha Hg. unfold discogs_genre. unfold unfilled in Ha.
  rewrite Hmiss, Ha. unfold dict_get, dict_item. by rewrite Hg.
Qed.

(** C10: when genre is a missing field and MusicBrainz returns its genres
    as a list, the statement that takes the genre sets the accumulator's
    genre and [found_genre] to the first element, whatever the rest of the
    list; the same for Discogs when no earlier source filled the genre;
    and a non-empty first element of the MusicBrainz list is the genre the
    whole search ends with. *)
Theorem genre_list_first_element :
  (∀ missing mb a g rest,
     is_missing "genre" missing = true →
     mb !! "genre" = Some (PList (g :: rest)) →
     musicbrainz_genre missing mb a = Ok (<["genre" := g]> a.1, g))
  ∧ (∀ missing dg a g rest,
       is_missing "genre" missing = true →
       unfilled a.1 "genre" →
       dg !! "genre" = Some (PList (g :: rest)) →
       discogs_genre missing dg a = Ok (<["genre" := g]> a.1, g))
  ∧ (∀ py_str missing mb lfm dg a g rest,
       merge_sources py_str missing mb lfm dg = Ok a →
       is_missing "genre" missing = true →
       mb !! "genre" = Some (PList (g :: rest)) →
       truthy g = true →
       a.1 !! "genre" = Some g).
Proof.
  split; [apply musicbrainz_genre_first|].
  split; [apply discogs_genre_first|].
  intros py_str missing mb lfm dg a g rest H Hmiss Hg Hv.
  apply (first_offer_applied py_str missing mb lfm dg a "genre" g H Hmiss).
  unfold first_offer, offer_musicbrainz, dict_get. rewrite Hg. simpl.
  unfold nonempty. by rewrite Hv.
Qed.

Lemma genre_list_first_element_witness :
  let mb : gmap string pyval := {[ "genre" := PList [PStr "Funk"; PStr "Disco"] ]} in
  let dg : gmap string pyval := {[ "genre" := PList [PStr "Electronic"; PStr "Pop"] ]} in
  musicbrainz_genre ["genre"] mb (∅, PStr "")
  = Ok (<["genre" := PStr "Funk"]> ∅, PStr "Funk")
  ∧ discogs_genre ["genre"] dg (∅, PStr "")
    = Ok (<["genre" := PStr "Electronic"]> ∅, PStr "Electronic")
  ∧ (default (∅, PNone)
       (value (merge_sources Examples.str ["genre"] mb ∅ dg))).1 !! "genre"
    = Some (PStr "Funk").
Proof.
  intros mb dg.
  destruct genre_list_first_element as (Hmb & Hdg & Hall).
  split; [|split].
  - apply (Hmb ["genre"] mb (∅, PStr "") (PStr "Funk") [PStr "Disco"]);
      reflexivity.
  - apply (Hdg ["genre"] dg (∅, PStr "") (PStr "Electronic") [PStr "Pop"]);
      reflexivity.
  - apply (Hall Examples.str ["genre"] mb ∅ dg _ (PStr "Funk") [PStr "Disco"]).
    + vm_compute. reflexivity.
    + reflexivity.
    + reflexivity.
    + reflexivity.
Defined.

(** ** The update and the outcome *)

Lemma apply_update_nonempty file_path nm st :
  dict_truthy nm = true →
  ∃ b evs fs,
    update_metadata file_path nm st
    = (Ok b, {| files := fs; trace := trace st ++ EvFile file_path :: evs |})
    ∧ requests evs = []
    ∧ apply_update file_path nm st
      = (Ok (if b then outcome_updated (path_name file_path) nm
             else outcome_flag (path_name file_path) "not_found"),
         {| files := fs;
            trace := (trace st ++ EvFile file_path :: evs)
                     ++ [if b
                         then EvLog INFO (MsgUpdated (path_name file_path) nm)
                         else EvLog WARNING (MsgCouldNotFind (path_name file_path))] |})
    ∧ (∀ p, p ≠ file_path → fs !! p = files st !! p)
    ∧ (∀ tags sf, files st !! file_path = Some (Audio (Some tags) sf) →
         fs !! file_path
         = Some (Audio (Some (if b then assigned nm tags else tags)) sf)
         ∧ b = negb sf).
Proof.
  intros Hnm.
  destruct (update_metadata_run file_path nm st)
    as (b & evs & fs & Hrun & Hreq & Hother & Htags).
  exists b, evs, fs. repeat split; try done.
  - unfold apply_update. rewrite Hnm. rewrite (bind_ok _ _ _ _ _ Hrun).
    unfold log. destruct b; by rewrite bind_emit.
  - by apply Htags.
  - by eapply Htags.
Qed.

Lemma apply_update_empty file_path nm st :
  dict_truthy nm = false →
  apply_update file_path nm st
  = (Ok (outcome_flag (path_name file_path) "not_found"),
     after st [EvLog WARNING (MsgCouldNotFind (path_name file_path))]).
Proof.
  intros Hnm. unfold apply_update, log. rewrite Hnm. by rewrite bind_emit.
Qed.

Lemma process_file_searched world py_str self file_path st o :
  (process_file world py_str self file_path st).1 = Ok o →
  status o = "updated" ∨ status o = "not_found" →
  let m := existing (files st) file_path in
  ∃ a st2,
    search_sources world py_str self (missing_fields_of m)
      (artist_of m) (title_of m) (after_extract file_path st) = (Ok a, st2)
    ∧ (apply_update file_path a.1 st2).1 = Ok o.
Proof.
  rewrite process_file_eq. intros H Hstatus m. fold m in H.
  destruct (missing_fields_of m) eqn:Emiss.
  { simpl in H. injection H as <-. by destruct Hstatus. }
  destruct (_ || _).
  { simpl in H. injection H as <-. by destruct Hstatus. }
  unfold bind in H.
  destruct (search_sources _ _ _ _ _ _ _) as [[a|e] st2] eqn:Hs; [|discriminate].
  by exists a, st2.
Qed.

(** C5: when the accumulator is not empty, [update_metadata] is called (it
    opens the file, sends no request and returns a Boolean, never an
    exception); when it returns true the outcome is updated and carries the
    accumulator, and the tags it assigned are in the file; when it returns
    false the outcome is the not_found record, the one an empty accumulator
    gives.  Every updated or not_found outcome of [process_file] is made
    this way from the accumulator its search ended with, and that
    accumulator is empty after the mood fallback exactly when it was empty
    after the three sources. *)
Theorem update_outcome :
  (∀ file_path nm st,
     dict_truthy nm = true →
     ∃ b evs fs,
       update_metadata file_path nm st
       = (Ok b, {| files := fs; trace := trace st ++ EvFile file_path :: evs |})
       ∧ requests evs = []
       ∧ apply_update file_path nm st
         = (Ok (if b then outcome_updated (path_name file_path) nm
                else outcome_flag (path_name file_path) "not_found"),
            {| files := fs;
               trace := (trace st ++ EvFile file_path :: evs)
                        ++ [if b
                            then EvLog INFO (MsgUpdated (path_name file_path) nm)
                            else EvLog WARNING
                                   (MsgCouldNotFind (path_name file_path))] |})
       ∧ (∀ p, p ≠ file_path → fs !! p = files st !! p)
       ∧ (∀ tags sf, files st !! file_path = Some (Audio (Some tags) sf) →
            fs !! file_path
            = Some (Audio (Some (if b then assigned nm tags else tags)) sf)
            ∧ b = negb sf))
  ∧ (∀ file_path nm st,
       dict_truthy nm = false →
       apply_update file_path nm st
       = (Ok (outcome_flag (path_name file_path) "not_found"),
          after st [EvLog WARNING (MsgCouldNotFind (path_name file_path))]))
  ∧ (∀ world py_str self file_path st o,
       (process_file world py_str self file_path st).1 = Ok o →
       status o = "updated" ∨ status o = "not_found" →
       let m := existing (files st) file_path in
       ∃ a st2,
         search_sources world py_str self (missing_fields_of m)
           (artist_of m) (title_of m) (after_extract file_path st) = (Ok a, st2)
         ∧ (apply_update file_path a.1 st2).1 = Ok o)
  ∧ (∀ py_str missing mb lfm dg a1 a2 a3 a,
       merge_musicbrainz missing mb (∅, PStr "") = Ok a1 →
       merge_lastfm missing lfm a1 = Ok a2 →
       merge_discogs py_str missing dg a2 = Ok a3 →
       mood_from_genre missing a3 = Ok a →
       dict_truthy a.1 = dict_truthy a3.1).
Proof.
  split; [apply apply_update_nonempty|].
  split; [apply apply_update_empty|].
  split; [apply process_file_searched|].
  intros py_str missing mb lfm dg a1 a2 a3 a H1 H2 H3 H4.
  pose proof (merge_steps_keys _ _ _ _ _ _ _ _ H1 H2 H3) as (_ & _ & Hfound).
  by eapply mood_from_genre_nonempty.
Qed.

Lemma update_outcome_witness :
  let st := Examples.disk Examples.daft in
  let nm : gmap string pyval := {[ "genre" := PStr "Funk" ]} in
  (∃ b evs fs,
     update_metadata "music/a.mp3" nm st
     = (Ok b, {| files := fs; trace := trace st ++ EvFile "music/a.mp3" :: evs |})
     ∧ requests evs = []
     ∧ apply_update "music/a.mp3" nm st
       = (Ok (if b then outcome_updated "a.mp3" nm
              else outcome_flag "a.mp3" "not_found"),
          {| files := fs;
             trace := (trace st ++ EvFile "music/a.mp3" :: evs)
                      ++ [if b then EvLog INFO (MsgUpdated "a.mp3" nm)
                          else EvLog WARNING (MsgCouldNotFind "a.mp3")] |})
     ∧ (∀ p, p ≠ "music/a.mp3" → fs !! p = files st !! p)
     ∧ (∀ tags sf, files st !! "music/a.mp3" = Some (Audio (Some tags) sf) →
          fs !! "music/a.mp3"
          = Some (Audio (Some (if b then assigned nm tags else tags)) sf)
          ∧ b = negb sf))
  ∧ apply_update "music/a.mp3" ∅ st
    = (Ok (outcome_flag "a.mp3" "not_found"),
       after st [EvLog WARNING (MsgCouldNotFind "a.mp3")])
  ∧ (∃ a st2,
       search_sources Examples.scenario Examples.str Examples.keys
         ["genre"; "year"; "mood"] (PStr "Daft Punk") (PStr "Get Lucky")
         (after_extract "music/a.mp3" st) = (Ok a, st2)
       ∧ (apply_update "music/a.mp3" a.1 st2).1
         = Ok (outcome_updated "a.mp3"
                 (list_to_map [("genre", PStr "Funk"); ("year", PStr "2013");
                               ("mood", PStr "energetic")])))
  ∧ dict_truthy (<["mood" := PStr "groovy"]> nm, PStr "Funk").1
    = dict_truthy (nm, PStr "Funk").1.
Proof.
  intros st nm.
  destruct update_outcome as (Hwrite & Hempty & Hsearched & Hfallback).
  split; [|split; [|split]].
  - apply (Hwrite "music/a.mp3" nm st). reflexivity.
  - apply (Hempty "music/a.mp3" ∅ st). reflexivity.
  - apply (Hsearched Examples.scenario Examples.str Examples.keys
             "music/a.mp3" st).
    + vm_compute. reflexivity.
    + left. reflexivity.
  - apply (Hfallback Examples.str ["mood"; "genre"]
             {[ "genre" := PList [PStr "Funk"] ]} ∅ ∅
             (nm, PStr "Funk") (nm, PStr "Funk") (nm, PStr "Funk")
             (<["mood" := PStr "groovy"]> nm, PStr "Funk")).
    + vm_compute. reflexivity.
    + vm_compute. reflexivity.
    + vm_compute. reflexivity.
    + vm_compute. reflexivity.
Defined.

(** ** Only missing fields are filled, present tags are kept *)

Lemma truthy_get_some (nm : gmap string pyval) k :
  truthy (dict_get nm k) = true → is_Some (nm !! k).
Proof. unfold dict_get. destruct (nm !! k); [eauto|discriminate]. Qed.

Lemma assigned_present tags sf nm t :
  keys_in (missing_fields_of (tag_metadata (Audio (Some tags) sf))) nm →
  truthy (first_value tags t) = true →
  assigned nm tags !! t = tags !! t.
Proof.
  intros Hkeys Ht.
  pose proof (is_missing_tags (tag_metadata (Audio (Some tags) sf)))
    as (Mg & My & Mm).
  pose proof (tag_metadata_get tags sf) as (Gg & Gy & Gm).
  cbv zeta in Gg, Gy, Gm. rewrite Gg in Mg. rewrite Gy in My. rewrite Gm in Mm.
  unfold assigned.
  destruct (truthy (dict_get nm "mood")) eqn:Em;
    [rewrite lookup_insert_ne;
      [|intros <-; apply truthy_get_some, Hkeys in Em; rewrite Mm, Ht in Em;
        discriminate]|];
  (destruct (truthy (dict_get nm "year")) eqn:Ey;
    [rewrite lookup_insert_ne;
      [|intros <-; apply truthy_get_some, Hkeys in Ey; rewrite My, Ht in Ey;
        discriminate]|]);
  (destruct (truthy (dict_get nm "genre")) eqn:Eg;
    [rewrite lookup_insert_ne;
      [|intros <-; apply truthy_get_some, Hkeys in Eg; rewrite Mg, Ht in Eg;
        discriminate]|]);
  reflexivity.
Qed.

Lemma search_sources_keys world py_str self missing artist title st a :
  (search_sources world py_str self missing artist title st).1 = Ok a →
  keys_in missing a.1.
Proof.
  intros H.
  apply search_sources_merge in H as (mb & lfm & dg & st1 & st2 & _ & _ & _ & H).
  by apply merge_sources_keys in H as (? & _).
Qed.

Lemma process_file_files world py_str self file_path st :
  let st' := (process_file world py_str self file_path st).2 in
  (∀ p, p ≠ file_path → files st' !! p = files st !! p)
  ∧ (∀ tags sf, files st !! file_path = Some (Audio (Some tags) sf) →
       ∃ tags', files st' !! file_path = Some (Audio (Some tags') sf)
                ∧ ∀ t, truthy (first_value tags t) = true →
                       tags' !! t = tags !! t).
Proof.
  rewrite process_file_eq.
  set (m := existing (files st) file_path).
  destruct (missing_fields_of m) eqn:Emiss; [simpl; eauto|].
  destruct (_ || _); [simpl; eauto|].
  rewrite <- Emiss. clear Emiss.
  unfold bind.
  destruct (search_sources_quiet world py_str self (missing_fields_of m)
              (artist_of m) (title_of m) (after_extract file_path st))
    as [evs Hquiet].
  pose proof (search_sources_keys world py_str self (missing_fields_of m)
                (artist_of m) (title_of m) (after_extract file_path st)) as Hkeys.
  destruct (search_sources _ _ _ _ _ _ _) as [[a|e] st2]; simpl in Hquiet;
    subst st2; [|simpl; eauto].
  specialize (Hkeys a eq_refl).
  destruct (dict_truthy a.1) eqn:Hnm.
  - destruct (apply_update_nonempty file_path a.1
                (after (after_extract file_path st) evs) Hnm)
      as (b & evs' & fs & _ & _ & -> & Hother & Htags).
    simpl. split; [done|].
    intros tags sf Hfile. destruct (Htags tags sf Hfile) as [-> _].
    eexists. split; [done|].
    intros t Ht. destruct b; [|done].
    apply (assigned_present tags sf); [|done].
    unfold m, existing in Hkeys. by rewrite Hfile in Hkeys.
  - rewrite (apply_update_empty _ _ _ Hnm). simpl. eauto.
Qed.

Lemma process_file_metadata world py_str self file_path st existing_metadata o nm :
  (extract_metadata file_path st).1 = Ok existing_metadata →
  (process_file world py_str self file_path st).1 = Ok o →
  metadata o = Some nm →
  keys_in (missing_fields_of existing_metadata) nm.
Proof.
  rewrite extract_metadata_eq. simpl. intros [= <-].
  rewrite process_file_eq.
  set (m := existing (files st) file_path).
  destruct (missing_fields_of m) eqn:Emiss.
  { simpl. by intros [= <-]. }
  destruct (_ || _).
  { simpl. by intros [= <-]. }
  rewrite <- Emiss. clear Emiss. unfold bind.
  pose proof (search_sources_keys world py_str self (missing_fields_of m)
                (artist_of m) (title_of m) (after_extract file_path st)) as Hkeys.
  destruct (search_sources _ _ _ _ _ _ _) as [[a|e] st2]; [|discriminate].
  specialize (Hkeys a eq_refl).
  destruct (dict_truthy a.1) eqn:Hnm.
  - destruct (apply_update_nonempty file_path a.1 st2 Hnm)
      as (b & evs' & fs & _ & _ & -> & _).
    simpl. intros [= <-]. destruct b; simpl; [by intros [= <-]|discriminate].
  - rewrite (apply_update_empty _ _ _ Hnm). simpl. by intros [= <-].
Qed.

Lemma after_extract_requests file_path st :
  requests (trace (after_extract file_path st)) = requests (trace st).
Proof.
  unfold after_extract, after. simpl. rewrite requests_app.
  destruct (files st !! file_path); simpl; by rewrite app_nil_r.
Qed.

Lemma process_file_plan world py_str self file_path st m :
  (extract_metadata file_path st).1 = Ok m →
  process_file world py_str self file_path st
  = match missing_fields_of m with
    | [] =>
        (Ok (outcome_flag (path_name file_path) "complete"),
         after (after_extract file_path st)
           [EvLog INFO (MsgAllPresent (path_name file_path))])
    | _ :: _ =>
        if negb (truthy (artist_of m)) || negb (truthy (title_of m))
        then (Ok (outcome_flag (path_name file_path) "missing_info"),
              after (after_extract file_path st)
                [EvLog WARNING (MsgMissingArtistTitle (path_name file_path))])
        else bind (search_sources world py_str self (missing_fields_of m)
                     (artist_of m) (title_of m))
               (λ a, apply_update file_path a.1) (after_extract file_path st)
    end.
Proof.
  rewrite extract_metadata_eq. simpl. intros [= <-]. apply process_file_eq.
Qed.

(** C4 (amended): the list of missing fields is computed from the
    extracted metadata, in a state that has seen no request yet, and
    handed to the search, which uses that one list throughout; every key
    of the accumulator the search ends with, and
    so every field of the update, is in that list; in particular the
    accumulator has a mood only if mood is in it; a tag that is present in
    the file keeps its value through [process_file], and the other files
    are not touched; and along the search a field that holds a non-empty
    value after one source keeps that value to the end. *)
Theorem search_fills_missing_only :
  (∀ world py_str self file_path st m,
     (extract_metadata file_path st).1 = Ok m →
     requests (trace (after_extract file_path st)) = requests (trace st)
     ∧ process_file world py_str self file_path st
       = match missing_fields_of m with
         | [] =>
             (Ok (outcome_flag (path_name file_path) "complete"),
              after (after_extract file_path st)
                [EvLog INFO (MsgAllPresent (path_name file_path))])
         | _ :: _ =>
             if negb (truthy (artist_of m)) || negb (truthy (title_of m))
             then (Ok (outcome_flag (path_name file_path) "missing_info"),
                   after (after_extract file_path st)
                     [EvLog WARNING
                        (MsgMissingArtistTitle (path_name file_path))])
             else bind (search_sources world py_str self (missing_fields_of m)
                          (artist_of m) (title_of m))
                    (λ a, apply_update file_path a.1)
                    (after_extract file_path st)
         end)
  ∧ (∀ world py_str self missing artist title st a,
     (search_sources world py_str self missing artist title st).1 = Ok a →
     keys_in missing a.1 ∧ (is_Some (a.1 !! "mood") → "mood" ∈ missing))
  ∧ (∀ world py_str self file_path st existing_metadata o nm,
       (extract_metadata file_path st).1 = Ok existing_metadata →
       (process_file world py_str self file_path st).1 = Ok o →
       metadata o = Some nm →
       keys_in (missing_fields_of existing_metadata) nm)
  ∧ (∀ world py_str self file_path st,
       let st' := (process_file world py_str self file_path st).2 in
       (∀ p, p ≠ file_path → files st' !! p = files st !! p)
       ∧ (∀ tags sf, files st !! file_path = Some (Audio (Some tags) sf) →
            ∃ tags', files st' !! file_path = Some (Audio (Some tags') sf)
                     ∧ ∀ t, truthy (first_value tags t) = true →
                            tags' !! t = tags !! t))
  ∧ (∀ py_str missing mb lfm dg a1 a2 a3 a4 k v,
       merge_musicbrainz missing mb (∅, PStr "") = Ok a1 →
       merge_lastfm missing lfm a1 = Ok a2 →
       merge_discogs py_str missing dg a2 = Ok a3 →
       mood_from_genre missing a3 = Ok a4 →
       (filled a1.1 k v → filled a2.1 k v)
       ∧ (filled a2.1 k v → filled a3.1 k v)
       ∧ (filled a3.1 k v → filled a4.1 k v)).
Proof.
  split; [|split; [|split; [|split]]].
  - intros world py_str self file_path st m H.
    split; [apply after_extract_requests|by apply process_file_plan].
  - intros world py_str self missing artist title st a H.
    apply search_sources_keys in H. split; [done|].
    intros Hmood. apply H in Hmood. unfold is_missing in Hmood.
    by apply bool_decide_eq_true in Hmood.
  - apply process_file_metadata.
  - apply process_file_files.
  - intros. by eapply filled_stays.
Qed.

Lemma search_fills_missing_only_witness :
  let st := Examples.disk Examples.with_genre in
  let run := process_file Examples.scenario Examples.str Examples.keys
               "music/a.mp3" st in
  let found : gmap string pyval :=
    list_to_map [("year", PStr "2013"); ("mood", PStr "energetic")] in
  requests (trace (after_extract "music/a.mp3" st)) = requests (trace st)
  ∧ keys_in ["year"; "mood"] found
  ∧ keys_in (missing_fields_of (tag_metadata Examples.with_genre)) found
  ∧ (∃ tags', files run.2 !! "music/a.mp3" = Some (Audio (Some tags') false)
              ∧ ∀ t, truthy (first_value
                               (list_to_map [("artist", [PStr "Daft Punk"]);
                                             ("title", [PStr "Get Lucky"]);
                                             ("genre", [PStr "Disco"])]) t) = true →
                     tags' !! t
                     = (list_to_map [("artist", [PStr "Daft Punk"]);
                                     ("title", [PStr "Get Lucky"]);
                                     ("genre", [PStr "Disco"])]
                        : gmap string (list pyval)) !! t)
  ∧ (filled ({[ "genre" := PStr "House" ]} : gmap string pyval, PStr "House").1
       "genre" (PStr "House") →
     filled ({[ "genre" := PStr "House" ]} : gmap string pyval, PStr "House").1
       "genre" (PStr "House")).
Proof.
  intros st run found.
  destruct search_fills_missing_only as (Hplan & Hkeys & Hmeta & Hfiles & Hstays).
  split; [|split; [|split; [|split]]].
  - apply (Hplan Examples.scenario Examples.str Examples.keys "music/a.mp3" st
             (tag_metadata Examples.with_genre)).
    vm_compute. reflexivity.
  - apply (Hkeys Examples.scenario Examples.str Examples.keys ["year"; "mood"]
             (PStr "Daft Punk") (PStr "Get Lucky") (after_extract "music/a.mp3" st)
             (found, PStr "")).
    vm_compute. reflexivity.
  - apply (Hmeta Examples.scenario Examples.str Examples.keys "music/a.mp3" st
             (tag_metadata Examples.with_genre)
             (outcome_updated "a.mp3" found) found).
    + vm_compute. reflexivity.
    + vm_compute. reflexivity.
    + reflexivity.
  - apply (proj2 (Hfiles Examples.scenario Examples.str Examples.keys
                    "music/a.mp3" st)).
    reflexivity.
  - apply (Hstays Examples.str ["genre"]
             {[ "genre" := PList [PStr "House"] ]} {[ "genre" := PStr "Techno" ]} ∅
             ({[ "genre" := PStr "House" ]}, PStr "House")
             ({[ "genre" := PStr "House" ]}, PStr "House")
             ({[ "genre" := PStr "House" ]}, PStr "House")
             ({[ "genre" := PStr "House" ]}, PStr "House")
             "genre" (PStr "House")).
    + vm_compute. reflexivity.
    + vm_compute. reflexivity.
    + vm_compute. reflexivity.
    + vm_compute. reflexivity.
Defined.

(** C4, as stated, fails: MusicBrainz lists a genre whose name is empty, so
    the first statement sets the accumulator's genre to the empty string,
    and the statement for Last.fm, finding no genre it counts as found,
    sets it a second time. *)
Lemma genre_assigned_twice :
  let st := Examples.disk Examples.daft in
  let missing := ["genre"; "year"; "mood"] in
  let artist := PStr "Daft Punk" in
  let title := PStr "Get Lucky" in
  let mb_run := search_musicbrainz Examples.blank_genre artist title st in
  let lfm_run := search_lastfm Examples.blank_genre Examples.keys artist title
                   mb_run.2 in
  let mb := default ∅ (value mb_run.1) in
  let lfm := default ∅ (value lfm_run.1) in
  mb !! "genre" = Some (PList [PStr ""])
  ∧ lfm !! "genre" = Some (PStr "Techno")
  ∧ merge_musicbrainz missing mb (∅, PStr "") = Ok ({[ "genre" := PStr "" ]}, PStr "")
  ∧ merge_lastfm missing lfm ({[ "genre" := PStr "" ]}, PStr "")
    = Ok ({[ "genre" := PStr "Techno" ]}, PStr "Techno").
Proof.
  repeat split; vm_compute; reflexivity.
Qed.

(** ** A directory without audio files *)

Lemma print_summary_nil st :
  print_summary [] st
  = (Ok (), after st [EvLog INFO MsgRuleAfterNewline; EvLog INFO MsgSummaryTitle;
                      EvLog INFO MsgRule; EvLog INFO (MsgTotal 0);
                      EvLog INFO (MsgUpdatedCount 0);
                      EvLog INFO (MsgCompleteCount 0);
                      EvLog INFO (MsgMissingInfoCount 0);
                      EvLog INFO (MsgNotFoundCount 0);
                      EvLog INFO (MsgErrorCount 0); EvLog INFO MsgRule]).
Proof.
  unfold print_summary, log, bind, emit, after. simpl.
  by rewrite <- !app_assoc.
Qed.

(** C2 (amended): for a directory that exists and holds no file with the
    extension, [process_directory] raises nothing, touches no file, sends
    no request and returns after two log records, the count of zero files
    and the notice that none was found; [print_summary] is not called.
    Called on no results, [print_summary] logs zero for every count. *)
Theorem process_directory_no_files world py_str self directory entries st :
  glob entries = [] →
  process_directory world py_str self directory (Some entries) st
  = (Ok (), after st [EvLog INFO (MsgFound 0); EvLog INFO MsgNoFiles])
  ∧ print_summary [] st
    = (Ok (), after st [EvLog INFO MsgRuleAfterNewline; EvLog INFO MsgSummaryTitle;
                        EvLog INFO MsgRule; EvLog INFO (MsgTotal 0);
                        EvLog INFO (MsgUpdatedCount 0);
                        EvLog INFO (MsgCompleteCount 0);
                        EvLog INFO (MsgMissingInfoCount 0);
                        EvLog INFO (MsgNotFoundCount 0);
                        EvLog INFO (MsgErrorCount 0); EvLog INFO MsgRule]).
Proof.
  intros Hglob. split; [|apply print_summary_nil].
  unfold process_directory. rewrite Hglob. unfold log.
  rewrite bind_emit. rewrite emit_run. by rewrite after_after.
Qed.

Lemma process_directory_no_files_witness :
  let st := Examples.disk Examples.daft in
  process_directory Examples.scenario Examples.str Examples.keys "music"
    (Some Examples.notes) st
  = (Ok (), after st [EvLog INFO (MsgFound 0); EvLog INFO MsgNoFiles]).
Proof.
  intros st.
  apply (process_directory_no_files Examples.scenario Examples.str Examples.keys
           "music" Examples.notes st).
  reflexivity.
Defined.

(** C2, as stated, fails: on a directory without audio files the run ends
    after two log records, none of them a record of the summary. *)
Lemma no_files_no_summary :
  let run := process_directory Examples.scenario Examples.str Examples.keys
               "music" (Some Examples.notes) (Examples.disk Examples.daft) in
  run.1 = Ok ()
  ∧ trace run.2 = [EvLog INFO (MsgFound 0); EvLog INFO MsgNoFiles]
  ∧ (EvLog INFO MsgSummaryTitle ∉ trace run.2)
  ∧ (∀ n, EvLog INFO (MsgTotal n) ∉ trace run.2).
Proof.
  assert (Htrace : trace (process_directory Examples.scenario Examples.str
                            Examples.keys "music" (Some Examples.notes)
                            (Examples.disk Examples.daft)).2
                   = [EvLog INFO (MsgFound 0); EvLog INFO MsgNoFiles])
    by (vm_compute; reflexivity).
  cbv zeta. rewrite Htrace.
  split; [vm_compute; reflexivity|]. split; [reflexivity|].
  split; [|intros n]; rewrite !elem_of_cons, elem_of_nil;
    intros [H|[H|[]]]; discriminate H.
Qed.

(** ** Scenarios *)

(** The run of the specification: artist and title only in the file,
    MusicBrainz with genre Funk and year 2013, Last.fm with the tags dance
    and fun, Discogs out of reach. *)
Example scenario_updated :
  let run := process_file Examples.scenario Examples.str Examples.keys
               "music/a.mp3" (Examples.disk Examples.daft) in
  run.1 = Ok (outcome_updated "a.mp3"
                (list_to_map [("genre", PStr "Funk"); ("year", PStr "2013");
                              ("mood", PStr "energetic")]))
  ∧ files run.2 !! "music/a.mp3"
    = Some (Audio (Some (list_to_map [("artist", [PStr "Daft Punk"]);
                                      ("title", [PStr "Get Lucky"]);
                                      ("genre", [PStr "Funk"]);
                                      ("date", [PStr "2013"]);
                                      ("mood", [PStr "energetic"])])) false)
  ∧ requests (trace run.2)
    = [EvGet (MusicBrainzRecordingSearch "Daft Punk" "Get Lucky");
       EvGet (MusicBrainzArtist (PStr "056e4f3e"));
       EvGet (LastfmTrackGetInfo (PStr "Daft Punk") (PStr "Get Lucky") (PStr "k1"));
       EvGet (DiscogsSearch (PStr "Daft Punk") (PStr "Get Lucky") (PStr "t1"))].
Proof. repeat split; vm_compute; reflexivity. Qed.

(** A second run on the file the first run updated finds it complete and
    sends nothing. *)
Example scenario_second_run :
  let first := process_file Examples.scenario Examples.str Examples.keys
                 "music/a.mp3" (Examples.disk Examples.daft) in
  let second := process_file Examples.scenario Examples.str Examples.keys
                  "music/a.mp3" first.2 in
  second.1 = Ok (outcome_flag "a.mp3" "complete")
  ∧ requests (trace second.2) = requests (trace first.2)
  ∧ files second.2 = files first.2.
Proof. repeat split; vm_compute; reflexivity. Qed.

(** When [save] fails the file is reported not_found. *)
Example scenario_failed_write :
  let st := Examples.disk Examples.read_only in
  let run := process_file Examples.scenario Examples.str Examples.keys
               "music/a.mp3" st in
  run.1 = Ok (outcome_flag "a.mp3" "not_found") ∧ files run.2 = files st.
Proof. repeat split; vm_compute; reflexivity. Qed.

(** With no credentials only MusicBrainz is asked. *)
Example scenario_no_credentials :
  let run := process_file Examples.scenario Examples.str (new_enricher None)
               "music/a.mp3" (Examples.disk Examples.daft) in
  status <$> value run.1 = Some "updated"
  ∧ requests (trace run.2)
    = [EvGet (MusicBrainzRecordingSearch "Daft Punk" "Get Lucky");
       EvGet (MusicBrainzArtist (PStr "056e4f3e"))].
Proof. repeat split; vm_compute; reflexivity. Qed.

(** The classifier on a genre alone, without tags. *)
Example classify_mood_fallback :
  classify_mood [] "smooth jazz" = "chill"
  ∧ classify_mood [] "Chillout" = "chill"
  ∧ classify_mood [] "obscure polka" = "neutral".
Proof. repeat split; reflexivity. Qed.

(** A status outside 4xx and 5xx is not an error for [raise_for_status]:
    the payload that comes with it is used. *)
Example redirect_payload_used :
  let run := search_musicbrainz Examples.redirected (PStr "Daft Punk")
               (PStr "Get Lucky") (Examples.disk Examples.daft) in
  (λ d, d !! "date") <$> value run.1 = Some (Some (PStr "2013")).
Proof. vm_compute. reflexivity. Qed.

(** A payload that decodes and has a value of an unexpected type where the
    client only copies it is returned as it is; here the date is a number,
    slicing it raises in [process_file], and the pool reports the file as
    an error. *)
Example numeric_date_raises :
  let st := Examples.disk Examples.daft in
  (λ d : gmap string pyval, d !! "date")
    <$> value (search_musicbrainz Examples.numeric_date (PStr "Daft Punk")
                 (PStr "Get Lucky") st).1
  = Some (Some (PInt 2013))
  ∧ (process_file Examples.numeric_date Examples.str Examples.keys
       "music/a.mp3" st).1 = Raise TypeError
  ∧ (λ rs : list outcome, status <$> rs)
      <$> value (run_pool Examples.numeric_date Examples.str Examples.keys
                   ["music/a.mp3"] st).1
    = Some ["error"].
Proof. repeat split; vm_compute; reflexivity. Qed.

(** ** More on the mood classifier *)

Lemma starts_with_app k k' s : starts_with (k +:+ k') s = true → starts_with k s = true.
Proof.
  revert s. induction k as [|a k IH]; intros s; [done|].
  destruct s as [|b s]; simpl; [done|].
  destruct (Ascii.eqb a b); [apply IH|done].
Qed.

Lemma is_substring_app k k' s : is_substring (k +:+ k') s = true → is_substring k s = true.
Proof.
  induction s as [|b s IH].
  - simpl. rewrite !orb_false_r. apply starts_with_app.
  - change (is_substring (k +:+ k') (String b s))
      with (starts_with (k +:+ k') (String b s) || is_substring (k +:+ k') s).
    change (is_substring k (String b s))
      with (starts_with k (String b s) || is_substring k s).
    intros [H|H]%orb_true_iff.
    + by rewrite (starts_with_app _ _ _ H).
    + rewrite (IH H). apply orb_true_r.
Qed.

Lemma any_in_genre keywords tags genre :
  forallb (λ k, spaceless k && negb (String.eqb k "")) keywords = true →
  any_in keywords (lower (join " " (tags ++ [genre]))) = false →
  any_in keywords (lower genre) = false.
Proof.
  intros Hk. rewrite any_in_join by done. rewrite existsb_app. simpl.
  rewrite orb_false_r. by intros [_ H]%orb_false_iff.
Qed.

Lemma first_mood_none tags genre :
  first_mood mood_keywords (lower (join " " (tags ++ [genre]))) = None →
  Forall (λ entry, any_in entry.2 (lower genre) = false) mood_keywords.
Proof.
  unfold mood_keywords. cbn [first_mood].
  repeat match goal with
         | |- context [if any_in ?kws ?t then _ else _] =>
             let E := fresh "E" in
             destruct (any_in kws t) eqn:E; [discriminate|];
             apply any_in_genre in E; [|reflexivity]
         end.
  intros _. repeat constructor; assumption.
Qed.

Lemma classify_mood_neutral tags genre :
  first_mood mood_keywords (lower (join " " (tags ++ [genre]))) = None →
  classify_mood tags genre = "neutral".
Proof.
  intros Hnone. unfold classify_mood. rewrite Hnone.
  apply first_mood_none in Hnone. unfold mood_keywords in Hnone.
  repeat match goal with
         | H : Forall _ (_ :: _) |- _ => apply Forall_cons in H as [? H]
         end.
  simpl in *. unfold any_in in *. cbn [existsb] in *.
  repeat match goal with
         | H : _ || _ = false |- _ => apply orb_false_iff in H as [? ?]
         end.
  assert (is_substring "chillout" (lower genre) = false) as Hc.
  { destruct (is_substring "chillout" (lower genre)) eqn:E; [|done].
    apply (is_substring_app "chill" "out") in E. congruence. }
  repeat match goal with
         | H : is_substring _ _ = false |- _ => rewrite H; clear H
         end.
  reflexivity.
Qed.

(** X1: the second, genre-only keyword table of [classify_mood] never
    decides a result: each of its keywords contains a keyword of the first
    table for the same mood, and the genre is part of the text the first
    table is tried on.  So the result is the first mood of the table with
    an occurrence and, when there is none, neutral. *)
Theorem classify_mood_fallback_unreachable tags genre :
  classify_mood tags genre
  = default "neutral"
      (first_mood mood_keywords (lower (join " " (tags ++ [genre])))).
Proof.
  destruct (first_mood _ _) as [mood|] eqn:E.
  - unfold classify_mood. by rewrite E.
  - by apply classify_mood_neutral.
Qed.

Lemma lower_char_idem c : lower_char (lower_char c) = lower_char c.
Proof. destruct c as [[] [] [] [] [] [] [] []]; reflexivity. Qed.

Lemma lower_idem s : lower (lower s) = lower s.
Proof. induction s as [|c s IH]; simpl; [done|]. by rewrite lower_char_idem, IH. Qed.

Lemma first_mood_ext table t1 t2 :
  (∀ entry, entry ∈ table → any_in entry.2 t1 = any_in entry.2 t2) →
  first_mood table t1 = first_mood table t2.
Proof.
  induction table as [|[m kws] table IH]; intros H; [done|].
  simpl. pose proof (H (m, kws) (list_elem_of_here _ _)) as Hm. simpl in Hm.
  rewrite Hm. rewrite IH; [done|].
  intros e He. apply H. by apply list_elem_of_further.
Qed.

Lemma mood_keywords_fine entry :
  entry ∈ mood_keywords →
  forallb (λ k, spaceless k && negb (String.eqb k "")) entry.2 = true.
Proof.
  unfold mood_keywords. rewrite !elem_of_cons, elem_of_nil.
  intros [->|[->|[->|[->|[->|[]]]]]]; reflexivity.
Qed.

(** X2: [classify_mood] ignores letter case (of ASCII letters): lower-casing
    the tags and the genre beforehand does not change the result. *)
Theorem classify_mood_ignores_case tags genre :
  classify_mood (lower <$> tags) (lower genre) = classify_mood tags genre.
Proof.
  rewrite !classify_mood_fallback_unreachable. f_equal.
  rewrite !lower_join. f_equal. f_equal.
  rewrite !fmap_app. simpl. rewrite lower_idem. f_equal.
  rewrite <- list_fmap_compose. apply list_fmap_ext. intros i x _. simpl.
  apply lower_idem.
Qed.

Lemma existsb_elem {A} (P : A → bool) (l l' : list A) :
  (∀ x, x ∈ l → x ∈ l') → existsb P l = true → existsb P l' = true.
Proof.
  intros Hsub. rewrite !existsb_exists. intros (x & Hx & HP).
  exists x. split; [|done]. apply list_elem_of_In, Hsub, list_elem_of_In, Hx.
Qed.

Lemma existsb_same {A} (P : A → bool) (l l' : list A) :
  (∀ x, x ∈ l ↔ x ∈ l') → existsb P l = existsb P l'.
Proof.
  intros H.
  destruct (existsb P l) eqn:E1, (existsb P l') eqn:E2; try done.
  - apply (existsb_elem P l l') in E1; [congruence|]. intros x. apply H.
  - apply (existsb_elem P l' l) in E2; [congruence|]. intros x. apply H.
Qed.

(** X3: the result of [classify_mood] depends on the tags as a set only:
    neither their order nor repetitions matter (the order that decides is
    that of the table). *)
Theorem classify_mood_tags_as_set tags tags' genre :
  (∀ x, x ∈ tags ↔ x ∈ tags') →
  classify_mood tags genre = classify_mood tags' genre.
Proof.
  intros Hsame. rewrite !classify_mood_fallback_unreachable. f_equal.
  apply first_mood_ext. intros entry Hentry.
  apply mood_keywords_fine in Hentry.
  rewrite !any_in_join by done.
  apply existsb_same. intros x. rewrite !elem_of_app. by rewrite Hsame.
Qed.

Lemma classify_mood_tags_as_set_witness :
  classify_mood ["fun"; "dance"; "fun"] "Funk" = classify_mood ["dance"; "fun"] "Funk".
Proof.
  apply (classify_mood_tags_as_set ["fun"; "dance"; "fun"] ["dance"; "fun"] "Funk").
  intros x. rewrite !elem_of_cons, elem_of_nil. tauto.
Defined.

(** ** The batch *)













(** ** Writing and reading back *)

Lemma first_value_assigned nm tags :
  first_value (assigned nm tags) "genre"
  = (if truthy (dict_get nm "genre") then dict_get nm "genre"
     else first_value tags "genre")
  ∧ first_value (assigned nm tags) "date"
    = (if truthy (dict_get nm "year") then dict_get nm "year"
       else first_value tags "date")
  ∧ first_value (assigned nm tags) "mood"
    = (if truthy (dict_get nm "mood") then dict_get nm "mood"
       else first_value tags "mood")
  ∧ (∀ k, k ≠ "genre" → k ≠ "date" → k ≠ "mood" →
          assigned nm tags !! k = tags !! k).
Proof.
  unfold assigned, first_value.
  destruct (truthy (dict_get nm "genre")), (truthy (dict_get nm "year")),
    (truthy (dict_get nm "mood"));
    repeat split;
    try (intros k ? ? ?);
    rewrite ?lookup_insert_eq, ?(lookup_insert_ne _ "mood" "date"),
      ?(lookup_insert_ne _ "mood" "genre"), ?(lookup_insert_ne _ "date" "genre"),
      ?(lookup_insert_ne _ "date" "mood"), ?(lookup_insert_ne _ "genre" "mood"),
      ?(lookup_insert_ne _ "genre" "date"), ?lookup_insert_eq by done;
    rewrite ?lookup_insert_ne by done; reflexivity.
Qed.

(** X7: on a file that has tags and can be saved, [update_metadata] returns
    true, and [extract_metadata] then reads back, for genre, date and
    mood, the value of the update under genre, year and mood when that
    value is non-empty and the previous value otherwise; title, artist and
    album read as before. *)
Theorem update_then_extract file_path nm st tags :
  files st !! file_path = Some (Audio (Some tags) false) →
  let st' := (update_metadata file_path nm st).2 in
  let before := existing (files st) file_path in
  (update_metadata file_path nm st).1 = Ok true
  ∧ ∃ m, (extract_metadata file_path st').1 = Ok m
         ∧ dict_get m "genre"
           = (if truthy (dict_get nm "genre") then dict_get nm "genre"
              else dict_get before "genre")
         ∧ dict_get m "date"
           = (if truthy (dict_get nm "year") then dict_get nm "year"
              else dict_get before "date")
         ∧ dict_get m "mood"
           = (if truthy (dict_get nm "mood") then dict_get nm "mood"
              else dict_get before "mood")
         ∧ m !! "title" = before !! "title"
         ∧ m !! "artist" = before !! "artist"
         ∧ m !! "album" = before !! "album".
Proof.
  intros Hfile st' before. subst st' before.
  rewrite (update_metadata_tagged _ _ _ _ _ Hfile). simpl.
  split; [done|]. rewrite extract_metadata_eq. simpl.
  eexists. split; [reflexivity|].
  unfold existing. rewrite lookup_insert_eq, Hfile.
  pose proof (first_value_assigned nm tags) as (Hg & Hd & Hm & Hother).
  pose proof (tag_metadata_get (assigned nm tags) false) as (Gg & Gd & Gm).
  pose proof (tag_metadata_get tags false) as (Bg & Bd & Bm).
  cbv zeta in *. rewrite Gg, Gd, Gm, Bg, Bd, Bm, Hg, Hd, Hm.
  repeat split.
  - change (Some (first_value (assigned nm tags) "title") = Some (first_value tags "title")).
    unfold first_value. by rewrite Hother.
  - change (Some (first_value (assigned nm tags) "artist") = Some (first_value tags "artist")).
    unfold first_value. by rewrite Hother.
  - change (Some (first_value (assigned nm tags) "album") = Some (first_value tags "album")).
    unfold first_value. by rewrite Hother.
Qed.

Lemma update_then_extract_witness :
  let st := Examples.disk Examples.with_genre in
  let nm : gmap string pyval :=
    list_to_map [("year", PStr "2013"); ("mood", PStr "")] in
  let st' := (update_metadata "music/a.mp3" nm st).2 in
  (update_metadata "music/a.mp3" nm st).1 = Ok true
  ∧ ∃ m, (extract_metadata "music/a.mp3" st').1 = Ok m
         ∧ dict_get m "genre" = PStr "Disco"
         ∧ dict_get m "date" = PStr "2013"
         ∧ dict_get m "mood" = PStr ""
         ∧ m !! "title" = Some (PStr "Get Lucky")
         ∧ m !! "artist" = Some (PStr "Daft Punk")
         ∧ m !! "album" = Some (PStr "").
Proof.
  intros st nm.
  apply (update_then_extract "music/a.mp3" nm st
           (list_to_map [("artist", [PStr "Daft Punk"]);
                         ("title", [PStr "Get Lucky"]);
                         ("genre", [PStr "Disco"])])).
  reflexivity.
Defined.

Lemma requests_after st evs :
  requests (trace (after st evs)) = requests (trace st) ++ requests evs.
Proof. unfold after. simpl. apply requests_app. Qed.

Lemma artist_tagged fs file_path :
  truthy (artist_of (existing fs file_path)) = true →
  ∃ tags sf, fs !! file_path = Some (Audio (Some tags) sf).
Proof.
  unfold existing, artist_of.
  destruct (fs !! file_path) as [[|[tags|] sf]|]; simpl; try discriminate.
  eauto.
Qed.

Lemma process_file_updated world py_str self file_path st o nm :
  (process_file world py_str self file_path st).1 = Ok o →
  metadata o = Some nm →
  ∃ tags,
    files st !! file_path = Some (Audio (Some tags) false)
    ∧ files (process_file world py_str self file_path st).2 !! file_path
      = Some (Audio (Some (assigned nm tags)) false).
Proof.
  rewrite process_file_eq.
  set (m := existing (files st) file_path).
  destruct (missing_fields_of m) eqn:Emiss.
  { simpl. by intros [= <-]. }
  destruct (negb (truthy (artist_of m)) || negb (truthy (title_of m))) eqn:Hcond.
  { simpl. by intros [= <-]. }
  rewrite <- Emiss. clear Emiss. unfold bind.
  apply orb_false_iff in Hcond as [Hartist _].
  apply negb_false_iff, artist_tagged in Hartist as (tags & sf & Hfile).
  destruct (search_sources_quiet world py_str self (missing_fields_of m)
              (artist_of m) (title_of m) (after_extract file_path st))
    as [evs Hquiet].
  destruct (search_sources _ _ _ _ _ _ _) as [[a|e] st2]; simpl in Hquiet;
    subst st2; [|discriminate].
  destruct (dict_truthy a.1) eqn:Hnm.
  - destruct (apply_update_nonempty file_path a.1
                (after (after_extract file_path st) evs) Hnm)
      as (b & evs' & fs & _ & _ & -> & _ & Htags).
    simpl. intros [= <-].
    destruct (Htags tags sf Hfile) as [Hfs Hb].
    destruct b; simpl; [|discriminate]. intros [= <-].
    destruct sf; [discriminate|]. by exists tags.
  - rewrite (apply_update_empty _ _ _ Hnm). simpl. by intros [= <-].
Qed.

Lemma missing_fields_nil m :
  truthy (dict_get m "genre") = true →
  truthy (dict_get m "date") = true →
  truthy (dict_get m "mood") = true →
  missing_fields_of m = [].
Proof. unfold missing_fields_of. by intros -> -> ->. Qed.

Lemma filled_or_present m nm k tag :
  (∀ k, k ∈ missing_fields_of m → truthy (dict_get nm k) = true) →
  is_missing k (missing_fields_of m) = negb (truthy (dict_get m tag)) →
  truthy (if truthy (dict_get nm k) then dict_get nm k else dict_get m tag) = true.
Proof.
  intros Hall Hk. destruct (truthy (dict_get nm k)) eqn:E; [done|].
  destruct (truthy (dict_get m tag)) eqn:Et; [done|].
  simpl in Hk. unfold is_missing in Hk. apply bool_decide_eq_true in Hk.
  apply Hall in Hk. congruence.
Qed.

(** X8: when [process_file] has updated a file and the update holds a
    non-empty value for every field that was missing, processing the file
    again, with whatever services and credentials, finds it complete,
    sends no request and changes no file. *)
Theorem second_run_complete
    world py_str self world' py_str' self' file_path st m o nm :
  (extract_metadata file_path st).1 = Ok m →
  (process_file world py_str self file_path st).1 = Ok o →
  metadata o = Some nm →
  (∀ k, k ∈ missing_fields_of m → truthy (dict_get nm k) = true) →
  let st1 := (process_file world py_str self file_path st).2 in
  let again := process_file world' py_str' self' file_path st1 in
  again.1 = Ok (outcome_flag (path_name file_path) "complete")
  ∧ requests (trace again.2) = requests (trace st1)
  ∧ files again.2 = files st1.
Proof.
  intros Hm Hrun Hmeta Hall st1 again.
  rewrite extract_metadata_eq in Hm. simpl in Hm. injection Hm as <-.
  destruct (process_file_updated _ _ _ _ _ _ _ Hrun Hmeta) as (tags & Hfile & Hfile1).
  fold st1 in Hfile1. subst again. rewrite process_file_eq.
  assert (Hnil : missing_fields_of (existing (files st1) file_path) = []).
  { unfold existing in *. rewrite Hfile1. rewrite Hfile in Hall.
    pose proof (first_value_assigned nm tags) as (Hg & Hd & Hm & _).
    pose proof (tag_metadata_get (assigned nm tags) false) as (Gg & Gd & Gm).
    pose proof (tag_metadata_get tags false) as (Bg & Bd & Bm).
    pose proof (is_missing_tags (tag_metadata (Audio (Some tags) false)))
      as (Mg & My & Mm).
    cbv zeta in *.
    apply missing_fields_nil.
    - rewrite Gg, Hg, <- Bg. by apply (filled_or_present _ _ "genre" "genre").
    - rewrite Gd, Hd, <- Bd. by apply (filled_or_present _ _ "year" "date").
    - rewrite Gm, Hm, <- Bm. by apply (filled_or_present _ _ "mood" "mood"). }
  rewrite Hnil. cbn [fst snd]. split; [done|]. split; [|done].
  rewrite requests_after, after_extract_requests. simpl. by rewrite app_nil_r.
Qed.

Lemma second_run_complete_witness :
  let st := Examples.disk Examples.daft in
  let st1 := (process_file Examples.scenario Examples.str Examples.keys
                "music/a.mp3" st).2 in
  let again := process_file Examples.offline Examples.str (new_enricher None)
                 "music/a.mp3" st1 in
  again.1 = Ok (outcome_flag "a.mp3" "complete")
  ∧ requests (trace again.2) = requests (trace st1)
  ∧ files again.2 = files st1.
Proof.
  intros st.
  apply (second_run_complete Examples.scenario Examples.str Examples.keys
           Examples.offline Examples.str (new_enricher None) "music/a.mp3" st
           (tag_metadata Examples.daft)
           (outcome_updated "a.mp3"
              (list_to_map [("genre", PStr "Funk"); ("year", PStr "2013");
                            ("mood", PStr "energetic")]))
           (list_to_map [("genre", PStr "Funk"); ("year", PStr "2013");
                         ("mood", PStr "energetic")])).
  - vm_compute. reflexivity.
  - vm_compute. reflexivity.
  - reflexivity.
  - intros k Hk.
    change (missing_fields_of (tag_metadata Examples.daft))
      with ["genre"; "year"; "mood"] in Hk.
    rewrite !elem_of_cons, elem_of_nil in Hk.
    destruct Hk as [->|[->|[->|[]]]]; reflexivity.
Defined.

(** ** The discipline of the requests *)

Lemma request_ranks_app evs evs' :
  request_ranks (evs ++ evs') = request_ranks evs ++ request_ranks evs'.
Proof. apply omap_app. Qed.

Lemma paced_app evs evs' :
  paced evs = true → paced evs' = true → paced (evs ++ evs') = true.
Proof.
  revert evs'. induction evs as [evs IH] using (induction_ltof1 _ length).
  unfold ltof in IH. intros evs' H H'.
  destruct evs as [|ev evs]; [done|].
  destruct ev; simpl in *; try done; try (apply IH; [lia|done..]).
  destruct evs as [|ev' evs]; [simpl; by destruct evs' as [|[] ?]|].
  destruct ev'; simpl in *; try done;
    try (apply (IH (_ :: evs)); [simpl; lia|done..]);
    try (apply IH; [simpl; lia|done..]).
  - apply (IH (EvRateLimit :: evs)); [simpl; lia|done..].
Qed.

Lemma paced_armed evs : paced evs = true → paced (EvRateLimit :: evs) = true.
Proof. destruct evs as [|[] evs]; simpl; done. Qed.

Lemma within_weaken lo hi lo' hi' l :
  (lo' ≤ lo)%nat → (hi ≤ hi')%nat → within lo hi l → within lo' hi' l.
Proof.
  revert lo lo'. induction l as [|x l IH]; intros lo lo' Hlo Hhi; [done|].
  simpl. intros (? & ? & H). split; [lia|]. split; [lia|].
  by apply (IH (S x) (S x)).
Qed.

Lemma within_app lo mid hi l l' :
  (lo ≤ mid)%nat → (mid ≤ hi)%nat →
  within lo mid l → within mid hi l' → within lo hi (l ++ l').
Proof.
  revert lo. induction l as [|x l IH]; intros lo Hlo Hhi Hl Hl'.
  - simpl. by apply (within_weaken mid hi).
  - destruct Hl as (? & ? & Hl). simpl. split; [done|]. split; [lia|].
    apply IH; [lia|done..].
Qed.

Lemma within_length lo hi l : within lo hi l → (length l ≤ hi - lo)%nat.
Proof.
  revert lo. induction l as [|x l IH]; intros lo; simpl; [lia|].
  intros (? & ? & H). apply IH in H. lia.
Qed.

Lemma silent_disciplined {A} (m : M A) lo hi : silent m → disciplined lo hi m.
Proof.
  intros H st. destruct (H st) as (evs & ? & ? & Hr).
  exists evs. by rewrite Hr.
Qed.

Lemma disciplined_armed {A} (m : M A) lo hi : disciplined lo hi m → armed lo hi m.
Proof.
  intros H st. destruct (H st) as (evs & ? & ? & ?).
  exists evs. repeat split; [done| |done]. by apply paced_armed.
Qed.

Lemma disciplined_weaken {A} (m : M A) lo hi lo' hi' :
  (lo' ≤ lo)%nat → (hi ≤ hi')%nat → disciplined lo hi m → disciplined lo' hi' m.
Proof.
  intros ? ? H st. destruct (H st) as (evs & ? & ? & ?).
  exists evs. repeat split; [done..|]. by eapply within_weaken.
Qed.

Lemma silent_ret {A} (a : A) : silent (ret a).
Proof. intros st. exists []. simpl. by rewrite app_nil_r. Qed.

Lemma silent_raise {A} e : silent (@raise A e).
Proof. intros st. exists []. simpl. by rewrite app_nil_r. Qed.

Lemma silent_lift {A} (r : result A) : silent (lift r).
Proof. intros st. exists []. simpl. by rewrite app_nil_r. Qed.

Lemma silent_log l m : silent (log l m).
Proof. intros st. by exists [EvLog l m]. Qed.

Lemma silent_raise_for_status resp : silent (raise_for_status resp).
Proof.
  unfold raise_for_status. destruct (_ && _); [apply silent_raise|apply silent_ret].
Qed.

Lemma silent_response_json resp : silent (response_json resp).
Proof.
  unfold response_json. destruct (json_body resp); [apply silent_ret|apply silent_raise].
Qed.

Lemma disciplined_bind {A B} lo mid hi (m : M A) (k : A → M B) :
  (lo ≤ mid)%nat → (mid ≤ hi)%nat →
  disciplined lo mid m → (∀ a, disciplined mid hi (k a)) →
  disciplined lo hi (bind m k).
Proof.
  intros Hlo Hhi Hm Hk st. unfold bind.
  destruct (Hm st) as (evs & Ht & Hp & Hw).
  destruct (m st) as [[a|e] st1]; simpl in Ht.
  - destruct (Hk a st1) as (evs' & Ht' & Hp' & Hw').
    exists (evs ++ evs'). rewrite Ht', Ht, app_assoc. split; [done|].
    split; [by apply paced_app|]. rewrite request_ranks_app.
    by apply (within_app lo mid hi).
  - exists evs. simpl. repeat split; [done..|]. by apply (within_weaken lo mid).
Qed.

Lemma disciplined_try {A} lo mid hi (body : M A) (handler : exn → M A) :
  (lo ≤ mid)%nat → (mid ≤ hi)%nat →
  disciplined lo mid body → (∀ e, disciplined mid hi (handler e)) →
  disciplined lo hi (try_except body handler).
Proof.
  intros Hlo Hhi Hm Hk st. unfold try_except.
  destruct (Hm st) as (evs & Ht & Hp & Hw).
  destruct (body st) as [[a|e] st1]; simpl in Ht.
  - exists evs. simpl. repeat split; [done..|]. by apply (within_weaken lo mid).
  - destruct (Hk e st1) as (evs' & Ht' & Hp' & Hw').
    exists (evs ++ evs'). rewrite Ht', Ht, app_assoc. split; [done|].
    split; [by apply paced_app|]. rewrite request_ranks_app.
    by apply (within_app lo mid hi).
Qed.

Lemma silent_bind {A B} (m : M A) (k : A → M B) :
  silent m → (∀ a, silent (k a)) → silent (bind m k).
Proof.
  intros Hm Hk st. unfold bind.
  destruct (Hm st) as (evs & Ht & Hp & Hw).
  destruct (m st) as [[a|e] st1]; simpl in Ht.
  - destruct (Hk a st1) as (evs' & Ht' & Hp' & Hw').
    exists (evs ++ evs'). rewrite Ht', Ht, app_assoc. split; [done|].
    split; [by apply paced_app|]. by rewrite request_ranks_app, Hw, Hw'.
  - by exists evs.
Qed.

Lemma silent_try {A} (body : M A) (handler : exn → M A) :
  silent body → (∀ e, silent (handler e)) → silent (try_except body handler).
Proof.
  intros Hm Hk st. unfold try_except.
  destruct (Hm st) as (evs & Ht & Hp & Hw).
  destruct (body st) as [[a|e] st1]; simpl in Ht.
  - by exists evs.
  - destruct (Hk e st1) as (evs' & Ht' & Hp' & Hw').
    exists (evs ++ evs'). rewrite Ht', Ht, app_assoc. split; [done|].
    split; [by apply paced_app|]. by rewrite request_ranks_app, Hw, Hw'.
Qed.

Lemma disciplined_rate_limit {A} lo hi (m : M A) :
  armed lo hi m → disciplined lo hi (rate_limit ;;; m).
Proof.
  intros Hm st. unfold rate_limit. rewrite bind_emit.
  destruct (Hm (after st [EvRateLimit])) as (evs & Ht & Hp & Hw).
  exists (EvRateLimit :: evs). rewrite Ht. simpl. rewrite <- app_assoc.
  by repeat split.
Qed.

Lemma armed_lift {A B} lo hi (r : result A) (k : A → M B) :
  (∀ a, armed lo hi (k a)) → armed lo hi (bind (lift r) k).
Proof.
  intros Hk st. unfold bind, lift. destruct r as [a|e]; [apply Hk|].
  exists []. simpl. by rewrite app_nil_r.
Qed.

Lemma armed_get {A} world lo hi r (k : response → M A) :
  (lo ≤ rank r)%nat → (rank r < hi)%nat →
  (∀ resp, disciplined (S (rank r)) hi (k resp)) →
  armed lo hi (bind (session_get world r) k).
Proof.
  intros Hlo Hhi Hk st. unfold bind at 1, session_get.
  destruct (world (trace st) r) as [|resp].
  - exists [EvGet r]. simpl. by repeat split.
  - rewrite bind_emit. simpl.
    destruct (Hk resp (after st [EvGet r])) as (evs & Ht & Hp & Hw).
    exists (EvGet r :: evs). rewrite Ht. simpl. rewrite <- app_assoc.
    repeat split; done.
Qed.

Lemma silent_File file_path : silent (File file_path).
Proof.
  intros st. unfold File. rewrite bind_emit.
  exists [EvFile file_path]. simpl. by destruct (_ !! _).
Qed.

Lemma silent_save file_path tags save_fails : silent (save file_path tags save_fails).
Proof.
  intros st. unfold save. rewrite bind_emit.
  exists [EvSave file_path]. by destruct save_fails.
Qed.

(** Statements that send nothing, one after the other. *)
Ltac silent_step :=
  first
    [ apply silent_File | apply silent_save
    | apply silent_ret | apply silent_raise | apply silent_lift | apply silent_log
    | apply silent_raise_for_status | apply silent_response_json
    | apply silent_bind; [|intros ?] | apply silent_try; [|intros ?]
    | match goal with
      | |- silent (if ?b then _ else _) => destruct b
      end ].

(** The statements that follow a request: silent ones, up to the next
    lookup [lem] or the end. *)
Ltac after_request lem lo hi :=
  repeat first
    [ apply silent_disciplined; solve [repeat silent_step]
    | match goal with
      | |- disciplined _ _ (if ?b then _ else _) => destruct b
      end
    | apply (disciplined_bind lo hi hi); [lia|lia|apply lem|intros ?]
    | apply (disciplined_bind lo lo hi);
      [lia|lia|apply silent_disciplined; solve [repeat silent_step]|intros ?] ].

Lemma silent_extract_metadata file_path : silent (extract_metadata file_path).
Proof. unfold extract_metadata. repeat silent_step. Qed.

Lemma silent_update_metadata file_path nm : silent (update_metadata file_path nm).
Proof.
  unfold update_metadata. apply silent_try; [|intros e; repeat silent_step].
  apply silent_bind; [apply silent_File|]. intros [|tags save_fails]; repeat silent_step.
Qed.

Lemma silent_apply_update file_path nm : silent (apply_update file_path nm).
Proof.
  unfold apply_update. destruct (dict_truthy nm); [|repeat silent_step].
  apply silent_bind; [apply silent_update_metadata|]. intros []; repeat silent_step.
Qed.

Lemma silent_print_summary results : silent (print_summary results).
Proof. unfold print_summary. repeat silent_step. Qed.

Lemma silent_check_api_keys self : silent (check_api_keys self).
Proof. unfold check_api_keys. repeat silent_step. Qed.

Lemma get_musicbrainz_genres_disciplined world artist_id :
  disciplined 1 2 (get_musicbrainz_genres world artist_id).
Proof.
  unfold get_musicbrainz_genres.
  apply (disciplined_try 1 2 2); [lia..| |intros e; apply silent_disciplined; repeat silent_step].
  apply disciplined_rate_limit, armed_get; [simpl; lia..|]. intros resp.
  apply silent_disciplined. repeat silent_step.
Qed.

Lemma search_musicbrainz_disciplined world artist title :
  disciplined 0 2 (search_musicbrainz world artist title).
Proof.
  unfold search_musicbrainz.
  apply (disciplined_try 0 2 2); [lia..| |intros e; apply silent_disciplined; repeat silent_step].
  apply disciplined_rate_limit. do 2 (apply armed_lift; intros ?).
  apply armed_get; [simpl; lia..|]. intros resp. simpl.
  after_request get_musicbrainz_genres_disciplined 1%nat 2%nat.
Qed.

Lemma search_lastfm_silent world self artist title :
  unconfigured (lastfm_api_key self) "YOUR_LASTFM_API_KEY_HERE" = true →
  silent (search_lastfm world self artist title).
Proof.
  unfold unconfigured, search_lastfm. intros ->. apply silent_ret.
Qed.

Lemma search_lastfm_disciplined world self artist title :
  disciplined 2 3 (search_lastfm world self artist title).
Proof.
  unfold search_lastfm. destruct (_ || _); [apply silent_disciplined, silent_ret|].
  apply (disciplined_try 2 3 3); [lia..| |intros e; apply silent_disciplined; repeat silent_step].
  apply disciplined_rate_limit, armed_get; [simpl; lia..|]. intros resp.
  apply silent_disciplined. repeat silent_step.
Qed.

Lemma get_discogs_release_disciplined world self release_id :
  disciplined 4 5 (get_discogs_release world self release_id).
Proof.
  unfold get_discogs_release.
  apply (disciplined_try 4 5 5); [lia..| |intros e; apply silent_disciplined; repeat silent_step].
  apply disciplined_rate_limit, armed_get; [simpl; lia..|]. intros resp.
  apply silent_disciplined. repeat silent_step.
Qed.

Lemma search_discogs_silent world self artist title :
  unconfigured (discogs_token self) "YOUR_DISCOGS_TOKEN_HERE" = true →
  silent (search_discogs world self artist title).
Proof.
  unfold unconfigured, search_discogs. intros ->. apply silent_ret.
Qed.

Lemma search_discogs_disciplined world self artist title :
  disciplined 3 5 (search_discogs world self artist title).
Proof.
  unfold search_discogs. destruct (_ || _); [apply silent_disciplined, silent_ret|].
  apply (disciplined_try 3 5 5); [lia..| |intros e; apply silent_disciplined; repeat silent_step].
  apply disciplined_rate_limit, armed_get; [simpl; lia..|]. intros resp. simpl.
  after_request get_discogs_release_disciplined 4%nat 5%nat.
Qed.

(** The search, given what the two clients with a credential may send. *)
Lemma search_sources_disciplined world py_str self mid hi missing artist title :
  (2 ≤ mid)%nat → (mid ≤ hi)%nat →
  disciplined 2 mid (search_lastfm world self artist title) →
  disciplined mid hi (search_discogs world self artist title) →
  disciplined 0 hi (search_sources world py_str self missing artist title).
Proof.
  intros Hmid Hhi Hl Hd. unfold search_sources.
  apply (disciplined_bind 0 2 hi); [lia..|apply search_musicbrainz_disciplined|intros ?].
  apply (disciplined_bind 2 2 hi); [lia..|apply silent_disciplined, silent_lift|intros ?].
  apply (disciplined_bind 2 mid hi); [lia..|apply Hl|intros ?].
  apply (disciplined_bind mid mid hi); [lia..|apply silent_disciplined, silent_lift|intros ?].
  apply (disciplined_bind mid hi hi); [lia..|apply Hd|intros ?].
  apply silent_disciplined. repeat silent_step.
Qed.

Lemma process_file_disciplined world py_str self mid hi file_path :
  (2 ≤ mid)%nat → (mid ≤ hi)%nat →
  (∀ artist title, disciplined 2 mid (search_lastfm world self artist title)) →
  (∀ artist title, disciplined mid hi (search_discogs world self artist title)) →
  disciplined 0 hi (process_file world py_str self file_path).
Proof.
  intros Hmid Hhi Hl Hd. unfold process_file.
  apply (disciplined_bind 0 0 hi); [lia..|apply silent_disciplined, silent_log|intros _].
  apply (disciplined_bind 0 0 hi); [lia..|apply silent_disciplined, silent_extract_metadata|intros m].
  destruct (missing_fields_of m); [apply silent_disciplined; repeat silent_step|].
  destruct (_ || _); [apply silent_disciplined; repeat silent_step|].
  apply (disciplined_bind 0 hi hi); [lia..| |intros ?; apply silent_disciplined, silent_apply_update].
  by apply (search_sources_disciplined world py_str self mid).
Qed.

Lemma request_ranks_requests evs :
  length (requests evs) = length (request_ranks evs).
Proof.
  unfold requests, request_ranks. induction evs as [|ev evs IH]; [done|].
  rewrite filter_cons. destruct ev; simpl; try done. by f_equal.
Qed.

(** X9: [process_file] calls [rate_limit] directly before every request it
    sends, and sends its requests in the order MusicBrainz search,
    MusicBrainz artist, Last.fm, Discogs search, Discogs release, each kind
    at most once: at most five requests for a file. *)
Theorem process_file_requests_paced world py_str self file_path st :
  ∃ evs, trace (process_file world py_str self file_path st).2 = trace st ++ evs
         ∧ paced evs = true
         ∧ within 0 5 (request_ranks evs)
         ∧ (length (requests evs) ≤ 5)%nat.
Proof.
  destruct (process_file_disciplined world py_str self 3 5 file_path) with (st := st)
    as (evs & Ht & Hp & Hw); [lia..| | |].
  - intros. apply search_lastfm_disciplined.
  - intros. apply search_discogs_disciplined.
  - exists evs. repeat split; [done..|].
    rewrite request_ranks_requests. apply within_length in Hw. lia.
Qed.

(** X10: without a Last.fm key and a Discogs token (each empty or the
    placeholder of the example file) [process_file] sends requests to
    MusicBrainz only: at most a recording search and then an artist
    lookup. *)
Theorem process_file_musicbrainz_only world py_str self file_path st :
  unconfigured (lastfm_api_key self) "YOUR_LASTFM_API_KEY_HERE" = true →
  unconfigured (discogs_token self) "YOUR_DISCOGS_TOKEN_HERE" = true →
  ∃ evs, trace (process_file world py_str self file_path st).2 = trace st ++ evs
         ∧ paced evs = true
         ∧ within 0 2 (request_ranks evs).
Proof.
  intros Hl Hd.
  apply (process_file_disciplined world py_str self 2 2 file_path); [lia..| |].
  - intros. by apply silent_disciplined, search_lastfm_silent.
  - intros. by apply silent_disciplined, search_discogs_silent.
Qed.

Lemma process_file_musicbrainz_only_witness :
  let self := new_enricher None in
  let st := Examples.disk Examples.daft in
  unconfigured (lastfm_api_key self) "YOUR_LASTFM_API_KEY_HERE" = true
  ∧ unconfigured (discogs_token self) "YOUR_DISCOGS_TOKEN_HERE" = true
  ∧ ∃ evs,
      trace (process_file Examples.scenario Examples.str self "music/a.mp3" st).2
      = trace st ++ evs
      ∧ paced evs = true
      ∧ within 0 2 (request_ranks evs).
Proof.
  intros self st. split; [reflexivity|]. split; [reflexivity|].
  apply (process_file_musicbrainz_only Examples.scenario Examples.str self
           "music/a.mp3" st); reflexivity.
Defined.

Lemma run_pool_paced world py_str self audio_files st :
  ∃ evs, trace (run_pool world py_str self audio_files st).2 = trace st ++ evs
         ∧ paced evs = true
         ∧ (length (requests evs) ≤ 5 * length audio_files)%nat.
Proof.
  revert st. induction audio_files as [|file_path rest IH]; intros st.
  - exists []. simpl. rewrite app_nil_r. split; [done|]. split; [done|]. simpl. lia.
  - cbn [run_pool].
    assert (Hfile : disciplined 0 5
              (try_except (process_file world py_str self file_path)
                 (λ e, log ERROR (MsgProcessError file_path e) ;;;
                       ret {| file := path_name file_path; status := "error";
                              updated := None; metadata := None;
                              error := Some e |}))).
    { apply (disciplined_try 0 5 5); [lia..| |].
      - apply (process_file_disciplined world py_str self 3 5); [lia..| |].
        + intros. apply search_lastfm_disciplined.
        + intros. apply search_discogs_disciplined.
      - intros e. apply silent_disciplined. repeat silent_step. }
    destruct (Hfile st) as (evs & Ht & Hp & Hw). unfold bind at 1.
    destruct (try_except _ _ st) as [[o|e] st1]; simpl in Ht.
    + destruct (IH st1) as (evs' & Ht' & Hp' & Hn'). unfold bind.
      destruct (run_pool world py_str self rest st1) as [[results|e] st2];
        simpl in *; exists (evs ++ evs');
        (split; [by rewrite Ht', Ht, app_assoc|]);
        (split; [by apply paced_app|]);
        apply within_length in Hw; rewrite requests_app, length_app,
          request_ranks_requests; lia.
    + exists evs. simpl. split; [done|]. split; [done|].
      apply within_length in Hw. rewrite request_ranks_requests. lia.
Qed.

Lemma requests_log l m evs : requests (EvLog l m :: evs) = requests evs.
Proof. unfold requests. by rewrite filter_cons. Qed.

(** X11: over a whole run of [process_directory], the files processed one
    after the other, every request comes directly after a call of
    [rate_limit], and there are at most five requests for each file that
    matches the extension; none when the directory does not exist. *)
Theorem process_directory_requests_paced world py_str self directory listing st :
  ∃ evs,
    trace (process_directory world py_str self directory listing st).2
    = trace st ++ evs
    ∧ paced evs = true
    ∧ (length (requests evs) ≤ 5 * length (default [] (glob <$> listing)))%nat.
Proof.
  destruct listing as [entries|]; simpl.
  - unfold process_directory. unfold log at 1. rewrite bind_emit.
    destruct (glob entries) as [|f rest] eqn:E.
    + eexists [_; _]. simpl. rewrite <- app_assoc. by repeat split.
    + destruct (run_pool_paced world py_str self (f :: rest)
                  (after st [EvLog INFO (MsgFound (length (f :: rest)))]))
        as (evs & Ht & Hp & Hn).
      unfold bind. destruct (run_pool _ _ _ _ _) as [[results|e] st1];
        simpl in Ht.
      * destruct (silent_print_summary results st1) as (evs' & Ht' & Hp' & Hr').
        exists (EvLog INFO (MsgFound (length (f :: rest))) :: evs ++ evs').
        rewrite Ht', Ht. simpl. rewrite <- !app_assoc. split; [done|].
        split; [by apply paced_app|].
        rewrite requests_log, requests_app, length_app,
          (request_ranks_requests evs'), Hr'.
        simpl in *. lia.
      * exists (EvLog INFO (MsgFound (length (f :: rest))) :: evs).
        simpl. rewrite Ht. simpl. rewrite <- !app_assoc.
        split; [done|]. split; [done|]. rewrite requests_log. simpl in *. lia.
  - exists [EvLog ERROR (MsgDirectoryMissing directory)]. by repeat split.
Qed.

(** ** Writing is all or nothing *)

Lemma update_metadata_saved file_path nm st :
  ∃ b st', update_metadata file_path nm st = (Ok b, st')
    ∧ (b = false → files st' = files st)
    ∧ (b = true →
       ∃ tags tags',
         files st !! file_path = Some (Audio tags false)
         ∧ files st' = <[file_path := Audio tags' false]> (files st)
         ∧ EvSave file_path ∈ trace st').
Proof.
  unfold update_metadata, File, save, log, try_except, bind, emit, lift, ret,
    raise, set_tag.
  simpl.
  destruct (files st !! file_path) as [[|tags sf]|] eqn:Hfile; simpl;
    [eexists _, _; split; [reflexivity|]; split; [done|discriminate]| |
     eexists _, _; split; [reflexivity|]; split; [done|discriminate]].
  destruct (truthy (dict_get nm "genre")), (truthy (dict_get nm "year")),
    (truthy (dict_get nm "mood")), tags as [tags|], sf; simpl;
    eexists _, _; (split; [reflexivity|]); simpl;
    (split; [try done; discriminate|]);
    try discriminate; intros _; eexists _, _;
    (split; [reflexivity|]); (split; [reflexivity|]);
    rewrite !elem_of_app, !elem_of_cons; tauto.
Qed.

Lemma apply_update_saved file_path nm st :
  ∃ o st', apply_update file_path nm st = (Ok o, st')
    ∧ (status o = "updated" ∨ status o = "not_found")
    ∧ (status o = "not_found" → files st' = files st)
    ∧ (status o = "updated" →
       metadata o = Some nm ∧ dict_truthy nm = true
       ∧ ∃ tags tags',
           files st !! file_path = Some (Audio tags false)
           ∧ files st' = <[file_path := Audio tags' false]> (files st)).
Proof.
  unfold apply_update. destruct (dict_truthy nm) eqn:Hnm.
  - destruct (update_metadata_saved file_path nm st)
      as (b & st1 & Hrun & Hfalse & Htrue).
    rewrite (bind_ok _ _ _ _ _ Hrun). unfold log.
    destruct b; rewrite bind_emit; eexists _, _; (split; [reflexivity|]); simpl.
    + split; [by left|]. split; [discriminate|]. intros _.
      destruct (Htrue eq_refl) as (tags & tags' & ? & ? & _). eauto 6.
    + split; [by right|]. split; [auto|discriminate].
  - unfold log. rewrite bind_emit. eexists _, _. split; [reflexivity|]. simpl.
    split; [by right|]. split; [done|discriminate].
Qed.

(** X12: [update_metadata] never raises and writes all or nothing: when it
    returns false no file has changed; it returns true only for a file
    that [File] reads as an audio object whose [save] succeeds, after
    calling [save], and changes that file alone. *)
Theorem update_metadata_all_or_nothing file_path nm st :
  ∃ b st', update_metadata file_path nm st = (Ok b, st')
    ∧ if b
      then ∃ tags tags',
             files st !! file_path = Some (Audio tags false)
             ∧ files st' = <[file_path := Audio tags' false]> (files st)
             ∧ EvSave file_path ∈ trace st'
      else files st' = files st.
Proof.
  destruct (update_metadata_saved file_path nm st) as (b & st' & Hrun & Hf & Ht).
  exists b, st'. split; [done|]. destruct b; auto.
Qed.

(** X13: [process_file] changes the files only on the path that reports
    [updated]: whenever it raises, or returns another status, every file
    is as before; and an [updated] record carries the non-empty metadata
    that was written to the file, which was a saveable audio object. *)
Theorem process_file_writes_only_when_updated world py_str self file_path st :
  let run := process_file world py_str self file_path st in
  files run.2 = files st
  ∨ ∃ o nm tags tags',
      run.1 = Ok o ∧ status o = "updated" ∧ metadata o = Some nm
      ∧ dict_truthy nm = true
      ∧ files st !! file_path = Some (Audio tags false)
      ∧ files run.2 = <[file_path := Audio tags' false]> (files st).
Proof.
  intros run. subst run. rewrite process_file_eq.
  set (m := existing (files st) file_path).
  destruct (missing_fields_of m) eqn:Emiss; [by left|].
  destruct (_ || _); [by left|].
  rewrite <- Emiss. clear Emiss. unfold bind.
  destruct (search_sources_quiet world py_str self (missing_fields_of m)
              (artist_of m) (title_of m) (after_extract file_path st))
    as [evs Hquiet].
  destruct (search_sources _ _ _ _ _ _ _) as [[a|e] st2]; simpl in Hquiet;
    subst st2; [|by left].
  destruct (apply_update_saved file_path a.1
              (after (after_extract file_path st) evs))
    as (o & st' & -> & Hstatus & Hnot & Hupd).
  simpl. destruct Hstatus as [Hs|Hs].
  - right. destruct (Hupd Hs) as (? & ? & tags & tags' & ? & ?).
    by exists o, a.1, tags, tags'.
  - left. by apply Hnot.
Qed.

(** ** The search on results of the expected types *)

Lemma field_ok_item d k check :
  field_ok d k check = true → truthy (dict_get d k) = true →
  ∃ v, dict_item d k = Ok v ∧ check v = true ∧ truthy v = true.
Proof.
  unfold field_ok, dict_get, dict_item. destruct (d !! k) as [v|]; [|done].
  intros. by exists v.
Qed.

Lemma is_str_list_first v :
  is_str_list v = true → truthy v = true →
  py_is_list v = true ∧ ∃ x, py_getitem0 v = Ok x ∧ is_str x = true.
Proof.
  destruct v as [| | | | |[|x l]|]; try done. simpl.
  intros [? _]%andb_true_iff _. split; [done|]. by exists x.
Qed.

Lemma is_str_list_all_str l : forallb is_str l = true → is_Some (all_str l).
Proof.
  induction l as [|[] l IH]; simpl; try done.
  intros H. destruct (IH H) as [ts ->]. done.
Qed.

Lemma py_classify_mood_typed tags genre :
  is_str_list tags = true → is_str genre = true →
  ∃ mood, py_classify_mood tags genre = Ok mood.
Proof.
  destruct tags as [| | | | |l|]; try done. destruct genre; try done.
  simpl. intros [ts ->]%is_str_list_all_str _. by eexists.
Qed.

(** One statement on typed data: it assigns or does nothing, and the genre
    found stays a string. *)
Ltac typed_stmt :=
  match goal with
  | |- ∃ a', (if ?b then _ else _) = Ok a' ∧ _ =>
      let Hcond := fresh "Hcond" in
      destruct b eqn:Hcond; [|by eexists];
      rewrite ?andb_true_iff in Hcond
  end.

Lemma musicbrainz_genre_typed missing mb a :
  field_ok mb "genre" is_str_list = true → is_str a.2 = true →
  ∃ a', musicbrainz_genre missing mb a = Ok a' ∧ is_str a'.2 = true.
Proof.
  intros Hf Ha. unfold musicbrainz_genre. typed_stmt.
  destruct (field_ok_item _ _ _ Hf (proj2 Hcond)) as (g & -> & Hg & Hg').
  cbn [rbind].
  destruct (is_str_list_first g Hg Hg') as (-> & x & -> & Hx).
  simpl. by eexists.
Qed.

Lemma musicbrainz_year_typed missing mb a :
  field_ok mb "date" is_str = true → is_str a.2 = true →
  ∃ a', musicbrainz_year missing mb a = Ok a' ∧ is_str a'.2 = true.
Proof.
  intros Hf Ha. unfold musicbrainz_year. typed_stmt.
  destruct (field_ok_item _ _ _ Hf (proj2 Hcond)) as (d & -> & Hd & _).
  destruct d; try done. simpl. by eexists.
Qed.

Lemma lastfm_genre_typed missing lfm a :
  field_ok lfm "genre" is_str = true → is_str a.2 = true →
  ∃ a', lastfm_genre missing lfm a = Ok a' ∧ is_str a'.2 = true.
Proof.
  intros Hf Ha. unfold lastfm_genre. typed_stmt.
  destruct (field_ok_item _ _ _ Hf (proj2 Hcond)) as (g & -> & Hg & _).
  simpl. by eexists.
Qed.

Lemma lastfm_year_typed missing lfm a :
  is_str a.2 = true →
  ∃ a', lastfm_year missing lfm a = Ok a' ∧ is_str a'.2 = true.
Proof.
  intros Ha. unfold lastfm_year. typed_stmt.
  destruct (field_ok_item lfm "year" (λ _, true)) as (y & -> & _);
    [unfold field_ok; by destruct (_ !! _)|tauto|].
  simpl. by eexists.
Qed.

Lemma lastfm_mood_typed missing lfm a :
  field_ok lfm "mood" is_str_list = true → is_str a.2 = true →
  ∃ a', lastfm_mood missing lfm a = Ok a' ∧ is_str a'.2 = true.
Proof.
  intros Hf Ha. unfold lastfm_mood. typed_stmt.
  destruct (field_ok_item _ _ _ Hf (proj2 Hcond)) as (tags & -> & Ht & _).
  cbn [rbind].
  destruct (py_classify_mood_typed tags a.2 Ht Ha) as [mood ->].
  simpl. by eexists.
Qed.

Lemma discogs_year_typed py_str missing dg a :
  is_str a.2 = true →
  ∃ a', discogs_year py_str missing dg a = Ok a' ∧ is_str a'.2 = true.
Proof.
  intros Ha. unfold discogs_year. typed_stmt.
  destruct (field_ok_item dg "year" (λ _, true)) as (y & -> & _);
    [unfold field_ok; by destruct (_ !! _)|tauto|].
  simpl. by eexists.
Qed.

Lemma discogs_genre_typed missing dg a :
  field_ok dg "genre" is_str_list = true → is_str a.2 = true →
  ∃ a', discogs_genre missing dg a = Ok a' ∧ is_str a'.2 = true.
Proof.
  intros Hf Ha. unfold discogs_genre. typed_stmt.
  destruct (field_ok_item _ _ _ Hf (proj2 Hcond)) as (g & -> & Hg & Hg').
  cbn [rbind]. rewrite Hg'.
  destruct (is_str_list_first g Hg Hg') as (_ & x & -> & Hx).
  simpl. by eexists.
Qed.

Lemma mood_from_genre_typed missing a :
  is_str a.2 = true → ∃ a', mood_from_genre missing a = Ok a'.
Proof.
  intros Ha. unfold mood_from_genre.
  destruct (_ && _); [|by eexists].
  destruct (py_classify_mood_typed (PList []) a.2 eq_refl Ha) as [mood ->].
  simpl. by eexists.
Qed.

Lemma merge_musicbrainz_typed missing mb a :
  typed_musicbrainz mb = true → is_str a.2 = true →
  ∃ a', merge_musicbrainz missing mb a = Ok a' ∧ is_str a'.2 = true.
Proof.
  intros [Hg Hd]%andb_true_iff Ha. unfold merge_musicbrainz.
  destruct (dict_truthy mb); [|by eexists].
  destruct (musicbrainz_genre_typed missing mb a Hg Ha) as (a1 & -> & Ha1).
  cbn [rbind].
  apply (musicbrainz_year_typed missing mb a1 Hd Ha1).
Qed.

Lemma merge_lastfm_typed missing lfm a :
  typed_lastfm lfm = true → is_str a.2 = true →
  ∃ a', merge_lastfm missing lfm a = Ok a' ∧ is_str a'.2 = true.
Proof.
  intros [Hg Hm]%andb_true_iff Ha. unfold merge_lastfm.
  destruct (dict_truthy lfm); [|by eexists].
  destruct (lastfm_genre_typed missing lfm a Hg Ha) as (a1 & -> & Ha1).
  cbn [rbind].
  destruct (lastfm_year_typed missing lfm a1 Ha1) as (a2 & -> & Ha2).
  cbn [rbind].
  apply (lastfm_mood_typed missing lfm a2 Hm Ha2).
Qed.

Lemma merge_discogs_typed py_str missing dg a :
  typed_discogs dg = true → is_str a.2 = true →
  ∃ a', merge_discogs py_str missing dg a = Ok a' ∧ is_str a'.2 = true.
Proof.
  intros Hg Ha. unfold merge_discogs.
  destruct (dict_truthy dg); [|by eexists].
  destruct (discogs_year_typed py_str missing dg a Ha) as (a1 & -> & Ha1).
  cbn [rbind].
  apply (discogs_genre_typed missing dg a1 Hg Ha1).
Qed.

(** X14: on results of the expected types the search raises nothing: the
    three merges and the mood fallback run to the end, whatever fields are
    missing and whatever the values are. *)
Theorem merge_sources_well_formed py_str missing mb lfm dg :
  well_formed mb lfm dg = true →
  ∃ a, merge_sources py_str missing mb lfm dg = Ok a.
Proof.
  unfold well_formed. rewrite !andb_true_iff.
  intros ((Hmb & Hlfm) & Hdg). unfold merge_sources.
  destruct (merge_musicbrainz_typed missing mb (∅, PStr "") Hmb eq_refl)
    as (a1 & -> & H1).
  cbn [rbind].
  destruct (merge_lastfm_typed missing lfm a1 Hlfm H1) as (a2 & -> & H2).
  cbn [rbind].
  destruct (merge_discogs_typed py_str missing dg a2 Hdg H2) as (a3 & -> & H3).
  cbn [rbind].
  by apply mood_from_genre_typed.
Qed.

Lemma merge_sources_well_formed_witness :
  let mb : gmap string pyval :=
    list_to_map [("genre", PList [PStr "Funk"]); ("date", PStr "2013-04-19")] in
  let lfm : gmap string pyval :=
    list_to_map [("genre", PStr ""); ("mood", PList [PStr "dance"]);
                 ("year", PInt 2013)] in
  let dg : gmap string pyval :=
    list_to_map [("genre", PList []); ("year", PInt 2013)] in
  well_formed mb lfm dg = true
  ∧ ∃ a, merge_sources Examples.str ["genre"; "year"; "mood"] mb lfm dg = Ok a.
Proof.
  intros mb lfm dg. split; [reflexivity|].
  apply (merge_sources_well_formed Examples.str ["genre"; "year"; "mood"] mb lfm dg).
  reflexivity.
Defined.

(** ** Where an exception of [process_file] comes from *)

Lemma search_sources_raises world py_str self missing artist title st e :
  (search_sources world py_str self missing artist title st).1 = Raise e →
  ∃ mb st1,
    search_musicbrainz world artist title st = (Ok mb, st1)
    ∧ (typed_musicbrainz mb = false
       ∨ ∃ lfm st2,
           search_lastfm world self artist title st1 = (Ok lfm, st2)
           ∧ (typed_lastfm lfm = false
              ∨ ∃ dg st3,
                  search_discogs world self artist title st2 = (Ok dg, st3)
                  ∧ typed_discogs dg = false)).
Proof.
  unfold search_sources. intros H.
  destruct (total_run _ st (search_musicbrainz_total world artist title))
    as (mb & st1 & Hmb).
  exists mb, st1. split; [done|]. rewrite (bind_ok _ _ _ _ _ Hmb) in H.
  destruct (typed_musicbrainz mb) eqn:Tmb; [right|by left].
  destruct (merge_musicbrainz_typed missing mb (∅, PStr "") Tmb eq_refl)
    as (a1 & E1 & H1).
  rewrite E1, bind_lift_ok in H.
  destruct (total_run _ st1 (search_lastfm_total world self artist title))
    as (lfm & st2 & Hlfm).
  exists lfm, st2. split; [done|]. rewrite (bind_ok _ _ _ _ _ Hlfm) in H.
  destruct (typed_lastfm lfm) eqn:Tlfm; [right|by left].
  destruct (merge_lastfm_typed missing lfm a1 Tlfm H1) as (a2 & E2 & H2).
  rewrite E2, bind_lift_ok in H.
  destruct (total_run _ st2 (search_discogs_total world self artist title))
    as (dg & st3 & Hdg).
  exists dg, st3. split; [done|]. rewrite (bind_ok _ _ _ _ _ Hdg) in H.
  destruct (typed_discogs dg) eqn:Tdg; [exfalso|done].
  destruct (merge_discogs_typed py_str missing dg a2 Tdg H2) as (a3 & E3 & H3).
  rewrite E3, bind_lift_ok in H.
  destruct (mood_from_genre_typed missing a3 H3) as (a & E).
  rewrite E in H. discriminate.
Qed.

(** X15: the only exceptions [process_file] lets out come from merging a
    result of an unexpected type: when it raises, the file had artist and
    title and a missing field, and one of the clients that ran returned a
    result that is not of the expected types (each client runs only if the
    results before it were merged without an exception). *)
Theorem process_file_raises_on_untyped_result world py_str self file_path st e :
  (process_file world py_str self file_path st).1 = Raise e →
  let m := existing (files st) file_path in
  missing_fields_of m ≠ []
  ∧ truthy (artist_of m) = true ∧ truthy (title_of m) = true
  ∧ ∃ mb st1,
      search_musicbrainz world (artist_of m) (title_of m)
        (after_extract file_path st) = (Ok mb, st1)
      ∧ (typed_musicbrainz mb = false
         ∨ ∃ lfm st2,
             search_lastfm world self (artist_of m) (title_of m) st1 = (Ok lfm, st2)
             ∧ (typed_lastfm lfm = false
                ∨ ∃ dg st3,
                    search_discogs world self (artist_of m) (title_of m) st2
                    = (Ok dg, st3)
                    ∧ typed_discogs dg = false)).
Proof.
  intros H m. rewrite process_file_eq in H. fold m in H.
  destruct (missing_fields_of m) eqn:Emiss; [discriminate|].
  destruct (truthy (artist_of m)), (truthy (title_of m)); try discriminate.
  split; [done|]. split; [done|]. split; [done|].
  rewrite <- Emiss in H. simpl in H.
  apply (search_sources_raises world py_str self (missing_fields_of m) _ _ _ e).
  unfold bind in H.
  destruct (search_sources _ _ _ _ _ _ _) as [[a|e'] st2]; [|simpl in *; congruence].
  destruct (apply_update_saved file_path a.1 st2) as (o & st' & Ho & _).
  rewrite Ho in H. discriminate.
Qed.

Lemma process_file_raises_on_untyped_result_witness :
  let st := Examples.disk Examples.daft in
  let m := existing (files st) "music/a.mp3" in
  missing_fields_of m ≠ []
  ∧ truthy (artist_of m) = true ∧ truthy (title_of m) = true
  ∧ ∃ mb st1,
      search_musicbrainz Examples.numeric_date (artist_of m) (title_of m)
        (after_extract "music/a.mp3" st) = (Ok mb, st1)
      ∧ (typed_musicbrainz mb = false
         ∨ ∃ lfm st2,
             search_lastfm Examples.numeric_date Examples.keys
               (artist_of m) (title_of m) st1 = (Ok lfm, st2)
             ∧ (typed_lastfm lfm = false
                ∨ ∃ dg st3,
                    search_discogs Examples.numeric_date Examples.keys
                      (artist_of m) (title_of m) st2 = (Ok dg, st3)
                    ∧ typed_discogs dg = false)).
Proof.
  apply (process_file_raises_on_untyped_result Examples.numeric_date
           Examples.str Examples.keys "music/a.mp3"
           (Examples.disk Examples.daft) TypeError).
  vm_compute. reflexivity.
Defined.

(** ** What the clients return *)

Lemma returns_ret {A} (P : A → Prop) a : P a → returns P (ret a).
Proof. intros H st a' st' [= <- _]. done. Qed.

Lemma returns_lift {A} (P : A → Prop) (r : result A) :
  (∀ a, r = Ok a → P a) → returns P (lift r).
Proof. intros H st a st' [= -> _]. by apply H. Qed.

Lemma returns_any {A} (m : M A) : returns (λ _, True) m.
Proof. done. Qed.

Lemma returns_bind {A B} (Q : A → Prop) (P : B → Prop) (m : M A) (k : A → M B) :
  returns Q m → (∀ a, Q a → returns P (k a)) → returns P (bind m k).
Proof.
  intros Hm Hk st b st' H. apply bind_ok_inv in H as (a & st1 & Ha & Hb).
  eapply Hk; [|exact Hb]. eapply Hm, Ha.
Qed.

Lemma returns_then {A B} (P : B → Prop) (m : M A) (k : A → M B) :
  (∀ a, returns P (k a)) → returns P (bind m k).
Proof. intros Hk. apply (returns_bind (λ _, True)); [done|auto]. Qed.

Lemma returns_try {A} (P : A → Prop) (body : M A) (handler : exn → M A) :
  returns P body → (∀ e, returns P (handler e)) → returns P (try_except body handler).
Proof.
  intros Hb Hh st a st'. unfold try_except.
  destruct (body st) as [[a'|e] st1] eqn:E.
  - intros [= <- <-]. eapply Hb, E.
  - apply Hh.
Qed.

Lemma py_slice_at_most n v y : py_slice n v = Ok y → at_most n y.
Proof.
  destruct v as [| | | |s|l|]; try discriminate; intros [= <-]; simpl.
  - revert n. induction s as [|c s IH]; intros [|n]; simpl; try lia.
    specialize (IH n). lia.
  - rewrite length_take. lia.
Qed.

Lemma length_chars s : length (chars s) = String.length s.
Proof. induction s; simpl; by f_equal. Qed.

Lemma rmap_length {A B} (f : A → result B) l l' :
  rmap f l = Ok l' → length l' = length l.
Proof.
  revert l'. induction l as [|x l IH]; intros l'; simpl; [by intros [= <-]|].
  destruct (f x); [|discriminate]. simpl.
  destruct (rmap f l) as [ys|]; [|discriminate]. simpl.
  intros [= <-]. simpl. f_equal. by apply IH.
Qed.

Lemma top_tags_length v names :
  (let? top := py_slice 5 v in
   let? items := py_iter top in
   rmap (λ tag, py_getitem tag "name") items) = Ok names →
  (length names ≤ 5)%nat.
Proof.
  destruct (py_slice 5 v) as [top|] eqn:E; [|discriminate]. simpl.
  apply py_slice_at_most in E.
  destruct top as [| | | |s|l|]; try done; simpl; intros H%rmap_length.
  - rewrite H, length_fmap, length_chars. exact E.
  - rewrite H. exact E.
Qed.

Lemma musicbrainz_shape title artist date genres :
  musicbrainz_result
    (<["genre" := PList genres]> (<["date" := date]>
       (<["artist" := artist]> (<["title" := title]> ∅)))).
Proof. right. by exists title, artist, date, genres. Qed.

Lemma get_musicbrainz_genres_returns world artist_id :
  returns (λ v, ∃ g, v = PList g) (get_musicbrainz_genres world artist_id).
Proof.
  unfold get_musicbrainz_genres. apply returns_try.
  - repeat (apply returns_then; intros ?). apply returns_ret. by eexists.
  - intros e. apply returns_then; intros _. apply returns_ret. by eexists.
Qed.

Lemma search_musicbrainz_returns world artist title :
  returns musicbrainz_result (search_musicbrainz world artist title).
Proof.
  unfold search_musicbrainz.
  apply returns_try; [|intros e; apply returns_then; intros _; apply returns_ret; by left].
  repeat (apply returns_then; intros ?).
  destruct (truthy _); [|apply returns_ret; by left].
  repeat (apply returns_then; intros ?).
  destruct (truthy _); [|apply returns_ret, musicbrainz_shape].
  apply returns_then; intros ?.
  destruct (truthy _); [|apply returns_ret, musicbrainz_shape].
  apply (returns_bind (λ v, ∃ g, v = PList g));
    [apply get_musicbrainz_genres_returns|].
  intros v [g ->]. apply returns_ret.
  rewrite insert_insert_eq. apply musicbrainz_shape.
Qed.

Lemma search_lastfm_returns world self artist title :
  returns lastfm_result (search_lastfm world self artist title).
Proof.
  unfold search_lastfm. destruct (_ || _); [apply returns_ret; by left|].
  apply returns_try; [|intros e; apply returns_then; intros _; apply returns_ret; by left].
  do 4 (apply returns_then; intros ?).
  apply returns_then; intros has_track.
  destruct has_track; [|apply returns_ret; by left].
  apply returns_then; intros track.
  apply returns_then; intros has_toptags.
  apply returns_then; intros has_tag.
  apply (returns_bind (λ names : list pyval, (length names ≤ 5)%nat)).
  { destruct has_tag; [|apply returns_ret; simpl; lia].
    apply returns_lift. intros names.
    destruct (py_getitem track "toptags") as [toptags|]; [|discriminate].
    cbn [rbind].
    destruct (py_getitem toptags "tag") as [tag|]; [|discriminate].
    cbn [rbind]. apply top_tags_length. }
  intros mood_tags Hmood.
  do 2 (apply returns_then; intros ?).
  apply (returns_bind (at_most 4)).
  { destruct (truthy _); [|apply returns_ret; simpl; lia].
    apply returns_lift. intros year.
    destruct (py_get track "wiki" (PDict ∅)) as [wiki|]; [|discriminate].
    cbn [rbind].
    destruct (py_get wiki "published" (PStr "")) as [p|]; [|discriminate].
    cbn [rbind]. apply py_slice_at_most. }
  intros year Hyear. apply returns_ret. right. by eexists _, mood_tags, year.
Qed.

Lemma search_discogs_returns world self artist title :
  returns discogs_result (search_discogs world self artist title).
Proof.
  unfold search_discogs. destruct (_ || _); [apply returns_ret; by left|].
  apply returns_try; [|intros e; apply returns_then; intros _; apply returns_ret; by left].
  do 5 (apply returns_then; intros ?).
  destruct (truthy _); [|apply returns_ret; by left].
  repeat (apply returns_then; intros ?).
  apply returns_ret. right. by eexists _, _, _.
Qed.

(** X16: each client returns, whatever the service sends, the empty
    dictionary or a dictionary with exactly its own keys: MusicBrainz
    title, artist, date and genre, the genre a list; Last.fm genre, mood and
    year, the mood a list of at most five tags and the year a string or
    list of at most four elements; Discogs year, genre and style. *)
Theorem clients_result_shapes world self artist title st :
  (∃ d st', search_musicbrainz world artist title st = (Ok d, st')
            ∧ musicbrainz_result d)
  ∧ (∃ d st', search_lastfm world self artist title st = (Ok d, st')
              ∧ lastfm_result d)
  ∧ (∃ d st', search_discogs world self artist title st = (Ok d, st')
              ∧ discogs_result d).
Proof.
  split; [|split].
  - destruct (total_run _ st (search_musicbrainz_total world artist title))
      as (d & st' & H).
    exists d, st'. split; [done|]. eapply search_musicbrainz_returns, H.
  - destruct (total_run _ st (search_lastfm_total world self artist title))
      as (d & st' & H).
    exists d, st'. split; [done|]. eapply search_lastfm_returns, H.
  - destruct (total_run _ st (search_discogs_total world self artist title))
      as (d & st' & H).
    exists d, st'. split; [done|]. eapply search_discogs_returns, H.
Qed.

(** ** The report on the credentials *)

Lemma configured_unconfigured key placeholder :
  truthy key && negb (py_eq_str key placeholder) = negb (unconfigured key placeholder).
Proof. unfold unconfigured. by destruct (truthy key), (py_eq_str key placeholder). Qed.

(** X17: [check_api_keys] never raises and logs, after a warning for each
    of Last.fm and Discogs whose credential is empty or the placeholder,
    one list of services that always ends with MusicBrainz; and the list
    agrees with the clients: a service of the two that is not listed is
    never asked, its client returning the empty dictionary at once. *)
Theorem check_api_keys_agrees_with_clients world self artist title st st' :
  check_api_keys self st
  = (Ok (), after st (key_warnings self
                      ++ [EvLog INFO (MsgAvailableApis (available_apis self))]))
  ∧ last (available_apis self) = Some "MusicBrainz"
  ∧ ("Last.fm" ∈ available_apis self
     ∨ search_lastfm world self artist title st' = (Ok ∅, st'))
  ∧ ("Discogs" ∈ available_apis self
     ∨ search_discogs world self artist title st' = (Ok ∅, st')).
Proof.
  unfold check_api_keys, available_apis, key_warnings, search_lastfm,
    search_discogs.
  rewrite !configured_unconfigured.
  change (negb (truthy (lastfm_api_key self))
          || py_eq_str (lastfm_api_key self) "YOUR_LASTFM_API_KEY_HERE")
    with (unconfigured (lastfm_api_key self) "YOUR_LASTFM_API_KEY_HERE").
  change (negb (truthy (discogs_token self))
          || py_eq_str (discogs_token self) "YOUR_DISCOGS_TOKEN_HERE")
    with (unconfigured (discogs_token self) "YOUR_DISCOGS_TOKEN_HERE").
  destruct (unconfigured (lastfm_api_key self) _),
    (unconfigured (discogs_token self) _),
    (truthy (spotify_client_id self) && truthy (spotify_client_secret self));
    unfold after, bind, log, emit, ret; simpl; rewrite <- ?app_assoc; simpl;
    (split; [reflexivity|]); (split; [reflexivity|]);
    split; first [by right | left; rewrite !elem_of_cons; tauto].
Qed.

(** ** The search terms *)

Lemma has_quote_cons c s :
  is_substring (String dquote "") (String c s)
  = Ascii.eqb dquote c || is_substring (String dquote "") s.
Proof.
  cbn [is_substring starts_with]. by destruct (Ascii.eqb dquote c).
Qed.

Lemma remove_quotes_free s : is_substring (String dquote "") (remove_quotes s) = false.
Proof.
  induction s as [|c s IH]; [done|]. cbn [remove_quotes].
  destruct (Ascii.eqb c dquote) eqn:E; [done|].
  rewrite has_quote_cons, IH, Ascii.eqb_sym, E. done.
Qed.

Lemma remove_quotes_same s :
  is_substring (String dquote "") s = false → remove_quotes s = s.
Proof.
  induction s as [|c s IH]; [done|]. rewrite has_quote_cons.
  intros [Hc Hs]%orb_false_iff. cbn [remove_quotes].
  rewrite Ascii.eqb_sym, Hc. f_equal. by apply IH.
Qed.

Lemma lstrip_free s :
  is_substring (String dquote "") s = false →
  is_substring (String dquote "") (lstrip s) = false.
Proof.
  induction s as [|c s IH]; [done|]. intros H. cbn [lstrip].
  destruct (is_space c); [|done]. apply IH.
  rewrite has_quote_cons in H. by apply orb_false_iff in H as [_ ?].
Qed.

Lemma rstrip_free s :
  is_substring (String dquote "") s = false →
  is_substring (String dquote "") (rstrip s) = false.
Proof.
  induction s as [|c s IH]; [done|]. rewrite has_quote_cons.
  intros [Hc Hs]%orb_false_iff. specialize (IH Hs). cbn [rstrip].
  destruct (rstrip s) as [|d r].
  - destruct (is_space c); [done|]. rewrite has_quote_cons, Hc. done.
  - rewrite has_quote_cons, Hc. exact IH.
Qed.

Lemma rstrip_idem s : rstrip (rstrip s) = rstrip s.
Proof.
  induction s as [|c s IH]; [done|]. cbn [rstrip].
  destruct (rstrip s) as [|d r] eqn:E.
  - destruct (is_space c) eqn:Hc; [done|]. simpl. by rewrite Hc.
  - change (rstrip (String c (String d r))) with
      (match rstrip (String d r) with
       | EmptyString => if is_space c then EmptyString else String c EmptyString
       | r' => String c r'
       end).
    by rewrite IH.
Qed.

Lemma lstrip_head s :
  lstrip s = "" ∨ ∃ c t, lstrip s = String c t ∧ is_space c = false.
Proof.
  induction s as [|c s IH]; [by left|]. cbn [lstrip].
  destruct (is_space c) eqn:Hc; [done|]. right. by exists c, s.
Qed.

Lemma rstrip_head c t :
  is_space c = false → ∃ t', rstrip (String c t) = String c t'.
Proof.
  intros Hc. cbn [rstrip]. destruct (rstrip t); [|by eexists].
  rewrite Hc. by eexists.
Qed.

Lemma strip_idem s : strip (strip s) = strip s.
Proof.
  unfold strip. destruct (lstrip_head s) as [->|(c & t & -> & Hc)]; [done|].
  destruct (rstrip_head c t Hc) as [t' E]. rewrite E.
  cbn [lstrip]. rewrite Hc, <- E. apply rstrip_idem.
Qed.

(** X18: the cleaning of a search term, which removes the double quotes
    and then strips, gives a string without double quote and without
    white space at either end, whatever the string; so cleaning the result
    again changes nothing. *)
Theorem py_clean_clean v s :
  py_clean v = Ok s →
  is_substring (String dquote "") s = false
  ∧ strip s = s
  ∧ py_clean (PStr s) = Ok s.
Proof.
  destruct v as [| | | |s0| |]; try discriminate. intros [= <-].
  assert (Hfree : is_substring (String dquote "") (strip (remove_quotes s0)) = false).
  { apply rstrip_free, lstrip_free, remove_quotes_free. }
  split; [done|]. split; [apply strip_idem|].
  simpl. by rewrite (remove_quotes_same _ Hfree), strip_idem.
Qed.

Lemma py_clean_clean_witness :
  let term := String dquote (" Get " +:+ String dquote " Lucky ") in
  py_clean (PStr term) = Ok "Get  Lucky"
  ∧ is_substring (String dquote "") "Get  Lucky" = false
  ∧ strip "Get  Lucky" = "Get  Lucky"
  ∧ py_clean (PStr "Get  Lucky") = Ok "Get  Lucky".
Proof.
  intros term. split; [reflexivity|].
  apply (py_clean_clean (PStr term) "Get  Lucky"). reflexivity.
Defined.

(** X19: with an artist or a title that is not a string
    [search_musicbrainz] sends no request: it calls [rate_limit], the
    cleaning raises, and the client logs the warning and returns the empty
    dictionary. *)
Theorem search_musicbrainz_without_string world artist title st :
  is_str artist && is_str title = false →
  search_musicbrainz world artist title st
  = (Ok ∅, after st [EvRateLimit;
                     EvLog WARNING (MsgMusicBrainzFailed artist title AttributeError)]).
Proof.
  intros H. unfold search_musicbrainz, try_except, rate_limit.
  rewrite bind_emit.
  assert (py_clean artist = Raise AttributeError
          ∨ ∃ a, py_clean artist = Ok a ∧ py_clean title = Raise AttributeError)
    as [Ha|(a & Ha & Ht)].
  { destruct artist; try (by left). destruct title; try done; right; by eexists. }
  - rewrite Ha. unfold bind at 1, lift. unfold log. rewrite bind_emit.
    unfold after. simpl. by rewrite <- app_assoc.
  - rewrite Ha, bind_lift_ok, Ht. unfold bind at 1, lift. unfold log.
    rewrite bind_emit. unfold after. simpl. by rewrite <- app_assoc.
Qed.

Lemma search_musicbrainz_without_string_witness :
  search_musicbrainz Examples.scenario (PStr "Daft Punk") (PInt 7)
    (Examples.disk Examples.daft)
  = (Ok ∅, after (Examples.disk Examples.daft)
             [EvRateLimit;
              EvLog WARNING (MsgMusicBrainzFailed (PStr "Daft Punk") (PInt 7)
                               AttributeError)]).
Proof.
  apply (search_musicbrainz_without_string Examples.scenario (PStr "Daft Punk")
           (PInt 7) (Examples.disk Examples.daft)).
  reflexivity.
Defined.
